(** * Worker-pool coordinator, signal coordinator and their surroundings

    A shallow embedding of [src/platform/process.c] (the worker manager:
    initialisation, fork loop, readiness handshake over eventfd, cleanup,
    role accessors) and of [src/platform/signals.c] (the signal manager:
    handler, flags, callback registration, installation and restoration
    of dispositions), together with the properties the specification
    states about them; and of the code around them: [src/platform/system.c]
    (module state, allocation, CPU set and affinity string),
    [src/platform/socket.c] (socket options), [src/domain/http_server.c]
    and [src/domain/http_response.c] (JSON buffer, response description
    and response text), and the configuration, creation and destruction
    of [src/infrastructure/server_infrastructure.c].

    C [int] and [size_t] values are integers in [Z]; none of the modelled
    arithmetic can leave the range of its type (loop counters stay below
    [worker_count] or [CPU_SETSIZE], lengths are checked against buffer
    sizes before they are added up).  Arrays reached through a pointer
    are lists, C strings are strings, a NULL pointer is [None].  Calls
    into the operating system are answered by an oracle that sees the
    history of calls made so far, and every call is appended to that
    history, so that the order of system calls can be stated and proved. *)

From Stdlib Require Strings.String DecimalString.
From stdpp Require Import base numbers list option functions.

Local Open Scope Z_scope.

(** ** process.c *)

Module Process.

(** *** Types of [process.h] and [system.h] *)

Inductive system_error_t :=
  | SYSTEM_OK
  | SYSTEM_ERROR_CPU_COUNT
  | SYSTEM_ERROR_AFFINITY
  | SYSTEM_ERROR_MEMORY
  | SYSTEM_ERROR_INVALID_PARAM.

Inductive process_error_t :=
  | PROCESS_OK
  | PROCESS_ERROR_FORK
  | PROCESS_ERROR_EVENTFD
  | PROCESS_ERROR_WAIT
  | PROCESS_ERROR_INVALID_PARAM
  | PROCESS_ERROR_SIGNAL.

Inductive process_type_t :=
  | PROCESS_TYPE_PARENT
  | PROCESS_TYPE_WORKER.

#[global] Instance system_error_eq_dec : EqDecision system_error_t.
Proof. solve_decision. Defined.

#[global] Instance process_error_eq_dec : EqDecision process_error_t.
Proof. solve_decision. Defined.

#[global] Instance process_type_eq_dec : EqDecision process_type_t.
Proof. solve_decision. Defined.

Record worker_context_t := mk_worker_context {
  worker_id : Z;
  cpu_id : Z;
  eventfd : Z;
  pid : Z
}.

Record worker_config_t := mk_worker_config {
  worker_count : Z;
  cpu_ids : option (list Z);
  enable_affinity : bool
}.

Record worker_manager_t := mk_worker_manager {
  config : worker_config_t;
  workers : option (list worker_context_t);
  type : process_type_t;
  current_worker_id : Z
}.

(** What [memset(p, 0, sizeof *p)] leaves in each structure. *)
Definition zero_context : worker_context_t := mk_worker_context 0 0 0 0.

Definition zero_manager : worker_manager_t :=
  mk_worker_manager (mk_worker_config 0 None false) None PROCESS_TYPE_PARENT 0.

#[global] Instance worker_context_inhabited : Inhabited worker_context_t :=
  populate zero_context.

(** Field assignments. *)
Definition set_worker_id (v : Z) (c : worker_context_t) : worker_context_t :=
  mk_worker_context v (cpu_id c) (eventfd c) (pid c).
Definition set_cpu_id (v : Z) (c : worker_context_t) : worker_context_t :=
  mk_worker_context (worker_id c) v (eventfd c) (pid c).
Definition set_eventfd (v : Z) (c : worker_context_t) : worker_context_t :=
  mk_worker_context (worker_id c) (cpu_id c) v (pid c).
Definition set_pid (v : Z) (c : worker_context_t) : worker_context_t :=
  mk_worker_context (worker_id c) (cpu_id c) (eventfd c) v.

Definition set_config (c : worker_config_t) (m : worker_manager_t) : worker_manager_t :=
  mk_worker_manager c (workers m) (type m) (current_worker_id m).
Definition set_workers (ws : option (list worker_context_t)) (m : worker_manager_t)
  : worker_manager_t :=
  mk_worker_manager (config m) ws (type m) (current_worker_id m).
Definition set_type (t : process_type_t) (m : worker_manager_t) : worker_manager_t :=
  mk_worker_manager (config m) (workers m) t (current_worker_id m).
Definition set_current_worker_id (v : Z) (m : worker_manager_t) : worker_manager_t :=
  mk_worker_manager (config m) (workers m) (type m) v.

(** [manager->workers[i]] and [manager->config.cpu_ids[i]].  Reading or
    writing outside the array is undefined in C; here a read yields the
    zero element and a write does nothing, and the theorems that depend on
    the content of a slot assume the index is inside the array. *)
Definition slot (m : worker_manager_t) (i : nat) : worker_context_t :=
  default [] (workers m) !!! i.

Definition cpu_of (m : worker_manager_t) (i : nat) : Z :=
  default [] (cpu_ids (config m)) !!! i.

Definition update_slot (i : nat) (f : worker_context_t → worker_context_t)
    (m : worker_manager_t) : worker_manager_t :=
  set_workers (alter f i <$> workers m) m.

(** *** The operating system seen from one process *)

Inductive block := Blk_cpu_ids | Blk_workers.

Inductive log_msg :=
  | Msg_worker_running (i cpu pid : Z)
  | Msg_running_with (count : Z)
  | Msg_worker_exited (pid : Z).

Inductive event :=
  | Ev_signal_ignore_sigpipe
  | Ev_malloc (size : Z) (ok : bool)
  | Ev_free (b : block)
  | Ev_eventfd (ret : Z)
  | Ev_fork (ret : Z)
  | Ev_eventfd_read (fd ret : Z)
  | Ev_eventfd_write (fd ret : Z)
  | Ev_close (fd : Z)
  | Ev_sched_setaffinity (cpu ret : Z)
  | Ev_wait (ret : Z)
  | Ev_log_info (msg : log_msg)
  | Ev_log_error (msg : log_msg).

#[global] Instance block_eq_dec : EqDecision block.
Proof. solve_decision. Defined.

#[global] Instance log_msg_eq_dec : EqDecision log_msg.
Proof. solve_decision. Defined.

#[global] Instance event_eq_dec : EqDecision event.
Proof. solve_decision. Defined.

(** The answers of the kernel and of the allocator.  Each one may depend on
    everything the process did before the call. *)
Record os_t := mk_os {
  os_malloc : list event → Z → bool;
  os_eventfd : list event → Z;
  os_fork : list event → Z;
  os_eventfd_read : list event → Z → Z;
  os_eventfd_write : list event → Z → Z;
  os_sched_setaffinity : list event → Z → Z;
  os_wait : list event → Z
}.

(** Process-local state outside the manager: the [system_initialized]
    static of system.c and the history of calls. *)
Record world := mk_world {
  system_initialized : bool;
  trace : list event
}.

Definition M (A : Type) : Type := world → A * world.

Definition ret {A} (a : A) : M A := λ w, (a, w).

Definition bind {A B} (c : M A) (k : A → M B) : M B :=
  λ w, let '(a, w') := c w in k a w'.

Definition emit (e : event) : M unit :=
  λ w, (tt, mk_world (system_initialized w) (trace w ++ [e])).

(** A call whose result [answer] the environment chooses from the history;
    the call and its result are recorded. *)
Definition syscall {A} (answer : list event → A) (ev : A → event) : M A :=
  λ w, let r := answer (trace w) in
       (r, mk_world (system_initialized w) (trace w ++ [ev r])).

Definition sizeof_int : Z := 4.
Definition sizeof_worker_context : Z := 16.

Section Code.

Variable os : os_t.

Local Notation "'do' x <- c ; k" := (bind c (λ x, k))
  (at level 10, x name, c at level 100, k at level 200).
Local Notation "'do' ' p <- c ; k" := (bind c (λ p, k))
  (at level 10, p strict pattern, c at level 100, k at level 200).
Local Notation "c ;; k" := (bind c (λ _, k))
  (at level 100, k at level 200, right associativity).

(** *** system.c *)

Definition system_init : M system_error_t :=
  λ w,
    if system_initialized w then (SYSTEM_OK, w)
    else (SYSTEM_OK, mk_world true (trace w ++ [Ev_signal_ignore_sigpipe])).

(** Returns whether the pointer obtained is non-NULL. *)
Definition system_malloc (size : Z) : M bool :=
  if size =? 0 then ret false
  else syscall (λ h, os_malloc os h size) (Ev_malloc size).

Definition system_free (b : block) : M unit := emit (Ev_free b).

Definition system_set_cpu_affinity (cpu : Z) : M system_error_t :=
  do r <- syscall (λ h, os_sched_setaffinity os h cpu) (Ev_sched_setaffinity cpu);
  if r =? -1 then ret SYSTEM_ERROR_AFFINITY else ret SYSTEM_OK.

(** *** libc and kernel calls used by process.c *)

Definition sys_eventfd : M Z := syscall (os_eventfd os) Ev_eventfd.

Definition sys_fork : M Z := syscall (os_fork os) Ev_fork.

Definition sys_eventfd_read (fd : Z) : M Z :=
  syscall (λ h, os_eventfd_read os h fd) (Ev_eventfd_read fd).

Definition sys_eventfd_write (fd : Z) : M Z :=
  syscall (λ h, os_eventfd_write os h fd) (Ev_eventfd_write fd).

Definition sys_close (fd : Z) : M unit := emit (Ev_close fd).

Definition sys_wait : M Z := syscall (os_wait os) Ev_wait.

Definition log_info (msg : log_msg) : M unit := emit (Ev_log_info msg).
Definition log_error (msg : log_msg) : M unit := emit (Ev_log_error msg).

(** *** process.c *)

Definition is_null {A} (p : option A) : bool :=
  match p with Some _ => false | None => true end.

(** [memcpy(dst, src, n * sizeof(int))] into a fresh array of [n] ints. *)
Definition memcpy_ints (n : nat) (src : list Z) : list Z := take n src.

Definition worker_manager_init (manager : option worker_manager_t)
    (cfg : option worker_config_t)
  : M (process_error_t * option worker_manager_t) :=
  match manager, cfg with
  | Some m, Some c =>
    if (worker_count c <=? 0) || is_null (cpu_ids c)
    then ret (PROCESS_ERROR_INVALID_PARAM, Some m)
    else
      (* Initialize system module if not already done *)
      do sys_err <- system_init;
      if negb (bool_decide (sys_err = SYSTEM_OK))
      then ret (PROCESS_ERROR_INVALID_PARAM, Some m)
      else
        let m := zero_manager in
        (* Copy configuration *)
        let m := set_config
          (mk_worker_config (worker_count c) None (enable_affinity c)) m in
        (* Allocate and copy CPU IDs *)
        do p <- system_malloc (worker_count c * sizeof_int);
        if negb p then ret (PROCESS_ERROR_INVALID_PARAM, Some m)
        else
          let m := set_config
            (mk_worker_config (worker_count c)
               (Some (memcpy_ints (Z.to_nat (worker_count c))
                        (default [] (cpu_ids c))))
               (enable_affinity c)) m in
          (* Allocate worker contexts *)
          do q <- system_malloc (worker_count c * sizeof_worker_context);
          if negb q then
            system_free Blk_cpu_ids ;;
            ret (PROCESS_ERROR_INVALID_PARAM, Some m)
          else
            let m := set_workers
              (Some (replicate (Z.to_nat (worker_count c)) zero_context)) m in
            (* Initialize as parent process initially *)
            let m := set_type PROCESS_TYPE_PARENT m in
            let m := set_current_worker_id (-1) m in
            ret (PROCESS_OK, Some m)
  | _, _ => ret (PROCESS_ERROR_INVALID_PARAM, manager)
  end.

(** The inner loop of the worker branch,
    [for (j = ...; j < i; j++) if (workers[j].eventfd > 0) { close; = -1 }],
    with [n] iterations left. *)
Fixpoint free_parent_only (n : nat) (j : nat) (m : worker_manager_t)
  : M worker_manager_t :=
  match n with
  | O => ret m
  | S n' =>
    if 0 <? eventfd (slot m j) then
      sys_close (eventfd (slot m j)) ;;
      free_parent_only n' (S j) (update_slot j (set_eventfd (-1)) m)
    else free_parent_only n' (S j) m
  end.

(** The [else] arm of the fork loop: what the child runs after [fork()]. *)
Definition fork_child (i : nat) (efd : Z) (m : worker_manager_t)
  : M (process_error_t * worker_manager_t) :=
  let m := set_type PROCESS_TYPE_WORKER m in
  let m := set_current_worker_id (Z.of_nat i) m in
  (* Set CPU affinity if enabled *)
  do err <- (if enable_affinity (config m)
             then system_set_cpu_affinity (cpu_of m i)
             else ret SYSTEM_OK);
  if negb (bool_decide (err = SYSTEM_OK)) then
    sys_close efd ;;
    ret (PROCESS_ERROR_INVALID_PARAM, m)
  else
    (* Store eventfd for later signaling *)
    let m := update_slot i (set_eventfd efd) m in
    let m := update_slot i (set_cpu_id (cpu_of m i)) m in
    (* Free parent-only resources *)
    do m <- free_parent_only i 0 m;
    ret (PROCESS_OK, m).

(** The [if (pid > 0)] arm up to its [continue]: [Some e] is an early
    [return e], [None] falls through to the next iteration. *)
Definition fork_parent (i : nat) (efd pid : Z) (m : worker_manager_t)
  : M (option process_error_t * worker_manager_t) :=
  let m := update_slot i (set_worker_id (Z.of_nat i)) m in
  let m := update_slot i (set_cpu_id (cpu_of m i)) m in
  let m := update_slot i (set_eventfd efd) m in
  let m := update_slot i (set_pid pid) m in
  (* Wait for worker to signal ready *)
  do r <- sys_eventfd_read efd;
  if r =? -1 then
    sys_close efd ;;
    ret (Some PROCESS_ERROR_EVENTFD, m)
  else
    sys_close efd ;;
    let m := update_slot i (set_eventfd (-1)) m in
    log_info (Msg_worker_running (Z.of_nat i) (cpu_of m i) pid) ;;
    ret (None, m).

(** [for (i = ...; i < worker_count; i++) { ... }] with [n] iterations
    left; [Some e] is a [return e] from inside the loop. *)
Fixpoint fork_loop (n : nat) (i : nat) (m : worker_manager_t)
  : M (option process_error_t * worker_manager_t) :=
  match n with
  | O => ret (None, m)
  | S n' =>
    (* Create eventfd for synchronization *)
    do efd <- sys_eventfd;
    if efd =? -1 then ret (Some PROCESS_ERROR_EVENTFD, m)
    else
      do pid <- sys_fork;
      if pid =? -1 then
        sys_close efd ;;
        ret (Some PROCESS_ERROR_FORK, m)
      else if 0 <? pid then
        do '(r, m) <- fork_parent i efd pid m;
        match r with
        | Some e => ret (Some e, m)
        | None => fork_loop n' (S i) m
        end
      else
        do '(e, m) <- fork_child i efd m;
        ret (Some e, m)
  end.

Definition worker_manager_fork_workers (manager : option worker_manager_t)
  : M (process_error_t * option worker_manager_t) :=
  match manager with
  | None => ret (PROCESS_ERROR_INVALID_PARAM, None)
  | Some m =>
    do '(r, m) <- fork_loop (Z.to_nat (worker_count (config m))) 0 m;
    match r with
    | Some e => ret (e, Some m)
    | None =>
      log_info (Msg_running_with (worker_count (config m))) ;;
      ret (PROCESS_OK, Some m)
    end
  end.

Definition worker_manager_signal_ready (manager : option worker_manager_t)
  : M (process_error_t * option worker_manager_t) :=
  match manager with
  | None => ret (PROCESS_ERROR_INVALID_PARAM, None)
  | Some m =>
    if negb (bool_decide (type m = PROCESS_TYPE_WORKER))
    then ret (PROCESS_ERROR_INVALID_PARAM, Some m)
    else
      let worker_id := current_worker_id m in
      if (worker_id <? 0) || (worker_count (config m) <=? worker_id)
      then ret (PROCESS_ERROR_INVALID_PARAM, Some m)
      else
        let efd := eventfd (slot m (Z.to_nat worker_id)) in
        if efd <=? 0 then ret (PROCESS_ERROR_INVALID_PARAM, Some m)
        else
          (* Signal parent that we're ready *)
          do r <- sys_eventfd_write efd;
          if r =? -1 then ret (PROCESS_ERROR_EVENTFD, Some m)
          else
            (* Close eventfd after signaling *)
            sys_close efd ;;
            ret (PROCESS_OK,
                 Some (update_slot (Z.to_nat worker_id) (set_eventfd (-1)) m))
  end.

Definition worker_manager_wait_workers (manager : option worker_manager_t)
  : M process_error_t :=
  match manager with
  | None => ret PROCESS_ERROR_INVALID_PARAM
  | Some m =>
    if negb (bool_decide (type m = PROCESS_TYPE_PARENT))
    then ret PROCESS_ERROR_INVALID_PARAM
    else
      (* Wait for any child to exit *)
      do pid <- sys_wait;
      if pid =? -1 then ret PROCESS_ERROR_WAIT
      else
        log_error (Msg_worker_exited pid) ;;
        ret PROCESS_OK
  end.

Definition worker_manager_get_type (manager : option worker_manager_t)
  : process_type_t :=
  match manager with
  | Some m => type m
  | None => PROCESS_TYPE_PARENT
  end.

Definition worker_manager_get_worker_id (manager : option worker_manager_t) : Z :=
  match manager with
  | None => -1
  | Some m =>
    if negb (bool_decide (type m = PROCESS_TYPE_WORKER)) then -1
    else current_worker_id m
  end.

Definition worker_manager_get_cpu_id (manager : option worker_manager_t) : Z :=
  match manager with
  | None => -1
  | Some m =>
    if negb (bool_decide (type m = PROCESS_TYPE_WORKER)) then -1
    else
      let worker_id := current_worker_id m in
      if (worker_id <? 0) || (worker_count (config m) <=? worker_id) then -1
      else cpu_id (slot m (Z.to_nat worker_id))
  end.

End Code.

(** *** Predicates on histories and managers *)

Definition index_out_of_range (m : worker_manager_t) : Prop :=
  current_worker_id m < 0 ∨ worker_count (config m) ≤ current_worker_id m.

(** An event of the fork loop's own making: creating a channel or forking. *)
Definition spawns (e : event) : Prop :=
  match e with
  | Ev_eventfd _ | Ev_fork _ => True
  | _ => False
  end.

(** The events of one completed handshake, as the parent produces them for
    worker [i]: create the channel, fork, block on the channel, close the
    parent's handle, log. *)
Definition handshake (cpus : list Z) (i : nat) (efd pid rd : Z) : list event :=
  [Ev_eventfd efd; Ev_fork pid; Ev_eventfd_read efd rd; Ev_close efd;
   Ev_log_info (Msg_worker_running (Z.of_nat i) (cpus !!! i) pid)].

(** [handshakes cpus i k t]: [t] is the completed handshakes of workers
    [i], [i+1], ..., [k-1], one after the other. *)
Inductive handshakes (cpus : list Z) : nat → nat → list event → Prop :=
  | handshakes_nil i : handshakes cpus i i []
  | handshakes_cons i k efd pid rd rest :
      efd ≠ -1 → 0 < pid → rd ≠ -1 →
      handshakes cpus (S i) k rest →
      handshakes cpus i k (handshake cpus i efd pid rd ++ rest).

(** How an execution leaves the loop, and the events of its last, partial
    iteration. *)
Inductive loop_end : option process_error_t → list event → Prop :=
  | end_exhausted : loop_end None []
  | end_eventfd_failed :
      loop_end (Some PROCESS_ERROR_EVENTFD) [Ev_eventfd (-1)]
  | end_fork_failed efd :
      efd ≠ -1 →
      loop_end (Some PROCESS_ERROR_FORK) [Ev_eventfd efd; Ev_fork (-1); Ev_close efd]
  | end_await_failed efd pid :
      efd ≠ -1 → 0 < pid →
      loop_end (Some PROCESS_ERROR_EVENTFD)
        [Ev_eventfd efd; Ev_fork pid; Ev_eventfd_read efd (-1); Ev_close efd]
  | end_child efd pid e tail :
      efd ≠ -1 → pid ≠ -1 → pid ≤ 0 → Forall (λ e, ¬ spawns e) tail →
      loop_end (Some e) ([Ev_eventfd efd; Ev_fork pid] ++ tail).

Definition cpus_of (m : worker_manager_t) : list Z :=
  default [] (cpu_ids (config m)).

(** The return values of the [fork()] calls in a history. *)
Definition forks (t : list event) : list Z :=
  omap (λ e, match e with Ev_fork p => Some p | _ => None end) t.

(** *** Sample environments and managers *)

(** An environment in which every call succeeds: descriptors and process
    ids are fresh positive numbers, [wait] reaps [reaped]. *)
Definition os_fine (reaped : Z) : os_t :=
  mk_os (λ _ _, true)
        (λ h, 3 + Z.of_nat (length h))
        (λ h, 100 + Z.of_nat (length h))
        (λ _ _, 0) (λ _ _, 0) (λ _ _, 0) (λ _, reaped).

Definition parent_of_two : worker_manager_t :=
  mk_worker_manager (mk_worker_config 2 (Some [2; 3]) true)
    (Some [zero_context; zero_context]) PROCESS_TYPE_PARENT (-1).

Definition fresh_world : world := mk_world false [].

(** Worker 1 of a two-worker pool, pinned to CPU 3. *)
Definition worker_one : worker_manager_t :=
  mk_worker_manager (mk_worker_config 2 (Some [2; 3]) true)
    (Some [mk_worker_context 0 2 (-1) 0; mk_worker_context 0 3 7 0])
    PROCESS_TYPE_WORKER 1.

(** A manager in the worker role whose stored index is outside the pool. *)
Definition stray_worker : worker_manager_t :=
  mk_worker_manager (mk_worker_config 2 (Some [0; 1]) false)
    (Some [zero_context; zero_context]) PROCESS_TYPE_WORKER 5.

Definition config_of_two : worker_config_t :=
  mk_worker_config 2 (Some [2; 3; 5]) true.

Definition config_of_none : worker_config_t :=
  mk_worker_config 0 (Some [2; 3]) true.

(** An environment whose second [fork()] fails. *)
Definition os_second_fork_fails : os_t :=
  mk_os (λ _ _, true)
        (λ h, 3 + Z.of_nat (length h))
        (λ h, if bool_decide (length (forks h) = 1%nat) then -1
              else 100 + Z.of_nat (length h))
        (λ _ _, 0) (λ _ _, 0) (λ _ _, 0) (λ _, 0).

(** An environment seen from a child: [fork()] returns 0. *)
Definition os_in_child : os_t :=
  mk_os (λ _ _, true) (λ _, 5) (λ _, 0) (λ _ _, 0) (λ _ _, 0) (λ _ _, 0) (λ _, 0).

(** A manager about to fork worker 1 whose slot 0 still holds descriptor 9. *)
Definition parent_with_stale_handle : worker_manager_t :=
  mk_worker_manager (mk_worker_config 2 (Some [2; 3]) true)
    (Some [mk_worker_context 0 2 9 101; zero_context]) PROCESS_TYPE_PARENT (-1).

(** *** The rest of process.c and system.c *)

Section More_code.

Local Notation "'do' x <- c ; k" := (bind c (λ x, k))
  (at level 10, x name, c at level 100, k at level 200).
Local Notation "c ;; k" := (bind c (λ _, k))
  (at level 100, k at level 200, right associativity).

(** The loop of [worker_manager_cleanup],
    [for (i = ...; i < worker_count; i++) if (workers[i].eventfd > 0) close(...)],
    with [n] iterations left. *)
Fixpoint close_open_eventfds (n : nat) (i : nat) (m : worker_manager_t) : M unit :=
  match n with
  | O => ret tt
  | S n' =>
    (if 0 <? eventfd (slot m i) then sys_close (eventfd (slot m i)) else ret tt) ;;
    close_open_eventfds n' (S i) m
  end.

Definition worker_manager_cleanup (manager : option worker_manager_t)
  : M (option worker_manager_t) :=
  match manager with
  | None => ret None
  | Some m =>
    (if is_null (cpu_ids (config m)) then ret tt else system_free Blk_cpu_ids) ;;
    (if is_null (workers m) then ret tt
     else
       (* Close any open eventfds *)
       close_open_eventfds (Z.to_nat (worker_count (config m))) 0 m ;;
       system_free Blk_workers) ;;
    ret (Some zero_manager)
  end.

Definition system_cleanup : M unit :=
  λ w, (tt, mk_world false (trace w)).

(** [system_get_cpu_info].  A [cpu_set_t] is a set of CPU numbers below
    [CPU_SETSIZE], here its membership test.  [online] is what
    [sched_getaffinity] stores, [None] when it returns -1; [garbage] is
    the content of the array [system_malloc] hands out, entry by entry. *)
Definition CPU_SETSIZE : nat := 1024.

Definition CPU_COUNT (set : nat → bool) : nat :=
  length (filter (λ c, set c = true) (seq 0 CPU_SETSIZE)).

(** The loop over [abs_cpu_index] with [n] iterations left; it stops
    early once [rel_cpu_index] reaches [num_online_cpus]. *)
Fixpoint collect_cpus (set : nat → bool) (num_online_cpus : nat) (n : nat)
    (abs_cpu_index rel_cpu_index : nat) (cpu_ids : list Z) : list Z :=
  match n with
  | O => cpu_ids
  | S n' =>
    if set abs_cpu_index then
      let cpu_ids := <[rel_cpu_index := Z.of_nat abs_cpu_index]> cpu_ids in
      let rel_cpu_index := S rel_cpu_index in
      if (rel_cpu_index =? num_online_cpus)%nat then cpu_ids
      else collect_cpus set num_online_cpus n' (S abs_cpu_index) rel_cpu_index cpu_ids
    else collect_cpus set num_online_cpus n' (S abs_cpu_index) rel_cpu_index cpu_ids
  end.

Record system_cpu_info_t := mk_system_cpu_info {
  count : Z;
  info_cpu_ids : option (list Z)
}.

Definition system_get_cpu_info (os : os_t) (info : option system_cpu_info_t)
    (online : option (nat → bool)) (garbage : nat → Z)
  : M (system_error_t * option system_cpu_info_t) :=
  match info with
  | None => ret (SYSTEM_ERROR_INVALID_PARAM, None)
  | Some old =>
    match online with
    | None => ret (SYSTEM_ERROR_CPU_COUNT, Some old)
    | Some online_cpus =>
      let num_online_cpus := Z.of_nat (CPU_COUNT online_cpus) in
      if num_online_cpus <=? 0 then ret (SYSTEM_ERROR_CPU_COUNT, Some old)
      else
        do p <- system_malloc os (num_online_cpus * sizeof_int);
        if negb p then ret (SYSTEM_ERROR_MEMORY, Some old)
        else
          let cpu_ids :=
            collect_cpus online_cpus (CPU_COUNT online_cpus) CPU_SETSIZE 0 0
              (map garbage (seq 0 (CPU_COUNT online_cpus))) in
          ret (SYSTEM_OK, Some (mk_system_cpu_info num_online_cpus (Some cpu_ids)))
    end
  end.

End More_code.

(** The channel descriptors a history creates and the descriptors it
    closes, in order. *)
Definition opened (t : list event) : list Z :=
  omap (λ e, match e with
             | Ev_eventfd fd => if fd =? -1 then None else Some fd
             | _ => None
             end) t.

Definition closed (t : list event) : list Z :=
  omap (λ e, match e with Ev_close fd => Some fd | _ => None end) t.

(** The descriptors recorded as open in slots [i], ..., [i+n-1]. *)
Definition open_descriptors (m : worker_manager_t) (i n : nat) : list Z :=
  omap (λ j, if 0 <? eventfd (slot m j) then Some (eventfd (slot m j)) else None)
       (seq i n).

(** An environment whose second [eventfd()] fails. *)
Definition os_second_eventfd_fails : os_t :=
  mk_os (λ _ _, true)
        (λ h, if bool_decide (length (opened h) = 1%nat) then -1
              else 3 + Z.of_nat (length h))
        (λ h, 100 + Z.of_nat (length h))
        (λ _ _, 0) (λ _ _, 0) (λ _ _, 0) (λ _, 0).

(** An environment in which reading a channel fails. *)
Definition os_read_fails : os_t :=
  mk_os (λ _ _, true)
        (λ h, 3 + Z.of_nat (length h))
        (λ h, 100 + Z.of_nat (length h))
        (λ _ _, -1) (λ _ _, 0) (λ _ _, 0) (λ _, 0).

(** An environment that refuses allocations of more than 16 bytes. *)
Definition os_small_allocations : os_t :=
  mk_os (λ _ size, size <=? 16)
        (λ h, 3 + Z.of_nat (length h))
        (λ h, 100 + Z.of_nat (length h))
        (λ _ _, 0) (λ _ _, 0) (λ _ _, 0) (λ _, 0).

(** The descriptors a history has signalled: the writes that succeeded. *)
Definition signalled (t : list event) : list Z :=
  omap (λ e, match e with
             | Ev_eventfd_write fd r => if r =? -1 then None else Some fd
             | _ => None
             end) t.

(** [n] calls of [worker_manager_signal_ready] in a row, each on the
    manager the call before it has left. *)
Fixpoint signal_ready_repeatedly (os : os_t) (n : nat)
    (manager : option worker_manager_t) : M (option worker_manager_t) :=
  match n with
  | O => ret manager
  | S n' =>
    bind (worker_manager_signal_ready os manager)
      (λ '(_, manager), signal_ready_repeatedly os n' manager)
  end.

End Process.

(** ** system.c: the affinity string *)

Module Affinity.

Import Process String.

(** What [%d] prints for a CPU index. *)
Definition format_d (i : nat) : string :=
  DecimalString.NilZero.string_of_uint (Nat.to_uint i).

(** [snprintf(buffer + written, avail, ...)] of a text, for [avail > 0]:
    the buffer keeps its first [written] characters, receives as much of
    the text as fits before the terminating NUL, and the length of the
    whole text is returned.  A buffer is given by the C string it
    holds. *)
Definition snprintf (buffer : string) (written avail : Z) (text : string)
  : string * Z :=
  (substring 0 (Z.to_nat written) buffer
     ++ substring 0 (Z.to_nat (avail - 1)) text,
   Z.of_nat (length text))%string.

(** The loop [for (i = ...; i < CPU_SETSIZE && written < size - 1; i++)]
    with [n] indices left. *)
Fixpoint affinity_loop (cpu_set : nat → bool) (size : Z) (n i : nat)
    (written : Z) (first : bool) (buffer : string) : Z * string :=
  match n with
  | O => (written, buffer)
  | S n' =>
    if written <? size - 1 then
      if cpu_set i then
        let '(buffer, len) :=
          snprintf buffer written (size - written)
            (if first then format_d i else "," ++ format_d i)%string in
        if (len <? 0) || (size - written <=? len)
        then (written, buffer) (* Buffer would overflow *)
        else affinity_loop cpu_set size n' (S i) (written + len) false buffer
      else affinity_loop cpu_set size n' (S i) written first buffer
    else (written, buffer)
  end.

(** [buffer] is the C string the caller's buffer holds ([None] for a NULL
    pointer), [affinity] the set [sched_getaffinity] returns ([None] if
    it fails). *)
Definition system_get_cpu_affinity_string (buffer : option string) (size : Z)
    (affinity : option (nat → bool)) : system_error_t * option string :=
  match buffer with
  | None => (SYSTEM_ERROR_INVALID_PARAM, None)
  | Some b =>
    if size =? 0 then (SYSTEM_ERROR_INVALID_PARAM, Some b)
    else
      match affinity with
      | None => (SYSTEM_ERROR_AFFINITY, Some b)
      | Some cpu_set =>
        (* Convert CPU set to string representation *)
        let '(written, b) := affinity_loop cpu_set size CPU_SETSIZE 0 0 true b in
        if size <=? written
        then (SYSTEM_ERROR_MEMORY, Some b) (* Buffer too small *)
        else (SYSTEM_OK, Some b)
      end
  end.

(** The entries after the first one, or all of them, as the loop prints
    them. *)
Fixpoint listed (first : bool) (cpus : list nat) : string :=
  match cpus with
  | [] => ""
  | c :: cpus =>
    ((if first then format_d c else "," ++ format_d c) ++ listed false cpus)%string
  end.

(** The CPUs 1, 3 and 12. *)
Definition three_cpus (c : nat) : bool :=
  (c =? 1)%nat || (c =? 3)%nat || (c =? 12)%nat.

End Affinity.

(** ** signals.c *)

Module Signals.

(** *** Signal numbers

    The numbers come from [<signal.h>]; the code only relies on the six it
    names being different (they are the labels of one [switch]). *)

Class signal_numbers := {
  SIGTERM : Z;
  SIGINT : Z;
  SIGHUP : Z;
  SIGUSR1 : Z;
  SIGUSR2 : Z;
  SIGPIPE : Z;
  signals_distinct : NoDup [SIGTERM; SIGINT; SIGHUP; SIGUSR1; SIGUSR2; SIGPIPE]
}.

(** The numbering of Linux on x86 and ARM. *)
#[global] Instance linux_signals : signal_numbers := {|
  SIGTERM := 15;
  SIGINT := 2;
  SIGHUP := 1;
  SIGUSR1 := 10;
  SIGUSR2 := 12;
  SIGPIPE := 13;
  signals_distinct := bool_decide_unpack (NoDup [15; 2; 1; 10; 12; 13]) I
|}.

(** *** Types of [signals.h] *)

(** A [signal_callback_t] is a function pointer: NULL, or the address of a
    function supplied by the user of the module. *)
Definition signal_callback_t : Type := option nat.

Record signal_config_t := mk_signal_config {
  handle_sigterm : bool;
  handle_sigint : bool;
  handle_sighup : bool;
  handle_sigusr1 : bool;
  handle_sigusr2 : bool;
  handle_sigpipe : bool
}.

Record signal_manager_t := mk_signal_manager {
  config : signal_config_t;
  sigterm_handler : signal_callback_t;
  sigint_handler : signal_callback_t;
  sighup_handler : signal_callback_t;
  sigusr1_handler : signal_callback_t;
  sigusr2_handler : signal_callback_t;
  shutdown_requested : Z;
  reload_requested : Z
}.

Inductive signal_error_t :=
  | SIGNAL_OK
  | SIGNAL_ERROR_INVALID_PARAM
  | SIGNAL_ERROR_SETUP
  | SIGNAL_ERROR_MEMORY.

(** What [memset] leaves. *)
Definition zero_manager : signal_manager_t :=
  mk_signal_manager (mk_signal_config false false false false false false)
    None None None None None 0 0.

Definition set_config (c : signal_config_t) (m : signal_manager_t) :=
  mk_signal_manager c (sigterm_handler m) (sigint_handler m) (sighup_handler m)
    (sigusr1_handler m) (sigusr2_handler m) (shutdown_requested m) (reload_requested m).
Definition set_sigterm_handler (cb : signal_callback_t) (m : signal_manager_t) :=
  mk_signal_manager (config m) cb (sigint_handler m) (sighup_handler m)
    (sigusr1_handler m) (sigusr2_handler m) (shutdown_requested m) (reload_requested m).
Definition set_sigint_handler (cb : signal_callback_t) (m : signal_manager_t) :=
  mk_signal_manager (config m) (sigterm_handler m) cb (sighup_handler m)
    (sigusr1_handler m) (sigusr2_handler m) (shutdown_requested m) (reload_requested m).
Definition set_sighup_handler (cb : signal_callback_t) (m : signal_manager_t) :=
  mk_signal_manager (config m) (sigterm_handler m) (sigint_handler m) cb
    (sigusr1_handler m) (sigusr2_handler m) (shutdown_requested m) (reload_requested m).
Definition set_sigusr1_handler (cb : signal_callback_t) (m : signal_manager_t) :=
  mk_signal_manager (config m) (sigterm_handler m) (sigint_handler m) (sighup_handler m)
    cb (sigusr2_handler m) (shutdown_requested m) (reload_requested m).
Definition set_sigusr2_handler (cb : signal_callback_t) (m : signal_manager_t) :=
  mk_signal_manager (config m) (sigterm_handler m) (sigint_handler m) (sighup_handler m)
    (sigusr1_handler m) cb (shutdown_requested m) (reload_requested m).
Definition set_shutdown_requested (v : Z) (m : signal_manager_t) :=
  mk_signal_manager (config m) (sigterm_handler m) (sigint_handler m) (sighup_handler m)
    (sigusr1_handler m) (sigusr2_handler m) v (reload_requested m).
Definition set_reload_requested (v : Z) (m : signal_manager_t) :=
  mk_signal_manager (config m) (sigterm_handler m) (sigint_handler m) (sighup_handler m)
    (sigusr1_handler m) (sigusr2_handler m) (shutdown_requested m) v.

(** *** The process *)

(** What the kernel does on delivery of a signal: the default action,
    nothing, or a call of [signal_handler] (installed with the five
    handled signals blocked and [SA_RESTART]). *)
Inductive disposition := SIG_DFL | SIG_IGN | Sa_signal_handler.

Inductive log_msg :=
  | Msg_sigterm_received
  | Msg_sigint_received
  | Msg_sighup_received
  | Msg_unhandled_signal (signum : Z)
  | Msg_setup_failed (signum : Z)
  | Msg_restore_failed (signum : Z)
  | Msg_initialized
  | Msg_cleaned_up.

Inductive event :=
  | Ev_sigaction (signum : Z) (d : disposition) (ret : Z)
  | Ev_callback (address : nat) (signum : Z)
  | Ev_log_debug (msg : log_msg)
  | Ev_log_info (msg : log_msg)
  | Ev_log_warn (msg : log_msg)
  | Ev_log_error (msg : log_msg).

(** Managers live in memory and are reached through pointers: the
    file-scope [global_signal_manager] and the [manager] argument of each
    function may or may not point to the same one. *)
Definition loc : Type := nat.

Record process := mk_process {
  memory : loc → signal_manager_t;
  global_signal_manager : option loc;
  dispositions : Z → disposition;
  history : list event
}.

Definition store (p : loc) (m : signal_manager_t) (s : process) : process :=
  mk_process (<[p := m]> (memory s)) (global_signal_manager s)
    (dispositions s) (history s).

Definition set_global (g : option loc) (s : process) : process :=
  mk_process (memory s) g (dispositions s) (history s).

Definition record (e : event) (s : process) : process :=
  mk_process (memory s) (global_signal_manager s) (dispositions s)
    (history s ++ [e]).

Definition install (signum : Z) (d : disposition) (s : process) : process :=
  mk_process (memory s) (global_signal_manager s)
    (<[signum := d]> (dispositions s)) (history s).

Section Code.

Context {numbers : signal_numbers}.

(** The result of [sigaction(signum, &sa, NULL)], chosen by the kernel. *)
Variable sigaction_result : list event → Z → disposition → Z.

(** What the user function at address [cb] does to the process when it
    is called with [signum].  It is foreign code. *)
Variable run_callback : nat → Z → process → process.

Definition call (cb : nat) (signum : Z) (s : process) : process :=
  run_callback cb signum (record (Ev_callback cb signum) s).

Definition signal_handler (signum : Z) (s : process) : process :=
  match global_signal_manager s with
  | None => s
  | Some g =>
    if signum =? SIGTERM then
      let s := store g (set_shutdown_requested 1 (memory s g)) s in
      match sigterm_handler (memory s g) with
      | Some cb => call cb signum s
      | None => record (Ev_log_info Msg_sigterm_received) s
      end
    else if signum =? SIGINT then
      let s := store g (set_shutdown_requested 1 (memory s g)) s in
      match sigint_handler (memory s g) with
      | Some cb => call cb signum s
      | None => record (Ev_log_info Msg_sigint_received) s
      end
    else if signum =? SIGHUP then
      let s := store g (set_reload_requested 1 (memory s g)) s in
      match sighup_handler (memory s g) with
      | Some cb => call cb signum s
      | None => record (Ev_log_info Msg_sighup_received) s
      end
    else if signum =? SIGUSR1 then
      match sigusr1_handler (memory s g) with
      | Some cb => call cb signum s
      | None => s
      end
    else if signum =? SIGUSR2 then
      match sigusr2_handler (memory s g) with
      | Some cb => call cb signum s
      | None => s
      end
    else if signum =? SIGPIPE then
      (* Ignore SIGPIPE by default *)
      s
    else record (Ev_log_warn (Msg_unhandled_signal signum)) s
  end.

Definition setup_signal_handler (signum : Z) (enable : bool) (s : process)
  : signal_error_t * process :=
  if enable then
    let r := sigaction_result (history s) signum Sa_signal_handler in
    let s := record (Ev_sigaction signum Sa_signal_handler r) s in
    if r =? -1 then
      (SIGNAL_ERROR_SETUP, record (Ev_log_error (Msg_setup_failed signum)) s)
    else (SIGNAL_OK, install signum Sa_signal_handler s)
  else
    (* Restore default handler *)
    let r := sigaction_result (history s) signum SIG_DFL in
    let s := record (Ev_sigaction signum SIG_DFL r) s in
    if r =? -1 then
      (SIGNAL_ERROR_SETUP, record (Ev_log_error (Msg_restore_failed signum)) s)
    else (SIGNAL_OK, install signum SIG_DFL s).

Definition signal_manager_default_config : signal_config_t :=
  {| handle_sigterm := true;
     handle_sigint := true;
     handle_sighup := false;
     handle_sigusr1 := false;
     handle_sigusr2 := false;
     handle_sigpipe := true |}.

(** [if (flag) { err = setup_signal_handler(signum, true);
                 if (err != SIGNAL_OK) return err; }] followed by [rest]. *)
Definition setup_if (flag : bool) (signum : Z)
    (rest : process → signal_error_t * process) (s : process)
  : signal_error_t * process :=
  if flag then
    match setup_signal_handler signum true s with
    | (SIGNAL_OK, s) => rest s
    | (err, s) => (err, s)
    end
  else rest s.

(** The configuration is passed by pointer; it is taken to be an object
    of the caller's, apart from the manager being initialised. *)
Definition signal_manager_init (manager : option loc)
    (cfg : option signal_config_t) (s : process) : signal_error_t * process :=
  match manager with
  | None => (SIGNAL_ERROR_INVALID_PARAM, s)
  | Some p =>
    let s := store p zero_manager s in
    let s := store p (set_config (match cfg with
                                  | Some c => c
                                  | None => signal_manager_default_config
                                  end) (memory s p)) s in
    (* Set global reference *)
    let s := set_global (Some p) s in
    (* Setup signal handlers *)
    let c := config (memory s p) in
    setup_if (handle_sigterm c) SIGTERM
      (setup_if (handle_sigint c) SIGINT
        (setup_if (handle_sighup c) SIGHUP
          (setup_if (handle_sigusr1 c) SIGUSR1
            (setup_if (handle_sigusr2 c) SIGUSR2
              (setup_if (handle_sigpipe c) SIGPIPE
                (λ s, (SIGNAL_OK, record (Ev_log_debug Msg_initialized) s)))))))
      s
  end.

(** [if (flag) setup_signal_handler(signum, false);] *)
Definition restore_if (flag : bool) (signum : Z) (s : process) : process :=
  if flag then (setup_signal_handler signum false s).2 else s.

Definition signal_manager_cleanup (manager : option loc) (s : process) : process :=
  match manager with
  | None => s
  | Some p =>
    (* Remove global reference *)
    let s := if bool_decide (global_signal_manager s = Some p)
             then set_global None s else s in
    (* Restore default handlers *)
    let c := config (memory s p) in
    let s := restore_if (handle_sigterm c) SIGTERM s in
    let s := restore_if (handle_sigint c) SIGINT s in
    let s := restore_if (handle_sighup c) SIGHUP s in
    let s := restore_if (handle_sigusr1 c) SIGUSR1 s in
    let s := restore_if (handle_sigusr2 c) SIGUSR2 s in
    let s := restore_if (handle_sigpipe c) SIGPIPE s in
    let s := store p zero_manager s in
    record (Ev_log_debug Msg_cleaned_up) s
  end.

Definition signal_manager_set_handler (manager : option loc) (signum : Z)
    (callback : signal_callback_t) (s : process) : signal_error_t * process :=
  match manager with
  | None => (SIGNAL_ERROR_INVALID_PARAM, s)
  | Some p =>
    if signum =? SIGTERM then
      (SIGNAL_OK, store p (set_sigterm_handler callback (memory s p)) s)
    else if signum =? SIGINT then
      (SIGNAL_OK, store p (set_sigint_handler callback (memory s p)) s)
    else if signum =? SIGHUP then
      (SIGNAL_OK, store p (set_sighup_handler callback (memory s p)) s)
    else if signum =? SIGUSR1 then
      (SIGNAL_OK, store p (set_sigusr1_handler callback (memory s p)) s)
    else if signum =? SIGUSR2 then
      (SIGNAL_OK, store p (set_sigusr2_handler callback (memory s p)) s)
    else (SIGNAL_ERROR_INVALID_PARAM, s)
  end.

(** The flags are [sig_atomic_t]; the result type [bool] turns any
    non-zero value into [true]. *)
Definition signal_manager_shutdown_requested (manager : option loc) (s : process)
  : bool :=
  match manager with
  | Some p => negb (shutdown_requested (memory s p) =? 0)
  | None => false
  end.

Definition signal_manager_reload_requested (manager : option loc) (s : process)
  : bool :=
  match manager with
  | Some p => negb (reload_requested (memory s p) =? 0)
  | None => false
  end.

Definition signal_manager_reset_shutdown (manager : option loc) (s : process)
  : process :=
  match manager with
  | Some p => store p (set_shutdown_requested 0 (memory s p)) s
  | None => s
  end.

Definition signal_manager_reset_reload (manager : option loc) (s : process)
  : process :=
  match manager with
  | Some p => store p (set_reload_requested 0 (memory s p)) s
  | None => s
  end.

End Code.

(** *** Operations on an active coordinator *)

(** The calls a program makes on a coordinator between its initialisation
    and its cleanup, and the delivery of a signal to the process. *)
Inductive operation :=
  | Op_signal (signum : Z)
  | Op_shutdown_requested (manager : option loc)
  | Op_reload_requested (manager : option loc)
  | Op_set_handler (manager : option loc) (signum : Z) (callback : signal_callback_t)
  | Op_reset_reload (manager : option loc)
  | Op_reset_shutdown (manager : option loc).

#[global] Instance operation_eq_dec : EqDecision operation.
Proof. solve_decision. Defined.

Definition perform `{signal_numbers} (run_callback : nat → Z → process → process)
    (op : operation) (s : process) : process :=
  match op with
  | Op_signal signum => signal_handler run_callback signum s
  | Op_shutdown_requested _ => s
  | Op_reload_requested _ => s
  | Op_set_handler manager signum callback =>
      (signal_manager_set_handler manager signum callback s).2
  | Op_reset_reload manager => signal_manager_reset_reload manager s
  | Op_reset_shutdown manager => signal_manager_reset_shutdown manager s
  end.

(** *** Sample processes and environments *)

(** A process that has not set up any coordinator. *)
Definition initial_process : process :=
  mk_process (λ _, zero_manager) None (λ _, SIG_DFL) [].

(** A coordinator at address 0, active, nothing requested. *)
Definition active_process : process :=
  mk_process (λ _, zero_manager) (Some 0%nat) (λ _, SIG_DFL) [].

(** A callback that touches nothing of the process. *)
Definition quiet_callback : nat → Z → process → process := λ _ _ s, s.

(** A kernel that accepts every [sigaction]. *)
Definition sigaction_fine : list event → Z → disposition → Z := λ _ _ _, 0.

(** *** Predicates on configurations and histories *)

(** The signals a configuration enables, in the order in which
    [signal_manager_init] and [signal_manager_cleanup] go through them. *)
Definition enabled_signals `{signal_numbers} (c : signal_config_t) : list Z :=
  (if handle_sigterm c then [SIGTERM] else [])
  ++ (if handle_sigint c then [SIGINT] else [])
  ++ (if handle_sighup c then [SIGHUP] else [])
  ++ (if handle_sigusr1 c then [SIGUSR1] else [])
  ++ (if handle_sigusr2 c then [SIGUSR2] else [])
  ++ (if handle_sigpipe c then [SIGPIPE] else []).

(** The [sigaction] calls of a history: signal, disposition asked for,
    result. *)
Definition sigactions (t : list event) : list (Z * disposition * Z) :=
  omap (λ e, match e with
             | Ev_sigaction signum d r => Some (signum, d, r)
             | _ => None
             end) t.

(** [setup_signal_handler(signum, false)] for each signal of a list,
    whatever the calls return. *)
Definition restore_all (sigaction_result : list event → Z → disposition → Z)
    (sigs : list Z) (s : process) : process :=
  foldl (λ s signum, (setup_signal_handler sigaction_result signum false s).2) s sigs.

(** [setup_signal_handler(signum, true)] for each signal of a list up to
    the first failure, then the log line of [signal_manager_init]. *)
Fixpoint setup_all (sigaction_result : list event → Z → disposition → Z)
    (sigs : list Z) (s : process) : signal_error_t * process :=
  match sigs with
  | [] => (SIGNAL_OK, record (Ev_log_debug Msg_initialized) s)
  | signum :: sigs =>
    match setup_signal_handler sigaction_result signum true s with
    | (SIGNAL_OK, s) => setup_all sigaction_result sigs s
    | (err, s) => (err, s)
    end
  end.

End Signals.

(** ** socket.c *)

Module Socket.

Inductive socket_error_t :=
  | SOCKET_OK
  | SOCKET_ERROR_SETSOCKOPT
  | SOCKET_ERROR_INVALID_PARAM
  | SOCKET_ERROR_BPF.

#[global] Instance socket_error_eq_dec : EqDecision socket_error_t.
Proof. solve_decision. Defined.

(** [socket_option_t]: the bits of [socket_config_t.options]. *)
Definition SOCKET_OPT_BUSY_POLL : Z := Z.shiftl 1 0.
Definition SOCKET_OPT_NODELAY : Z := Z.shiftl 1 1.
Definition SOCKET_OPT_KEEPALIVE : Z := Z.shiftl 1 2.
Definition SOCKET_OPT_REUSEPORT_CBPF : Z := Z.shiftl 1 3.

Record socket_config_t := mk_socket_config {
  options : Z;
  busy_poll_value : Z;
  keepalive_enabled : bool
}.

(** What [setsockopt] is asked to set, with the [int] value passed;
    [SO_ATTACH_REUSEPORT_CBPF] is passed the fixed two-instruction filter
    that returns the number of the CPU. *)
Inductive sockopt :=
  | SO_BUSY_POLL (timeout_us : Z)
  | TCP_NODELAY (flag : Z)
  | SO_KEEPALIVE (flag : Z)
  | SO_ATTACH_REUSEPORT_CBPF.

Inductive event :=
  | Ev_setsockopt (fd : Z) (opt : sockopt) (ret : Z).

Definition ev_fd (e : event) : Z := let 'Ev_setsockopt fd _ _ := e in fd.
Definition ev_opt (e : event) : sockopt := let 'Ev_setsockopt _ o _ := e in o.
Definition ev_ret (e : event) : Z := let 'Ev_setsockopt _ _ r := e in r.

Section Code.

(** The answer of [setsockopt], given the calls made so far. *)
Variable setsockopt_result : list event → Z → sockopt → Z.

Definition setsockopt (fd : Z) (opt : sockopt) (h : list event)
  : Z * list event :=
  let r := setsockopt_result h fd opt in (r, h ++ [Ev_setsockopt fd opt r]).

Definition bool_flag (enabled : bool) : Z := if enabled then 1 else 0.

Definition socket_enable_reuseport_cbpf (socket_fd : Z) (h : list event)
  : socket_error_t * list event :=
  if socket_fd <? 0 then (SOCKET_ERROR_INVALID_PARAM, h)
  else
    let '(r, h) := setsockopt socket_fd SO_ATTACH_REUSEPORT_CBPF h in
    if r =? -1 then (SOCKET_ERROR_BPF, h) else (SOCKET_OK, h).

Definition socket_set_busy_poll (socket_fd timeout_us : Z) (h : list event)
  : socket_error_t * list event :=
  if socket_fd <? 0 then (SOCKET_ERROR_INVALID_PARAM, h)
  else
    let '(r, h) := setsockopt socket_fd (SO_BUSY_POLL timeout_us) h in
    if r =? -1 then (SOCKET_ERROR_SETSOCKOPT, h) else (SOCKET_OK, h).

Definition socket_set_tcp_nodelay (socket_fd : Z) (enabled : bool)
    (h : list event) : socket_error_t * list event :=
  if socket_fd <? 0 then (SOCKET_ERROR_INVALID_PARAM, h)
  else
    let flag := bool_flag enabled in
    let '(r, h) := setsockopt socket_fd (TCP_NODELAY flag) h in
    if r =? -1 then (SOCKET_ERROR_SETSOCKOPT, h) else (SOCKET_OK, h).

Definition socket_set_keepalive (socket_fd : Z) (enabled : bool)
    (h : list event) : socket_error_t * list event :=
  if socket_fd <? 0 then (SOCKET_ERROR_INVALID_PARAM, h)
  else
    let flag := bool_flag enabled in
    let '(r, h) := setsockopt socket_fd (SO_KEEPALIVE flag) h in
    if r =? -1 then (SOCKET_ERROR_SETSOCKOPT, h) else (SOCKET_OK, h).

(** [config->options & flag] as a condition. *)
Definition has_option (c : socket_config_t) (flag : Z) : bool :=
  negb (Z.land (options c) flag =? 0).

(** [if (requested) { err = set(...); if (err != SOCKET_OK) result = err; }] *)
Definition apply_if (requested : bool)
    (set : list event → socket_error_t * list event)
    (result : socket_error_t) (h : list event) : socket_error_t * list event :=
  if requested then
    let '(err, h) := set h in
    if negb (bool_decide (err = SOCKET_OK)) then (err, h) else (result, h)
  else (result, h).

Definition socket_apply_optimizations (socket_fd : Z)
    (config : option socket_config_t) (h : list event)
  : socket_error_t * list event :=
  match config with
  | None => (SOCKET_ERROR_INVALID_PARAM, h)
  | Some c =>
    if socket_fd <? 0 then (SOCKET_ERROR_INVALID_PARAM, h)
    else
      let result := SOCKET_OK in
      (* Apply busy poll if requested *)
      let '(result, h) :=
        apply_if (has_option c SOCKET_OPT_BUSY_POLL)
          (socket_set_busy_poll socket_fd (busy_poll_value c)) result h in
      (* Apply TCP_NODELAY if requested *)
      let '(result, h) :=
        apply_if (has_option c SOCKET_OPT_NODELAY)
          (socket_set_tcp_nodelay socket_fd true) result h in
      (* Apply keepalive setting if requested *)
      let '(result, h) :=
        apply_if (has_option c SOCKET_OPT_KEEPALIVE)
          (socket_set_keepalive socket_fd (keepalive_enabled c)) result h in
      (* Apply CPU-aware load balancing if requested *)
      let '(result, h) :=
        apply_if (has_option c SOCKET_OPT_REUSEPORT_CBPF)
          (socket_enable_reuseport_cbpf socket_fd) result h in
      (result, h)
  end.

End Code.

(** *** Predicates on histories *)

(** The options a configuration asks for, in the order of the bits. *)
Definition requested (c : socket_config_t) : list sockopt :=
  (if Z.testbit (options c) 0 then [SO_BUSY_POLL (busy_poll_value c)] else [])
  ++ (if Z.testbit (options c) 1 then [TCP_NODELAY 1] else [])
  ++ (if Z.testbit (options c) 2
      then [SO_KEEPALIVE (if keepalive_enabled c then 1 else 0)] else [])
  ++ (if Z.testbit (options c) 3 then [SO_ATTACH_REUSEPORT_CBPF] else []).

(** The error reported for a failed [setsockopt] of an option. *)
Definition error_of (o : sockopt) : socket_error_t :=
  match o with
  | SO_ATTACH_REUSEPORT_CBPF => SOCKET_ERROR_BPF
  | _ => SOCKET_ERROR_SETSOCKOPT
  end.

(** The error of the last failed call of a history, [result] if none failed. *)
Definition outcome (result : socket_error_t) (t : list event) : socket_error_t :=
  foldl (λ acc e, if ev_ret e =? -1 then error_of (ev_opt e) else acc) result t.

(** The call of [setsockopt] on [fd] for option [o] after history [h]. *)
Definition attempt (setsockopt_result : list event → Z → sockopt → Z)
    (h : list event) (fd : Z) (o : sockopt) : event :=
  Ev_setsockopt fd o (setsockopt_result h fd o).

(** *** Sample environments *)

(** An environment that refuses [SO_BUSY_POLL] (as for a process without
    CAP_NET_ADMIN) and accepts everything else. *)
Definition busy_poll_refused (h : list event) (fd : Z) (o : sockopt) : Z :=
  match o with SO_BUSY_POLL _ => -1 | _ => 0 end.

End Socket.

(** ** http_server.c and http_response.c *)

Module Http.

Import String.

Local Open Scope string_scope.
Local Open Scope Z_scope.

(** The characters that cannot be written inside a literal. *)
Definition dquote : string := String (Ascii.ascii_of_nat 34) "".
Definition CRLF : string :=
  String (Ascii.ascii_of_nat 13) (String (Ascii.ascii_of_nat 10) "").

Definition strlen (text : string) : Z := Z.of_nat (length text).

(** What [%zu] prints. *)
Definition format_zu (n : Z) : string :=
  DecimalString.NilZero.string_of_uint (N.to_uint (Z.to_N n)).

(** *** http_response.c *)

Inductive http_response_error_t :=
  | HTTP_RESPONSE_OK
  | HTTP_RESPONSE_ERROR_INVALID_PARAM
  | HTTP_RESPONSE_ERROR_MEMORY
  | HTTP_RESPONSE_ERROR_BUFFER_OVERFLOW.

(** [http_status_t] and [content_type_t] are enumerations, so any integer
    can be passed; the functions below test for the values they know. *)
Definition HTTP_STATUS_OK : Z := 200.
Definition HTTP_STATUS_NOT_FOUND : Z := 404.
Definition HTTP_STATUS_INTERNAL_ERROR : Z := 500.

Definition CONTENT_TYPE_TEXT_PLAIN : Z := 0.
Definition CONTENT_TYPE_APPLICATION_JSON : Z := 1.

Record http_response_config_t := mk_http_response_config {
  status_code : Z;
  content_type : Z;
  body : option string;
  body_length : Z;
  include_date_header : bool
}.

(** [buffer] is the bytes of the memory [buffer->buffer] points to. *)
Record http_response_buffer_t := mk_http_response_buffer {
  buffer : string;
  size : Z;
  used : Z
}.

(** [sizeof(date_header)]. *)
Definition sizeof_date_header : Z := 38.

(** [type] is compared as an unsigned number with the length of the
    table, so a negative value is out of range as well. *)
Definition http_response_content_type_string (type : Z) : option string :=
  if (type <? 0) || (2 <=? type) then None
  else if type =? CONTENT_TYPE_TEXT_PLAIN then Some "text/plain"
  else Some "application/json".

Definition http_response_status_string (status : Z) : option string :=
  if status =? HTTP_STATUS_OK then Some ("HTTP/1.1 200 OK" ++ CRLF)
  else if status =? HTTP_STATUS_NOT_FOUND then Some ("HTTP/1.1 404 Not Found" ++ CRLF)
  else if status =? HTTP_STATUS_INTERNAL_ERROR
    then Some ("HTTP/1.1 500 Internal Server Error" ++ CRLF)
  else None.

Definition http_response_calculate_size (config : option http_response_config_t)
  : Z :=
  match config with
  | None => 0
  | Some c =>
    let size := 0 in
    (* Status line *)
    match http_response_status_string (status_code c) with
    | None => 0
    | Some status_str =>
      let size := size + strlen status_str in
      (* Server header *)
      let size := size + strlen ("Server: L" ++ CRLF) in
      (* Date header (if requested) *)
      let size := if include_date_header c then size + (sizeof_date_header - 1)
                  else size in
      (* Content-Type header *)
      let size := size + strlen "Content-Type: " in
      match http_response_content_type_string (content_type c) with
      | None => 0
      | Some content_type_str =>
        let size := size + strlen content_type_str in
        let size := size + strlen CRLF in
        (* Content-Length header *)
        let size := size + strlen "Content-Length: " in
        (* Max content length is 10 digits for uint32_t max *)
        let size := size + 10 in
        let size := size + strlen CRLF in
        (* Header separator *)
        let size := size + strlen CRLF in
        (* Body *)
        size + body_length c
      end
    end
  end.

(** The memory after [written] has been copied to its start. *)
Definition overlay (written memory : string) : string :=
  written ++ substring (length written) (length memory - length written) memory.

(** [memcpy(ptr, piece, len); ptr += len; remaining -= len;] on the text
    written so far and the room left. *)
Definition copy (piece : string) (st : string * Z) : string * Z :=
  (st.1 ++ piece, st.2 - strlen piece).

(** [date] is the text of the segment [http_date(0)] returns.  The result
    is [None] where the C code leaves defined behaviour: when the date
    does not fit into [date_header], or when [body_length] bytes are read
    from a shorter [body]. *)
Definition http_response_build (buf : option http_response_buffer_t)
    (config : option http_response_config_t) (date : string)
  : option (http_response_error_t * option http_response_buffer_t) :=
  match buf, config with
  | Some b, Some c =>
    if 0 <? used b
    then Some (HTTP_RESPONSE_ERROR_INVALID_PARAM, Some b) (* Buffer not reset *)
    else
      let st := ("", size b) in
      let overflow (st : string * Z) :=
        Some (HTTP_RESPONSE_ERROR_BUFFER_OVERFLOW,
              Some (mk_http_response_buffer (overlay st.1 (buffer b)) (size b) (used b))) in
      let invalid (st : string * Z) :=
        Some (HTTP_RESPONSE_ERROR_INVALID_PARAM,
              Some (mk_http_response_buffer (overlay st.1 (buffer b)) (size b) (used b))) in
      (* Status line *)
      match http_response_status_string (status_code c) with
      | None => invalid st
      | Some status_str =>
        if st.2 <=? strlen status_str then overflow st
        else
          let st := copy status_str st in
          (* Server header *)
          let server_str := "Server: L" ++ CRLF in
          if st.2 <=? strlen server_str then overflow st
          else
            let st := copy server_str st in
            (* Date header (if requested) *)
            let dated :=
              if include_date_header c then
                if sizeof_date_header <? 6 + strlen date + 3 then None
                else
                  let date_header := "Date: " ++ date ++ CRLF in
                  if st.2 <=? strlen date_header then Some (inl st)
                  else Some (inr (copy date_header st))
              else Some (inr st) in
            match dated with
            | None => None
            | Some (inl st) => overflow st
            | Some (inr st) =>
              (* Content-Type header *)
              match http_response_content_type_string (content_type c) with
              | None => invalid st
              | Some content_type_str =>
                let content_type_prefix := "Content-Type: " in
                if st.2 <=? strlen content_type_prefix + strlen content_type_str + 2
                then overflow st
                else
                  let st := copy content_type_prefix st in
                  let st := copy content_type_str st in
                  let st := copy CRLF st in
                  (* Content-Length header *)
                  let content_length_prefix := "Content-Length: " in
                  (* Convert body length to string *)
                  let length_str := format_zu (body_length c) in
                  if 16 <=? strlen length_str then invalid st
                  else if st.2 <=? strlen content_length_prefix + strlen length_str + 2
                  then overflow st
                  else
                    let st := copy content_length_prefix st in
                    let st := copy length_str st in
                    let st := copy CRLF st in
                    (* Header separator *)
                    if st.2 <=? 2 then overflow st
                    else
                      let st := copy CRLF st in
                      (* Body *)
                      match body c with
                      | Some text =>
                        if 0 <? body_length c then
                          if st.2 <=? body_length c then overflow st
                          else if strlen text <? body_length c then None
                          else
                            let st := copy (substring 0 (Z.to_nat (body_length c)) text)
                                        st in
                            Some (HTTP_RESPONSE_OK,
                                  Some (mk_http_response_buffer (overlay st.1 (buffer b))
                                          (size b) (size b - st.2)))
                        else
                          Some (HTTP_RESPONSE_OK,
                                Some (mk_http_response_buffer (overlay st.1 (buffer b))
                                        (size b) (size b - st.2)))
                      | None =>
                        Some (HTTP_RESPONSE_OK,
                              Some (mk_http_response_buffer (overlay st.1 (buffer b))
                                      (size b) (size b - st.2)))
                      end
              end
            end
      end
  | _, _ => Some (HTTP_RESPONSE_ERROR_INVALID_PARAM, buf)
  end.

(** [buffer_ptr] is the memory handed over, given by what it holds. *)
Definition http_response_buffer_init (buf : option http_response_buffer_t)
    (buffer_ptr : option string) (buffer_size : Z)
  : http_response_error_t * option http_response_buffer_t :=
  match buf, buffer_ptr with
  | Some _, Some memory =>
    if buffer_size =? 0 then (HTTP_RESPONSE_ERROR_INVALID_PARAM, buf)
    else (HTTP_RESPONSE_OK, Some (mk_http_response_buffer memory buffer_size 0))
  | _, _ => (HTTP_RESPONSE_ERROR_INVALID_PARAM, buf)
  end.

Definition http_response_buffer_reset (buf : option http_response_buffer_t)
  : option http_response_buffer_t :=
  match buf with
  | Some b => Some (mk_http_response_buffer (buffer b) (size b) 0)
  | None => None
  end.

(** *** http_server.c *)

Inductive http_server_error_t :=
  | HTTP_SERVER_OK
  | HTTP_SERVER_ERROR_INVALID_PARAM
  | HTTP_SERVER_ERROR_MEMORY
  | HTTP_SERVER_ERROR_RESPONSE_BUILD.

Inductive http_route_t :=
  | ROUTE_PLAINTEXT
  | ROUTE_JSON
  | ROUTE_UNKNOWN.

Record http_server_config_t := mk_http_server_config {
  plaintext_response : option string;
  json_message : option string;
  enable_date_headers : bool
}.

(** [json_buffer] is the C string the array [char json_buffer[4096]]
    holds. *)
Record http_server_t := mk_http_server {
  config : http_server_config_t;
  json_buffer : string;
  json_buffer_size : Z
}.

Definition sizeof_json_buffer : Z := 4096.

(** What [memset] leaves. *)
Definition zero_server : http_server_t :=
  mk_http_server (mk_http_server_config None None false) "" 0.

Definition http_server_create (server : option http_server_t)
    (config : option http_server_config_t)
  : http_server_error_t * option http_server_t :=
  match server, config with
  | Some _, Some c =>
    (* Copy configuration *)
    let server := mk_http_server c (json_buffer zero_server)
                    (json_buffer_size zero_server) in
    (* Prepare JSON buffer *)
    match json_message c with
    | Some message =>
      let text := "{" ++ dquote ++ "message" ++ dquote ++ ":"
                  ++ dquote ++ message ++ dquote ++ "}" in
      let written := strlen text in
      let server :=
        mk_http_server c (substring 0 (Z.to_nat (sizeof_json_buffer - 1)) text)
          (json_buffer_size server) in
      if (written <? 0) || (sizeof_json_buffer <=? written)
      then (HTTP_SERVER_ERROR_MEMORY, Some server)
      else (HTTP_SERVER_OK,
            Some (mk_http_server c (json_buffer server) written))
    | None => (HTTP_SERVER_OK, Some server)
    end
  | _, _ => (HTTP_SERVER_ERROR_INVALID_PARAM, server)
  end.

Definition http_server_destroy (server : option http_server_t)
  : option http_server_t :=
  match server with
  | Some _ => Some zero_server
  | None => None
  end.

Definition http_server_generate_response (server : option http_server_t)
    (route : http_route_t) (response_config : option http_response_config_t)
  : http_server_error_t * option http_response_config_t :=
  match server, response_config with
  | Some s, Some r =>
    (* Initialize with defaults *)
    let r := mk_http_response_config HTTP_STATUS_OK (content_type r) (body r)
               (body_length r) (enable_date_headers (config s)) in
    match route with
    | ROUTE_PLAINTEXT =>
      (HTTP_SERVER_OK,
       Some (mk_http_response_config (status_code r) CONTENT_TYPE_TEXT_PLAIN
               (plaintext_response (config s))
               (match plaintext_response (config s) with
                | Some text => strlen text
                | None => 0
                end)
               (include_date_header r)))
    | ROUTE_JSON =>
      (HTTP_SERVER_OK,
       Some (mk_http_response_config (status_code r) CONTENT_TYPE_APPLICATION_JSON
               (Some (json_buffer s)) (json_buffer_size s)
               (include_date_header r)))
    | ROUTE_UNKNOWN =>
      (HTTP_SERVER_OK,
       Some (mk_http_response_config HTTP_STATUS_NOT_FOUND CONTENT_TYPE_TEXT_PLAIN
               (Some "Not Found") (strlen "Not Found")
               (include_date_header r)))
    end
  | _, _ => (HTTP_SERVER_ERROR_INVALID_PARAM, response_config)
  end.

(** *** The response as a text *)

(** The bytes of the body that go into the response. *)
Definition body_bytes (c : http_response_config_t) : string :=
  match body c with
  | Some text =>
    if 0 <? body_length c then substring 0 (Z.to_nat (body_length c)) text else ""
  | None => ""
  end.

(** The response a configuration describes, for a known status and a
    known content type. *)
Definition rendered (status_line content_type_name date : string)
    (c : http_response_config_t) : string :=
  status_line
  ++ ("Server: L" ++ CRLF)
  ++ (if include_date_header c then "Date: " ++ date ++ CRLF else "")
  ++ "Content-Type: " ++ content_type_name ++ CRLF
  ++ "Content-Length: " ++ format_zu (body_length c) ++ CRLF
  ++ CRLF
  ++ body_bytes c.

(** *** Samples *)

(** The date [http_date] gives for the epoch. *)
Definition epoch_date : string := "Thu, 01 Jan 1970 00:00:00 GMT".

Definition hello_config : http_server_config_t :=
  mk_http_server_config (Some "Hello, World!") (Some "Hello, World!") true.

Definition hello_response : http_response_config_t :=
  mk_http_response_config HTTP_STATUS_OK CONTENT_TYPE_TEXT_PLAIN
    (Some "Hello, World!") 13 true.

(** A reset buffer of 256 zero bytes. *)
Definition fresh_buffer : http_response_buffer_t :=
  mk_http_response_buffer "" 256 0.

End Http.

(** ** server_infrastructure.c *)

Module Server.

Import String.

Inductive log_level_t :=
  | LOG_LEVEL_ERROR
  | LOG_LEVEL_WARN
  | LOG_LEVEL_INFO
  | LOG_LEVEL_DEBUG.

(** [output] is a [FILE *]: [None] is NULL. *)
Record log_config_t := mk_log_config {
  level : log_level_t;
  output : option nat;
  timestamps : bool;
  colors : bool;
  pid : bool;
  tid : bool
}.

Record server_config_t := mk_server_config {
  port : Z;
  plaintext_response : option string;
  json_message : option string;
  enable_date_headers : bool;
  enable_socket_optimizations : bool;
  socket_config : Socket.socket_config_t;
  worker_config : Process.worker_config_t;
  log_config : log_config_t;
  signal_config : Signals.signal_config_t
}.

(** [online] and [garbage] are passed on to [system_get_cpu_info];
    [cpu_info] is the content of the uninitialised local the function
    hands to it.  [log_config] has no initialiser, so it is zero. *)
Definition server_infrastructure_default_config (os : Process.os_t)
    (online : option (nat → bool)) (garbage : nat → Z)
    (cpu_info : Process.system_cpu_info_t) : Process.M server_config_t :=
  Process.bind (Process.system_get_cpu_info os (Some cpu_info) online garbage)
    (λ '(sys_err, info),
      let cpu_info := default cpu_info info in
      let worker_count := 1 in (* Default fallback *)
      let cpu_ids := None in
      let '(worker_count, cpu_ids) :=
        if bool_decide (sys_err = Process.SYSTEM_OK)
           && (0 <? Process.count cpu_info)
        then (Process.count cpu_info, Process.info_cpu_ids cpu_info)
        else (worker_count, cpu_ids) in
      Process.ret
        {| port := 2342;
           plaintext_response := Some "Hello, World!"%string;
           json_message := Some "Hello, World!"%string;
           enable_date_headers := true;
           enable_socket_optimizations := false;
           socket_config :=
             Socket.mk_socket_config 0 (* No optimizations by default *) 50 false;
           worker_config := Process.mk_worker_config worker_count cpu_ids true;
           log_config := mk_log_config LOG_LEVEL_ERROR None false false false false;
           signal_config := Signals.signal_manager_default_config |}).

Inductive server_infra_error_t :=
  | SERVER_INFRA_OK
  | SERVER_INFRA_ERROR_INIT
  | SERVER_INFRA_ERROR_CONFIG
  | SERVER_INFRA_ERROR_RESOURCE
  | SERVER_INFRA_ERROR_STARTUP.

(** The [signal_manager] field is reached through its address by the
    signal handler, so it lives in the memory of the signal model, at the
    location of the field. *)
Record server_infrastructure_t := mk_server_infrastructure {
  config : server_config_t;
  http_server : Http.http_server_t;
  worker_manager : Process.worker_manager_t;
  initialized : bool
}.

Inductive log_msg :=
  | Msg_infrastructure_initialized.

(** The process as this file sees it: what process.c and system.c have
    asked of the operating system (with the flag of system.c), the signal
    state of signals.c and the lines this file has logged. *)
Record machine := mk_machine {
  platform : Process.world;
  signal_state : Signals.process;
  logged : list log_msg
}.

(** What [memset] leaves. *)
Definition zero_config : server_config_t :=
  {| port := 0;
     plaintext_response := None;
     json_message := None;
     enable_date_headers := false;
     enable_socket_optimizations := false;
     socket_config := Socket.mk_socket_config 0 0 false;
     worker_config := Process.mk_worker_config 0 None false;
     log_config := mk_log_config LOG_LEVEL_ERROR None false false false false;
     signal_config := Signals.mk_signal_config false false false false false false |}.

Definition zero_infrastructure : server_infrastructure_t :=
  mk_server_infrastructure zero_config Http.zero_server Process.zero_manager false.

Section Code.

Context {numbers : Signals.signal_numbers}.

Variable os : Process.os_t.

Variable sigaction_result : list Signals.event → Z → Signals.disposition → Z.

(** [signal_manager] is the address of [infra->signal_manager]. *)
Definition server_infrastructure_create (infra : option server_infrastructure_t)
    (signal_manager : Signals.loc) (cfg : option server_config_t) (st : machine)
  : (server_infra_error_t * option server_infrastructure_t) * machine :=
  match infra, cfg with
  | Some _, Some c =>
    let st := mk_machine (platform st)
                (Signals.store signal_manager Signals.zero_manager (signal_state st))
                (logged st) in
    (* Copy configuration *)
    let infra := mk_server_infrastructure c Http.zero_server Process.zero_manager
                   false in
    (* Initialize HTTP server *)
    let http_config :=
      Http.mk_http_server_config (plaintext_response c) (json_message c)
        (enable_date_headers c) in
    let '(http_err, server) :=
      Http.http_server_create (Some (http_server infra)) (Some http_config) in
    let infra := mk_server_infrastructure c (default (http_server infra) server)
                   (worker_manager infra) false in
    match http_err with
    | Http.HTTP_SERVER_OK =>
      (* Initialize worker manager *)
      let '((_, manager), w) :=
        Process.worker_manager_init os (Some (worker_manager infra))
          (Some (worker_config c)) (platform st) in
      let infra := mk_server_infrastructure c (http_server infra)
                     (default (worker_manager infra) manager) false in
      (* [signal(SIGPIPE, SIG_IGN)], made by [system_init] when it finds the
         module uninitialised, is a change of disposition as well *)
      let s := if negb (Process.system_initialized (platform st))
                  && Process.system_initialized w
               then Signals.install Signals.SIGPIPE Signals.SIG_IGN (signal_state st)
               else signal_state st in
      let st := mk_machine w s (logged st) in
      (* Initialize signal manager *)
      let '(sig_err, s) :=
        Signals.signal_manager_init sigaction_result (Some signal_manager)
          (Some (signal_config c)) (signal_state st) in
      let st := mk_machine (platform st) s (logged st) in
      match sig_err with
      | Signals.SIGNAL_OK =>
        ((SERVER_INFRA_OK,
          Some (mk_server_infrastructure c (http_server infra)
                  (worker_manager infra) true)),
         mk_machine (platform st) (signal_state st)
           (logged st ++ [Msg_infrastructure_initialized]))
      | _ =>
        let '(manager, w) :=
          Process.worker_manager_cleanup (Some (worker_manager infra)) (platform st) in
        let server := Http.http_server_destroy (Some (http_server infra)) in
        ((SERVER_INFRA_ERROR_INIT,
          Some (mk_server_infrastructure c (default (http_server infra) server)
                  (default (worker_manager infra) manager) false)),
         mk_machine w (signal_state st) (logged st))
      end
    | _ => ((SERVER_INFRA_ERROR_INIT, Some infra), st)
    end
  | _, _ => ((SERVER_INFRA_ERROR_CONFIG, infra), st)
  end.

Definition server_infrastructure_destroy (infra : option server_infrastructure_t)
    (signal_manager : Signals.loc) (st : machine)
  : option server_infrastructure_t * machine :=
  match infra with
  | None => (None, st)
  | Some i =>
    let st :=
      if initialized i then
        let s := Signals.signal_manager_cleanup sigaction_result
                   (Some signal_manager) (signal_state st) in
        let '(_, w) :=
          Process.worker_manager_cleanup (Some (worker_manager i)) (platform st) in
        mk_machine w s (logged st)
      else st in
    (Some zero_infrastructure,
     mk_machine (platform st)
       (Signals.store signal_manager Signals.zero_manager (signal_state st))
       (logged st))
  end.

End Code.

(** The JSON text of a configuration fits into the server's buffer. *)
Definition json_fits (c : server_config_t) : Prop :=
  match json_message c with
  | Some message => Http.strlen message ≤ 4081
  | None => True
  end.

(** A process in which nothing has happened yet. *)
Definition fresh_machine : machine :=
  mk_machine Process.fresh_world Signals.initial_process [].

(** The configuration [server_infrastructure_default_config] falls back
    to when the CPUs cannot be listed. *)
Definition fallback_config : server_config_t :=
  {| port := 2342;
     plaintext_response := Some "Hello, World!"%string;
     json_message := Some "Hello, World!"%string;
     enable_date_headers := true;
     enable_socket_optimizations := false;
     socket_config := Socket.mk_socket_config 0 50 false;
     worker_config := Process.mk_worker_config 1 None true;
     log_config := mk_log_config LOG_LEVEL_ERROR None false false false false;
     signal_config := Signals.signal_manager_default_config |}.

(** A configuration for two workers on the CPUs 2 and 3. *)
Definition config_for_two : server_config_t :=
  {| port := 2342;
     plaintext_response := Some "Hello, World!"%string;
     json_message := Some "Hello, World!"%string;
     enable_date_headers := true;
     enable_socket_optimizations := false;
     socket_config := Socket.mk_socket_config 0 50 false;
     worker_config := Process.config_of_two;
     log_config := mk_log_config LOG_LEVEL_ERROR None false false false false;
     signal_config := Signals.signal_manager_default_config |}.

End Server.

(** ** Properties of process.c *)

Module Process_facts.

Import Process.

(** *** Two runs of the whole fork loop, evaluated *)

Example parent_run_of_two :
  worker_manager_fork_workers (os_fine 0) (Some parent_of_two) fresh_world
  = ((PROCESS_OK,
      Some (mk_worker_manager (mk_worker_config 2 (Some [2; 3]) true)
              (Some [mk_worker_context 0 2 (-1) 101; mk_worker_context 1 3 (-1) 106])
              PROCESS_TYPE_PARENT (-1))),
     mk_world false
       [Ev_eventfd 3; Ev_fork 101; Ev_eventfd_read 3 0; Ev_close 3;
        Ev_log_info (Msg_worker_running 0 2 101);
        Ev_eventfd 8; Ev_fork 106; Ev_eventfd_read 8 0; Ev_close 8;
        Ev_log_info (Msg_worker_running 1 3 106);
        Ev_log_info (Msg_running_with 2)]).
Proof. vm_compute. reflexivity. Qed.

Example init_then_fork_as_child :
  let os := mk_os (λ _ _, true) (λ _, 5) (λ _, 0) (λ _ _, 0) (λ _ _, 0)
              (λ _ _, 0) (λ _, 0) in
  let '((_, manager), w) :=
    worker_manager_init os (Some zero_manager)
      (Some (mk_worker_config 2 (Some [2; 3]) true)) fresh_world in
  let '((r, manager), _) := worker_manager_fork_workers os manager w in
  r = PROCESS_OK ∧
  worker_manager_get_type manager = PROCESS_TYPE_WORKER ∧
  worker_manager_get_worker_id manager = 0 ∧
  worker_manager_get_cpu_id manager = 2.
Proof. vm_compute. repeat split; reflexivity. Qed.

(** *** Accessors *)

(** In the worker role [worker_manager_get_worker_id] hands back the stored
    index even when it lies outside the pool. *)
Lemma get_worker_id_ignores_range :
  index_out_of_range stray_worker ∧
  worker_manager_get_worker_id (Some stray_worker) = 5 ∧
  worker_manager_get_worker_id (Some stray_worker) ≠ -1.
Proof.
  unfold index_out_of_range, stray_worker; cbn.
  split; [right; lia | split; [reflexivity | ]].
  intros H; vm_compute in H; discriminate H.
Qed.

(** C9 (as amended).  The accessors are total.  [worker_manager_get_type]
    of a null manager is the parent role.  [worker_manager_get_worker_id]
    is -1 for a null manager and for the parent role, and in the worker
    role it is the stored index as it is, without a range check.
    [worker_manager_get_cpu_id] is -1 for a null manager, for the parent
    role and for a stored index outside [0, worker_count), and in the role
    Worker(i) with i in range it is the CPU recorded in slot i. *)
Theorem accessors_outside_worker_role :
  worker_manager_get_type None = PROCESS_TYPE_PARENT ∧
  worker_manager_get_worker_id None = -1 ∧
  worker_manager_get_cpu_id None = -1 ∧
  ∀ m : worker_manager_t,
    worker_manager_get_type (Some m) = type m ∧
    (type m = PROCESS_TYPE_PARENT →
       worker_manager_get_worker_id (Some m) = -1 ∧
       worker_manager_get_cpu_id (Some m) = -1) ∧
    (type m = PROCESS_TYPE_WORKER →
       worker_manager_get_worker_id (Some m) = current_worker_id m) ∧
    (index_out_of_range m → worker_manager_get_cpu_id (Some m) = -1) ∧
    (∀ i : nat,
       type m = PROCESS_TYPE_WORKER →
       current_worker_id m = Z.of_nat i →
       Z.of_nat i < worker_count (config m) →
       worker_manager_get_cpu_id (Some m) = cpu_id (slot m i)).
Proof.
  do 3 (split; [reflexivity|]). intros m.
  split; [reflexivity|]. split; [|split; [|split]].
  - intros Hp; cbn; rewrite Hp; split; reflexivity.
  - intros Hw; cbn; now rewrite Hw.
  - intros Hr; cbn. destruct (type m); cbn; [reflexivity|].
    destruct Hr as [Hr|Hr].
    + apply Z.ltb_lt in Hr. now rewrite Hr.
    + apply Z.leb_le in Hr. rewrite Hr. now rewrite orb_true_r.
  - intros i Hw Hi Hlt; cbn. rewrite Hw, Hi; cbn.
    assert ((Z.of_nat i <? 0) = false) as -> by (apply Z.ltb_ge; lia).
    assert ((worker_count (config m) <=? Z.of_nat i) = false) as ->
      by (apply Z.leb_gt; lia).
    cbn. now rewrite Nat2Z.id.
Qed.

Lemma accessors_outside_worker_role_witness :
  worker_manager_get_worker_id (Some worker_one) = 1 ∧
  worker_manager_get_cpu_id (Some worker_one) = 3 ∧
  worker_manager_get_cpu_id (Some stray_worker) = -1.
Proof.
  destruct accessors_outside_worker_role as (_ & _ & _ & H).
  destruct (H worker_one) as (_ & _ & Hid & _ & Hcpu).
  destruct (H stray_worker) as (_ & _ & _ & Hout & _).
  split; [|split].
  - apply Hid; reflexivity.
  - apply (Hcpu 1%nat); [reflexivity|reflexivity|cbn; lia].
  - apply Hout; right; cbn; lia.
Defined.

(** *** Slots *)

Lemma slot_out_of_range (m : worker_manager_t) (i : nat) :
  (length (default [] (workers m)) ≤ i)%nat → slot m i = zero_context.
Proof.
  intros Hle. unfold slot. rewrite list_lookup_total_alt.
  now rewrite (lookup_ge_None_2 _ _ Hle).
Qed.

Lemma slot_update_slot_ne (i j : nat) f (m : worker_manager_t) :
  i ≠ j → slot (update_slot i f m) j = slot m j.
Proof.
  intros Hne. unfold slot, update_slot; cbn.
  destruct (workers m) as [ws|]; cbn; [|reflexivity].
  now apply list_lookup_total_alter_ne.
Qed.

Lemma slot_update_slot_eq (i : nat) f (m : worker_manager_t) :
  (i < length (default [] (workers m)))%nat →
  slot (update_slot i f m) i = f (slot m i).
Proof.
  intros Hlt. unfold slot, update_slot; cbn.
  destruct (workers m) as [ws|]; cbn in *; [|lia].
  now apply list_lookup_total_alter_eq.
Qed.

Lemma update_slot_length (i : nat) f (m : worker_manager_t) :
  length (default [] (workers (update_slot i f m)))
  = length (default [] (workers m)).
Proof.
  unfold update_slot; cbn. destruct (workers m); cbn; [|reflexivity].
  apply length_alter.
Qed.

Lemma open_slot_in_range (m : worker_manager_t) (i : nat) :
  eventfd (slot m i) ≠ 0 → (i < length (default [] (workers m)))%nat.
Proof.
  intros Hfd. destruct (decide (i < length (default [] (workers m)))%nat) as [|Hge];
    [assumption|].
  rewrite slot_out_of_range in Hfd by lia. now cbn in Hfd.
Qed.

(** *** Initialisation *)

Section Init.

Variable os : os_t.

(** C5.  [worker_manager_init] rejects a configuration whose
    [worker_count] is not positive, or whose CPU-id array is missing, with
    [PROCESS_ERROR_INVALID_PARAM] before anything else happens: the manager
    is left as it was and no call (allocation, fork, signal setup) is made;
    a null manager or a null configuration is rejected in the same way.
    When it returns [PROCESS_OK] the manager holds the configured
    [worker_count] and [enable_affinity], a newly allocated copy of the
    first [worker_count] CPU ids, a newly allocated zeroed array of
    [worker_count] slots, and the parent role; the calls made are at most
    the one-time system setup and these two allocations. *)
Theorem init_validates_and_copies (m : worker_manager_t) (c : worker_config_t)
    (w : world) :
  (∀ manager cfg, manager = None ∨ cfg = None →
     worker_manager_init os manager cfg w
     = ((PROCESS_ERROR_INVALID_PARAM, manager), w)) ∧
  (worker_count c ≤ 0 ∨ cpu_ids c = None →
     worker_manager_init os (Some m) (Some c) w
     = ((PROCESS_ERROR_INVALID_PARAM, Some m), w)) ∧
  (∀ manager' w',
     worker_manager_init os (Some m) (Some c) w = ((PROCESS_OK, manager'), w') →
     0 < worker_count c ∧
     ∃ src : list Z,
       cpu_ids c = Some src ∧
       manager' = Some (mk_worker_manager
         (mk_worker_config (worker_count c)
            (Some (take (Z.to_nat (worker_count c)) src)) (enable_affinity c))
         (Some (replicate (Z.to_nat (worker_count c)) zero_context))
         PROCESS_TYPE_PARENT (-1)) ∧
       ∃ setup, (setup = [] ∨ setup = [Ev_signal_ignore_sigpipe]) ∧
         trace w' = trace w ++ setup ++
           [Ev_malloc (worker_count c * sizeof_int) true;
            Ev_malloc (worker_count c * sizeof_worker_context) true]).
Proof.
  unfold worker_manager_init. split; [|split].
  - intros manager cfg [-> | ->]; [reflexivity|]. now destruct manager.
  - intros [Hle|Hnull].
    + apply Z.leb_le in Hle. now rewrite Hle.
    + rewrite Hnull; cbn. now rewrite orb_true_r.
  - intros manager' w'.
    destruct (Z.leb_spec (worker_count c) 0) as [Hle|Hpos]; cbn;
      [unfold ret; discriminate|].
    destruct (cpu_ids c) as [src|] eqn:Hsrc; cbn; [|unfold ret; discriminate].
    unfold bind at 1.
    assert (∃ setup w1, system_init w = (SYSTEM_OK, w1) ∧
              (setup = [] ∨ setup = [Ev_signal_ignore_sigpipe]) ∧
              trace w1 = trace w ++ setup) as (setup & w1 & -> & Hsetup & Htr1).
    { unfold system_init. destruct (system_initialized w).
      - exists [], w. rewrite app_nil_r. auto.
      - eexists [_], _. split; [reflexivity|]. cbn. auto. }
    cbn. rewrite bool_decide_eq_true_2 by reflexivity. cbn. unfold system_malloc.
    assert ((worker_count c * sizeof_int =? 0) = false) as ->
      by (apply Z.eqb_neq; unfold sizeof_int; lia).
    assert ((worker_count c * sizeof_worker_context =? 0) = false) as ->
      by (apply Z.eqb_neq; unfold sizeof_worker_context; lia).
    unfold bind, syscall, system_free, emit, ret; cbn.
    destruct (os_malloc os (trace w1) (worker_count c * sizeof_int)) eqn:Hp; cbn;
      [|discriminate].
    destruct (os_malloc os _ (worker_count c * sizeof_worker_context)) eqn:Hq; cbn;
      [|discriminate].
    intros [= <- <-]. split; [assumption|].
    exists src. split; [reflexivity|]. split; [reflexivity|].
    exists setup. split; [assumption|]. cbn.
    rewrite Htr1, <- !app_assoc. reflexivity.
Qed.

End Init.

Lemma init_validates_and_copies_witness :
  worker_manager_init (os_fine 0) (Some zero_manager) (Some config_of_none) fresh_world
    = ((PROCESS_ERROR_INVALID_PARAM, Some zero_manager), fresh_world) ∧
  ∃ m' w',
    worker_manager_init (os_fine 0) (Some zero_manager) (Some config_of_two) fresh_world
      = ((PROCESS_OK, Some m'), w') ∧
    cpu_ids (config m') = Some [2; 3] ∧
    workers m' = Some [zero_context; zero_context] ∧
    type m' = PROCESS_TYPE_PARENT.
Proof.
  split.
  - apply (proj1 (proj2 (init_validates_and_copies (os_fine 0) zero_manager
                            config_of_none fresh_world))).
    left. cbn. lia.
  - destruct (worker_manager_init (os_fine 0) (Some zero_manager) (Some config_of_two)
                fresh_world) as [[r mo] w'] eqn:Hrun.
    assert (r = PROCESS_OK) as -> by (vm_compute in Hrun; congruence).
    destruct (init_validates_and_copies (os_fine 0) zero_manager config_of_two
                fresh_world) as (_ & _ & Hok).
    destruct (Hok _ _ Hrun) as (_ & src & Hsrc & -> & _).
    injection Hsrc as <-.
    eexists _, w'. split; [reflexivity|]. cbn. auto.
Defined.

(** *** Signalling readiness *)

Section Signal_ready.

Variable os : os_t.

(** What a call of [worker_manager_signal_ready] finds: the manager is in
    the role Worker(i), i is inside the pool and slot i holds an open
    descriptor. *)
Lemma signal_ready_cases (manager : option worker_manager_t) (w : world) :
  (∃ (m : worker_manager_t) (i : nat),
     manager = Some m ∧ type m = PROCESS_TYPE_WORKER ∧
     current_worker_id m = Z.of_nat i ∧ Z.of_nat i < worker_count (config m) ∧
     0 < eventfd (slot m i) ∧
     let efd := eventfd (slot m i) in
     let ret_write := os_eventfd_write os (trace w) efd in
     worker_manager_signal_ready os manager w
     = if ret_write =? -1
       then ((PROCESS_ERROR_EVENTFD, manager),
             mk_world (system_initialized w)
               (trace w ++ [Ev_eventfd_write efd ret_write]))
       else ((PROCESS_OK, Some (update_slot i (set_eventfd (-1)) m)),
             mk_world (system_initialized w)
               (trace w ++ [Ev_eventfd_write efd ret_write; Ev_close efd]))) ∨
  ((∀ w0, worker_manager_signal_ready os manager w0
          = ((PROCESS_ERROR_INVALID_PARAM, manager), w0)) ∧
   ¬ ∃ (m : worker_manager_t) (i : nat),
       manager = Some m ∧ type m = PROCESS_TYPE_WORKER ∧
       current_worker_id m = Z.of_nat i ∧ Z.of_nat i < worker_count (config m) ∧
       0 < eventfd (slot m i)).
Proof.
  unfold worker_manager_signal_ready. destruct manager as [m|].
  2:{ right. split; [reflexivity|]. intros (m & i & [=] & _). }
  case_bool_decide as Ht; cbn [negb].
  2:{ right. split; [reflexivity|]. intros (m0 & i & [= <-] & Hw & _). done. }
  destruct (Z.ltb_spec (current_worker_id m) 0) as [Hneg|Hnn]; cbn [orb].
  { right. split; [reflexivity|]. intros (m0 & i & [= <-] & _ & Hi & _). lia. }
  destruct (Z.leb_spec (worker_count (config m)) (current_worker_id m)) as [Hge|Hlt].
  { right. split; [reflexivity|]. intros (m0 & i & [= <-] & _ & Hi & ? & _). lia. }
  set (i := Z.to_nat (current_worker_id m)).
  assert (current_worker_id m = Z.of_nat i) as Hi by (subst i; lia).
  destruct (Z.leb_spec (eventfd (slot m i)) 0) as [Hclosed|Hopen].
  { right. split; [reflexivity|].
    intros (m0 & k & [= <-] & _ & Hk & _ & Hfd).
    assert (k = i) as -> by lia. lia. }
  left. exists m, i. split_and!; try done; try lia.
  cbv zeta. unfold bind, sys_eventfd_write, sys_close, syscall, emit, ret.
  cbn [fst snd trace system_initialized].
  destruct (_ =? -1); [reflexivity|]. cbn. now rewrite <- app_assoc.
Qed.

(** Once the slot of the worker is marked -1, a call fails without a
    system call, whatever has happened in between. *)
Lemma signal_ready_consumed (m : worker_manager_t) (i : nat) :
  type m = PROCESS_TYPE_WORKER →
  current_worker_id m = Z.of_nat i →
  Z.of_nat i < worker_count (config m) →
  0 < eventfd (slot m i) →
  ∀ w,
    worker_manager_signal_ready os (Some (update_slot i (set_eventfd (-1)) m)) w
    = ((PROCESS_ERROR_INVALID_PARAM, Some (update_slot i (set_eventfd (-1)) m)), w).
Proof.
  intros Ht Hi Hrange Hopen w. unfold worker_manager_signal_ready. cbn.
  rewrite bool_decide_eq_true_2 by assumption; cbn.
  destruct (Z.ltb_spec (current_worker_id m) 0); [lia|].
  destruct (Z.leb_spec (worker_count (config m)) (current_worker_id m)); [lia|].
  cbn. rewrite Hi, Nat2Z.id.
  rewrite slot_update_slot_eq by (apply open_slot_in_range; lia).
  reflexivity.
Qed.

Lemma signal_ready_repeatedly_consumed (manager : option worker_manager_t) :
  (∀ w, worker_manager_signal_ready os manager w
        = ((PROCESS_ERROR_INVALID_PARAM, manager), w)) →
  ∀ n w, signal_ready_repeatedly os n manager w = (manager, w).
Proof.
  intros Hconsumed. induction n as [|n IH]; intros w; [reflexivity|].
  cbn [signal_ready_repeatedly]. unfold bind. rewrite Hconsumed. apply IH.
Qed.

Lemma signalled_app (t u : list event) :
  signalled (t ++ u) = signalled t ++ signalled u.
Proof. apply omap_app. Qed.

Lemma signal_ready_repeatedly_once (n : nat) :
  ∀ (manager : option worker_manager_t) (w : world),
    ∃ emitted,
      trace (signal_ready_repeatedly os n manager w).2 = trace w ++ emitted ∧
      (length (signalled emitted) ≤ 1)%nat.
Proof.
  induction n as [|n IH]; intros manager w.
  { exists []. cbn. rewrite app_nil_r. split; [reflexivity|lia]. }
  cbn [signal_ready_repeatedly]. unfold bind.
  destruct (signal_ready_cases manager w)
    as [(m & i & -> & Ht & Hi & Hrange & Hopen & Hrun)|[Hinvalid _]].
  - cbv zeta in Hrun. rewrite Hrun.
    destruct (Z.eqb_spec (os_eventfd_write os (trace w) (eventfd (slot m i))) (-1))
      as [Hfail|Hfine].
    + match goal with |- context [signal_ready_repeatedly os n ?mgr ?w1] =>
        destruct (IH mgr w1) as (emitted & Htr & Hone) end.
      eexists ([_] ++ emitted). cbn [trace] in Htr. rewrite Htr, <- app_assoc.
      split; [reflexivity|]. rewrite signalled_app. cbn. rewrite Hfail. cbn. exact Hone.
    + rewrite signal_ready_repeatedly_consumed
        by (now apply signal_ready_consumed).
      eexists. split; [reflexivity|]. cbn.
      destruct (Z.eqb_spec (os_eventfd_write os (trace w) (eventfd (slot m i))) (-1));
        [done|]. cbn. lia.
  - rewrite Hinvalid. apply IH.
Qed.

(** C4.  [worker_manager_signal_ready] returns [PROCESS_OK] exactly for a
    manager in the role Worker(i), i inside the pool, whose slot i holds an
    open descriptor, when the write to that descriptor succeeds: the call
    then consists of this one successful write and the close of the
    descriptor, and it marks the slot -1, so that any later call on the
    resulting manager returns [PROCESS_ERROR_INVALID_PARAM] and performs
    no system call.  If the write fails, the call returns
    [PROCESS_ERROR_EVENTFD] after the failed write alone, with the manager
    as it was.  Every other call, the one by the parent (or on a null
    manager) among them, returns [PROCESS_ERROR_INVALID_PARAM] and changes
    nothing.  Hence, however often the function is called in a row, the
    channel receives at most one successful write. *)
Theorem signal_ready_once (manager manager' : option worker_manager_t)
    (w w' : world) (r : process_error_t) :
  worker_manager_signal_ready os manager w = ((r, manager'), w') →
  (r = PROCESS_OK →
     ∃ (m : worker_manager_t) (i : nat) (ret_write : Z),
       manager = Some m ∧ type m = PROCESS_TYPE_WORKER ∧
       current_worker_id m = Z.of_nat i ∧ Z.of_nat i < worker_count (config m) ∧
       0 < eventfd (slot m i) ∧
       ret_write = os_eventfd_write os (trace w) (eventfd (slot m i)) ∧
       ret_write ≠ -1 ∧
       trace w' = trace w ++ [Ev_eventfd_write (eventfd (slot m i)) ret_write;
                             Ev_close (eventfd (slot m i))] ∧
       manager' = Some (update_slot i (set_eventfd (-1)) m) ∧
       ∀ w2, worker_manager_signal_ready os manager' w2
             = ((PROCESS_ERROR_INVALID_PARAM, manager'), w2)) ∧
  (r = PROCESS_ERROR_EVENTFD →
     ∃ (m : worker_manager_t) (i : nat),
       manager = Some m ∧ type m = PROCESS_TYPE_WORKER ∧
       current_worker_id m = Z.of_nat i ∧ Z.of_nat i < worker_count (config m) ∧
       0 < eventfd (slot m i) ∧
       os_eventfd_write os (trace w) (eventfd (slot m i)) = -1 ∧
       trace w' = trace w ++ [Ev_eventfd_write (eventfd (slot m i)) (-1)] ∧
       manager' = manager) ∧
  (r ≠ PROCESS_OK → r ≠ PROCESS_ERROR_EVENTFD →
     r = PROCESS_ERROR_INVALID_PARAM ∧ manager' = manager ∧ w' = w) ∧
  (∀ (m : worker_manager_t) (i : nat),
     manager = Some m → type m = PROCESS_TYPE_WORKER →
     current_worker_id m = Z.of_nat i → Z.of_nat i < worker_count (config m) →
     0 < eventfd (slot m i) →
     os_eventfd_write os (trace w) (eventfd (slot m i)) ≠ -1 →
     r = PROCESS_OK) ∧
  (worker_manager_get_type manager = PROCESS_TYPE_PARENT →
     r = PROCESS_ERROR_INVALID_PARAM ∧ manager' = manager ∧ w' = w) ∧
  (∀ n : nat,
     ∃ emitted,
       trace (signal_ready_repeatedly os n manager w).2 = trace w ++ emitted ∧
       (length (signalled emitted) ≤ 1)%nat).
Proof.
  intros Hrun.
  destruct (signal_ready_cases manager w)
    as [(m & i & -> & Ht & Hi & Hrange & Hopen & Hcall)|[Hinvalid Hnot]].
  - cbv zeta in Hcall. rewrite Hcall in Hrun. clear Hcall.
    destruct (Z.eqb_spec (os_eventfd_write os (trace w) (eventfd (slot m i))) (-1))
      as [Hfail|Hfine]; injection Hrun as <- <- <-.
    + split_and!; try done.
      * intros _. exists m, i. rewrite Hfail. split_and!; done.
      * intros m0 k [= <-] _ Hk _ _ Hok. assert (k = i) as -> by lia. done.
      * cbn. rewrite Ht. discriminate.
      * intros n. apply signal_ready_repeatedly_once.
    + split_and!; try done.
      * intros _. exists m, i, (os_eventfd_write os (trace w) (eventfd (slot m i))).
        split_and!; try done. now apply signal_ready_consumed.
      * cbn. rewrite Ht. discriminate.
      * intros n. apply signal_ready_repeatedly_once.
  - rewrite Hinvalid in Hrun. injection Hrun as <- <- <-.
    split_and!; try done.
    + intros m i -> Ht Hi Hrange Hopen _. exfalso. apply Hnot. exists m, i. done.
    + intros n. apply signal_ready_repeatedly_once.
Qed.

End Signal_ready.

(** Worker 1 with its channel on descriptor 7; every system call succeeds. *)
Lemma signal_ready_once_witness :
  ∃ m' w',
    worker_manager_signal_ready (os_fine 0) (Some worker_one) fresh_world
      = ((PROCESS_OK, Some m'), w') ∧
    trace w' = [Ev_eventfd_write 7 0; Ev_close 7] ∧
    worker_manager_signal_ready (os_fine 0) (Some m') w'
      = ((PROCESS_ERROR_INVALID_PARAM, Some m'), w') ∧
    (worker_manager_signal_ready (os_fine 0) (Some parent_of_two) fresh_world).1.1
      = PROCESS_ERROR_INVALID_PARAM.
Proof.
  destruct (worker_manager_signal_ready (os_fine 0) (Some worker_one) fresh_world)
    as [[r mo] w'] eqn:Hrun.
  pose proof (signal_ready_once (os_fine 0) _ _ _ _ _ Hrun) as [Hok _].
  assert (r = PROCESS_OK) as Hr by (vm_compute in Hrun; congruence).
  destruct (Hok Hr)
    as (m & i & rw & Hm & _ & _ & _ & _ & _ & _ & Htr & Hm' & Hagain).
  injection Hm as <-.
  exists (update_slot i (set_eventfd (-1)) worker_one), w'.
  subst mo r. split; [reflexivity|]. split; [|split; [apply Hagain|]].
  - vm_compute in Hrun. injection Hrun as _ <-. reflexivity.
  - destruct (worker_manager_signal_ready (os_fine 0) (Some parent_of_two) fresh_world)
      as [[r2 mo2] w2] eqn:Hrun2.
    apply (signal_ready_once (os_fine 0) _ _ _ _ _ Hrun2). reflexivity.
Defined.

(** *** The worker branch of the fork loop *)

Section Child.

Variable os : os_t.

Lemma free_parent_only_spec (n : nat) :
  ∀ (j : nat) (m m' : worker_manager_t) (w w' : world),
    free_parent_only n j m w = (m', w') →
    config m' = config m ∧ type m' = type m ∧
    current_worker_id m' = current_worker_id m ∧
    system_initialized w' = system_initialized w ∧
    (∀ k, ¬ (j ≤ k < j + n)%nat → slot m' k = slot m k) ∧
    (∀ k, (j ≤ k < j + n)%nat → eventfd (slot m k) ≤ 0 → slot m' k = slot m k) ∧
    ∃ closed,
      trace w' = trace w ++ closed ∧
      Forall (λ e, ∃ k, (j ≤ k < j + n)%nat ∧ 0 < eventfd (slot m k) ∧
                        e = Ev_close (eventfd (slot m k))) closed ∧
      (∀ k, (j ≤ k < j + n)%nat → 0 < eventfd (slot m k) →
         Ev_close (eventfd (slot m k)) ∈ closed ∧ eventfd (slot m' k) = -1).
Proof.
  induction n as [|n IH]; intros j m m' w w'; cbn.
  - unfold ret. intros [= <- <-]. split_and!; try done.
    exists []. rewrite app_nil_r. split_and!; [done|constructor|lia].
  - destruct (Z.ltb_spec 0 (eventfd (slot m j))) as [Hopen|Hclosed].
    + unfold bind, sys_close, emit; cbn. intros Hrun.
      apply IH in Hrun as (Hc & Ht & Hi & Hs & Hout & Hkeep & closed & Htr & Hall & Hin).
      cbn in *.
      assert (∀ k, k ≠ j → slot (update_slot j (set_eventfd (-1)) m) k = slot m k)
        as Hne by (intros; apply slot_update_slot_ne; lia).
      assert (slot (update_slot j (set_eventfd (-1)) m) j = set_eventfd (-1) (slot m j))
        as Heq by (apply slot_update_slot_eq, open_slot_in_range; lia).
      split_and!; try done.
      * intros k Hk. rewrite Hout by lia. apply Hne; lia.
      * intros k Hk Hle.
        assert (k ≠ j) as Hkj by (intros ->; lia).
        rewrite Hkeep; [apply Hne; lia|lia|].
        rewrite Hne by lia. assumption.
      * exists (Ev_close (eventfd (slot m j)) :: closed).
        split; [rewrite Htr, <- app_assoc; reflexivity|]. split.
        -- constructor; [exists j; split_and!; first [lia | done]|].
           eapply Forall_impl; [|exact Hall]. cbn.
           intros e (k & Hk & Hfd & ->). rewrite Hne in * by lia.
           exists k. split_and!; first [lia | done].
        -- intros k Hk Hfd. destruct (decide (k = j)) as [->|Hkj].
           ++ split; [left|]. rewrite Hout by lia. now rewrite Heq.
           ++ destruct (Hin k) as [Hmem Hm']; [lia|rewrite Hne by lia; done|].
              rewrite Hne in Hmem by lia. split; [now right|done].
    + intros Hrun.
      apply IH in Hrun as (Hc & Ht & Hi & Hs & Hout & Hkeep & closed & Htr & Hall & Hin).
      split_and!; try done.
      * intros k Hk. apply Hout; lia.
      * intros k Hk Hle. destruct (decide (k = j)) as [->|Hkj];
          [apply Hout; lia|apply Hkeep; [lia|done]].
      * exists closed. split_and!; [done| |].
        -- eapply Forall_impl; [|exact Hall]. cbn.
           intros e (k & Hk & Hfd & ->). exists k. split_and!; first [lia | done].
        -- intros k Hk Hfd. apply Hin; [|done].
           destruct (decide (k = j)) as [->|Hkj]; lia.
Qed.

Lemma fork_child_spec (i : nat) (efd : Z) (m m' : worker_manager_t)
    (w w' : world) (r : process_error_t) :
  fork_child os i efd m w = ((r, m'), w') →
  let pin := os_sched_setaffinity os (trace w) (cpu_of m i) in
  config m' = config m ∧
  type m' = PROCESS_TYPE_WORKER ∧ current_worker_id m' = Z.of_nat i ∧
  ∃ tail,
    trace w' = trace w ++ tail ∧ Forall (λ e, ¬ spawns e) tail ∧
    if enable_affinity (config m) && (pin =? -1)
    then r = PROCESS_ERROR_INVALID_PARAM ∧
         tail = [Ev_sched_setaffinity (cpu_of m i) pin; Ev_close efd]
    else r = PROCESS_OK ∧
         (enable_affinity (config m) = true →
            head tail = Some (Ev_sched_setaffinity (cpu_of m i) pin)) ∧
         ((i < length (default [] (workers m)))%nat →
            eventfd (slot m' i) = efd ∧ cpu_id (slot m' i) = cpu_of m i) ∧
         (∀ j, (j < i)%nat → 0 < eventfd (slot m j) →
            Ev_close (eventfd (slot m j)) ∈ tail ∧ eventfd (slot m' j) = -1) ∧
         (∀ j, (j < i)%nat → eventfd (slot m j) ≤ 0 → slot m' j = slot m j).
Proof.
  unfold fork_child. cbn.
  set (m0 := set_current_worker_id (Z.of_nat i) (set_type PROCESS_TYPE_WORKER m)).
  set (m1 := update_slot i (set_cpu_id (cpu_of (update_slot i (set_eventfd efd) m0) i))
               (update_slot i (set_eventfd efd) m0)).
  assert (∀ j, (j < i)%nat → slot m1 j = slot m j) as Hlow.
  { intros j Hj. unfold m1. rewrite !slot_update_slot_ne by lia. reflexivity. }
  assert ((i < length (default [] (workers m)))%nat →
          eventfd (slot m1 i) = efd ∧ cpu_id (slot m1 i) = cpu_of m i) as Hown.
  { intros Hi. unfold m1.
    rewrite slot_update_slot_eq by (rewrite update_slot_length; exact Hi).
    rewrite slot_update_slot_eq by exact Hi. split; reflexivity. }
  assert (∀ w1 w2 m2 es, trace w1 = trace w ++ es →
            free_parent_only i 0 m1 w1 = (m2, w2) →
            config m2 = config m ∧ type m2 = PROCESS_TYPE_WORKER ∧
            current_worker_id m2 = Z.of_nat i ∧
            ((i < length (default [] (workers m)))%nat →
              eventfd (slot m2 i) = efd ∧ cpu_id (slot m2 i) = cpu_of m i) ∧
            (∀ j, (j < i)%nat → eventfd (slot m j) ≤ 0 → slot m2 j = slot m j) ∧
            ∃ closed, trace w2 = trace w ++ es ++ closed ∧
              Forall (λ e, ¬ spawns e) closed ∧
              (∀ j, (j < i)%nat → 0 < eventfd (slot m j) →
                 Ev_close (eventfd (slot m j)) ∈ closed ∧ eventfd (slot m2 j) = -1))
    as Hloop.
  { intros w1 w2 m2 es Hes Hrun.
    apply free_parent_only_spec in Hrun
      as (Hc & Ht & Hi & _ & Hout & Hkeep & closed & Htr & Hall & Hin).
    split_and!; try done.
    - intros Hlen. rewrite Hout by lia. now apply Hown.
    - intros j Hj Hle. rewrite Hkeep; [now apply Hlow|lia|now rewrite Hlow].
    - exists closed. split_and!.
      + now rewrite Htr, Hes, app_assoc.
      + eapply Forall_impl; [|exact Hall]. cbn. intros e (k & _ & _ & ->). tauto.
      + intros j Hj Hfd. rewrite <- (Hlow j Hj). apply Hin; [lia|now rewrite Hlow]. }
  destruct (enable_affinity (config m)) eqn:Haff; cbn.
  - change (cpu_of m0 i) with (cpu_of m i).
    unfold system_set_cpu_affinity, bind at 1 2, syscall; cbn.
    destruct (Z.eqb_spec (os_sched_setaffinity os (trace w) (cpu_of m i)) (-1))
      as [Hpin|Hpin]; cbn.
    + rewrite bool_decide_eq_false_2 by discriminate. cbn.
      unfold bind, sys_close, emit, ret; cbn. intros [= <- <- <-]. cbn.
      split_and!; try done. eexists. split; [now rewrite <- app_assoc|].
      split; [repeat constructor; tauto|done].
    + rewrite bool_decide_eq_true_2 by reflexivity. cbn.
      unfold bind at 1.
      destruct (free_parent_only i 0 m1 _) as [m2 w2] eqn:Hrun.
      unfold ret. intros [= <- <- <-].
      eapply (Hloop _ _ _ [_]) in Hrun
        as (? & ? & ? & ? & ? & closed & Htr & ? & Hclosed); [|reflexivity].
      split_and!; try done. eexists (_ :: closed). split; [exact Htr|].
      split; [constructor; [tauto|done]|]. split_and!; try done.
      intros j Hj Hfd. destruct (Hclosed j Hj Hfd). split; [now right|done].
  - unfold bind at 1 2, ret at 1. cbn.
    rewrite bool_decide_eq_true_2 by reflexivity. cbn.
    destruct (free_parent_only i 0 m1 w) as [m2 w2] eqn:Hrun.
    unfold ret. intros [= <- <- <-].
    eapply (Hloop _ _ _ []) in Hrun as (? & ? & ? & ? & ? & closed & Htr & ? & ?);
      [|now rewrite app_nil_r].
    split_and!; try done. exists closed. split_and!; try done.
Qed.

End Child.

(** *** The fork loop as a whole *)

Lemma handshakes_le cpus i k t : handshakes cpus i k t → (i ≤ k)%nat.
Proof. induction 1; lia. Qed.

Lemma handshakes_forks_positive cpus i k t :
  handshakes cpus i k t → ∀ pid, Ev_fork pid ∈ t → 0 < pid.
Proof.
  induction 1 as [|i k efd pid rd rest ? ? ? ? IH]; intros p Hin.
  - now apply elem_of_nil in Hin.
  - apply elem_of_app in Hin as [Hin|Hin]; [|now apply IH].
    unfold handshake in Hin.
    repeat (apply elem_of_cons in Hin as [Hin|Hin]; [congruence|]).
    now apply elem_of_nil in Hin.
Qed.

(** Splitting a run of handshakes at one of its forks: what precedes the
    fork is the completed handshakes of the earlier workers followed by
    the creation of the channel of the worker being forked. *)
Lemma handshakes_split cpus i k t :
  handshakes cpus i k t →
  ∀ pre pid post rest,
    pre ++ Ev_fork pid :: post = t ++ rest →
    (∃ j hs efd, (i ≤ j < k)%nat ∧ handshakes cpus i j hs ∧
                 pre = hs ++ [Ev_eventfd efd]) ∨
    (∃ pre', pre = t ++ pre' ∧ pre' ++ Ev_fork pid :: post = rest).
Proof.
  induction 1 as [i|i k efd pid rd rest' Hefd Hpid Hrd Hrest IH];
    intros pre p post rest Heq.
  - right. exists pre. auto.
  - pose proof (handshakes_le _ _ _ _ Hrest) as Hle.
    unfold handshake in Heq. cbn in Heq.
    destruct pre as [|e1 pre]; [discriminate|].
    injection Heq as -> Heq.
    destruct pre as [|e2 pre].
    { left. exists i, [], efd. split_and!; [lia|lia|constructor|reflexivity]. }
    injection Heq as -> Heq.
    do 3 (destruct pre as [|? pre]; [discriminate|injection Heq as -> Heq]).
    apply IH in Heq as [(j & hs & efd' & Hj & Hhs & ->)|(pre' & -> & Heq)].
    + left. exists j, (handshake cpus i efd pid rd ++ hs), efd'.
      split_and!; [lia|lia| |reflexivity].
      now constructor.
    + right. exists pre'. auto.
Qed.

Section Loop.

Variable os : os_t.

Lemma fork_parent_spec (i : nat) (efd pid : Z) (m m' : worker_manager_t)
    (w w' : world) (r : option process_error_t) :
  fork_parent os i efd pid m w = ((r, m'), w') →
  let rd := os_eventfd_read os (trace w) efd in
  config m' = config m ∧ type m' = type m ∧
  current_worker_id m' = current_worker_id m ∧
  (∀ j, j ≠ i → slot m' j = slot m j) ∧
  if rd =? -1
  then r = Some PROCESS_ERROR_EVENTFD ∧
       trace w' = trace w ++ [Ev_eventfd_read efd rd; Ev_close efd]
  else r = None ∧
       trace w' = trace w ++
         [Ev_eventfd_read efd rd; Ev_close efd;
          Ev_log_info (Msg_worker_running (Z.of_nat i) (cpus_of m !!! i) pid)] ∧
       ((i < length (default [] (workers m)))%nat →
          slot m' i = mk_worker_context (Z.of_nat i) (cpus_of m !!! i) (-1) pid).
Proof.
  unfold fork_parent, bind, sys_eventfd_read, sys_close, log_info, syscall, emit, ret.
  cbn.
  destruct (Z.eqb_spec (os_eventfd_read os (trace w) efd) (-1)) as [Hrd|Hrd];
    intros [= <- <- <-]; cbn.
  - split_and!; try done.
    + intros j Hj. now rewrite !slot_update_slot_ne by lia.
    + now rewrite <- app_assoc.
  - split_and!; try done.
    + intros j Hj. now rewrite !slot_update_slot_ne by lia.
    + now rewrite <- !app_assoc.
    + intros Hi.
      repeat (rewrite slot_update_slot_eq by (rewrite ?update_slot_length; exact Hi)).
      reflexivity.
Qed.

(** Every execution of the loop is a run of completed handshakes in index
    order followed by one of the five ways of leaving the loop. *)
Lemma fork_loop_trace (n : nat) :
  ∀ (i : nat) (m m' : worker_manager_t) (w w' : world)
    (r : option process_error_t),
    fork_loop os n i m w = ((r, m'), w') →
    config m' = config m ∧
    ∃ k hs tail,
      trace w' = trace w ++ hs ++ tail ∧
      handshakes (cpus_of m) i k hs ∧ loop_end r tail ∧
      (r = None → k = (i + n)%nat) ∧ (r ≠ None → (k < i + n)%nat).
Proof.
  induction n as [|n IH]; intros i m m' w w' r; cbn.
  - unfold ret. intros [= <- <- <-]. split; [reflexivity|].
    exists i, [], []. rewrite app_nil_r.
    split_and!; [done|constructor|constructor|lia|done].
  - unfold bind at 1, sys_eventfd, syscall. cbn.
    set (efd := os_eventfd os (trace w)).
    destruct (Z.eqb_spec efd (-1)) as [Hefd|Hefd].
    { unfold ret. intros [= <- <- <-]. split; [reflexivity|].
      exists i, [], [Ev_eventfd (-1)]. rewrite Hefd.
      split_and!; [done|constructor|constructor|done|lia]. }
    unfold bind at 1, sys_fork, syscall. cbn.
    set (pid := os_fork os (trace w ++ [Ev_eventfd efd])).
    destruct (Z.eqb_spec pid (-1)) as [Hpid|Hpid].
    { unfold bind, sys_close, emit, ret. cbn. intros [= <- <- <-].
      split; [reflexivity|].
      exists i, [], [Ev_eventfd efd; Ev_fork (-1); Ev_close efd]. rewrite Hpid.
      split_and!; [|constructor|now constructor|done|lia].
      cbn. now rewrite <- !app_assoc. }
    destruct (Z.ltb_spec 0 pid) as [Hpos|Hnonpos].
    + unfold bind at 1.
      destruct (fork_parent os i efd pid m _) as [[r1 m1] w1] eqn:Hpar.
      apply fork_parent_spec in Hpar as (Hc1 & _ & _ & _ & Hpar). cbn in Hpar.
      destruct (Z.eqb_spec (os_eventfd_read os ((trace w ++ [Ev_eventfd efd]) ++
                              [Ev_fork pid]) efd) (-1)) as [Hrd|Hrd].
      * destruct Hpar as [-> Htr1]. unfold ret. intros [= <- <- <-].
        split; [assumption|].
        exists i, [], [Ev_eventfd efd; Ev_fork pid; Ev_eventfd_read efd (-1); Ev_close efd].
        split_and!; [|constructor|now constructor|done|lia].
        rewrite Htr1, Hrd, <- !app_assoc. reflexivity.
      * destruct Hpar as (-> & Htr1 & _). intros Hrun.
        apply IH in Hrun as (Hc & k & hs & tail & Htr & Hhs & Hend & Hnone & Hsome).
        split; [congruence|].
        exists k, (handshake (cpus_of m) i efd pid
                     (os_eventfd_read os ((trace w ++ [Ev_eventfd efd]) ++
                        [Ev_fork pid]) efd) ++ hs), tail.
        split_and!; [|constructor; try done|done|intros; rewrite Hnone by done; lia
                     |intros; specialize (Hsome ltac:(done)); lia].
        -- rewrite Htr, Htr1, <- !app_assoc. reflexivity.
        -- unfold cpus_of in *. now rewrite <- Hc1.
    + unfold bind at 1.
      destruct (fork_child os i efd m _) as [[e m1] w1] eqn:Hchild.
      apply fork_child_spec in Hchild as (Hc1 & _ & _ & tail & Htr1 & Hno & _).
      unfold ret. intros [= <- <- <-]. split; [assumption|].
      exists i, [], ([Ev_eventfd efd; Ev_fork pid] ++ tail).
      split_and!; [|constructor|constructor; (done || lia)|done|lia].
      cbn in Htr1. rewrite Htr1, <- !app_assoc. reflexivity.
Qed.

Lemma fork_workers_trace (m : worker_manager_t) (manager' : option worker_manager_t)
    (w w' : world) (r : process_error_t) :
  worker_manager_fork_workers os (Some m) w = ((r, manager'), w') →
  ∃ k hs tail final ro,
    trace w' = trace w ++ hs ++ tail ++ final ∧
    handshakes (cpus_of m) 0 k hs ∧ loop_end ro tail ∧
    match ro with
    | None => r = PROCESS_OK ∧ k = Z.to_nat (worker_count (config m)) ∧
              final = [Ev_log_info (Msg_running_with (worker_count (config m)))]
    | Some e => r = e ∧ (k < Z.to_nat (worker_count (config m)))%nat ∧ final = []
    end.
Proof.
  unfold worker_manager_fork_workers, bind at 1.
  destruct (fork_loop os _ 0 m w) as [[ro m1] w1] eqn:Hloop.
  apply fork_loop_trace in Hloop
    as (Hc & k & hs & tail & Htr & Hhs & Hend & Hnone & Hsome).
  destruct ro as [e|].
  - unfold ret. intros [= <- <- <-].
    exists k, hs, tail, [], (Some e). rewrite app_nil_r.
    split_and!; try done. specialize (Hsome ltac:(done)). lia.
  - unfold bind, log_info, emit, ret. cbn. intros [= <- <- <-].
    exists k, hs, tail, [Ev_log_info (Msg_running_with (worker_count (config m)))], None.
    split_and!; try done.
    + cbn. rewrite Htr, Hc, <- !app_assoc. reflexivity.
    + now rewrite Hnone.
Qed.

(** C2.  If a [fork()] made by [worker_manager_fork_workers] fails, the
    failing call is the one for some worker index k below [worker_count]:
    everything before it is the completed handshakes of workers 0..k-1, the
    channel just created for slot k is closed, nothing at all happens
    afterwards (so no worker of a higher index is created), and the result
    is [PROCESS_ERROR_FORK]. *)
Theorem fork_failure_aborts (m : worker_manager_t)
    (manager' : option worker_manager_t) (w w' : world) (r : process_error_t)
    (emitted : list event) :
  worker_manager_fork_workers os (Some m) w = ((r, manager'), w') →
  trace w' = trace w ++ emitted →
  Ev_fork (-1) ∈ emitted →
  r = PROCESS_ERROR_FORK ∧
  ∃ (k : nat) (hs : list event) (efd : Z),
    Z.of_nat k < worker_count (config m) ∧
    handshakes (cpus_of m) 0 k hs ∧ efd ≠ -1 ∧
    emitted = hs ++ [Ev_eventfd efd; Ev_fork (-1); Ev_close efd].
Proof.
  intros Hrun Hem Hin.
  apply fork_workers_trace in Hrun
    as (k & hs & tail & final & ro & Htr & Hhs & Hend & Hro).
  rewrite Htr in Hem. apply app_inv_head in Hem. subst emitted.
  apply elem_of_app in Hin as [Hin|Hin].
  { apply (handshakes_forks_positive _ _ _ _ Hhs) in Hin. lia. }
  destruct Hend as [| |efd Hefd|efd pid Hefd Hpid|efd pid e tail Hefd Hpid Hle Hno].
  - destruct Hro as (_ & _ & ->). cbn in Hin.
    apply list_elem_of_singleton in Hin. discriminate.
  - destruct Hro as (_ & _ & ->). cbn in Hin.
    apply list_elem_of_singleton in Hin. discriminate.
  - destruct Hro as (-> & Hk & ->). split; [reflexivity|].
    exists k, hs, efd. split_and!; [lia|done|done|reflexivity].
  - destruct Hro as (_ & _ & ->). cbn in Hin.
    repeat (apply elem_of_cons in Hin as [Hin|Hin]; [injection Hin as <- || discriminate; lia|]).
    now apply elem_of_nil in Hin.
  - destruct Hro as (_ & _ & ->). rewrite app_nil_r in Hin. cbn in Hin.
    apply elem_of_cons in Hin as [Hin|Hin]; [discriminate|].
    apply elem_of_cons in Hin as [Hin|Hin]; [congruence|].
    rewrite list.Forall_forall in Hno. apply Hno in Hin. now cbn in Hin.
Qed.

(** C3.  Whenever [worker_manager_fork_workers] calls [fork()], the calls
    it has made before are exactly: for each of the workers 0, 1, ..., k-1
    in this order a completed handshake (channel created, fork returned a
    child id, the blocking read on the channel returned, the parent's
    handle was closed), and then the creation of the channel for worker k.
    So workers are forked in ascending index order and the handshake of
    the previous worker is finished before the next fork is attempted. *)
Theorem spawn_follows_previous_handshake (m : worker_manager_t)
    (manager' : option worker_manager_t) (w w' : world) (r : process_error_t)
    (pre post : list event) (pid : Z) :
  worker_manager_fork_workers os (Some m) w = ((r, manager'), w') →
  trace w' = trace w ++ pre ++ Ev_fork pid :: post →
  ∃ (k : nat) (hs : list event) (efd : Z),
    Z.of_nat k < worker_count (config m) ∧
    handshakes (cpus_of m) 0 k hs ∧
    pre = hs ++ [Ev_eventfd efd].
Proof.
  intros Hrun Hem.
  apply fork_workers_trace in Hrun
    as (k & hs & tail & final & ro & Htr & Hhs & Hend & Hro).
  rewrite Htr in Hem. apply app_inv_head in Hem. symmetry in Hem.
  pose proof (handshakes_le _ _ _ _ Hhs) as Hle0.
  assert ((k ≤ Z.to_nat (worker_count (config m)))%nat) as Hk
    by (destruct ro; destruct Hro as (_ & ? & _); lia).
  apply (handshakes_split _ _ _ _ Hhs) in Hem
    as [(j & hs1 & efd & Hj & Hhs1 & ->)|(pre' & -> & Hem)].
  { exists j, hs1, efd. split_and!; [lia|done|done]. }
  destruct Hend as [| |efd Hefd|efd pid' Hefd Hpid|efd pid' e tail Hefd Hpid Hle Hno].
  - destruct Hro as (_ & _ & ->). cbn in Hem.
    destruct pre' as [|? [|? ?]]; discriminate.
  - destruct Hro as (_ & _ & ->). cbn in Hem.
    destruct pre' as [|? [|? ?]]; discriminate.
  - destruct Hro as (_ & Hlt & ->). cbn in Hem.
    destruct pre' as [|? pre']; [discriminate|]. injection Hem as -> Hem.
    destruct pre' as [|? pre'];
      [|injection Hem as _ Hem; destruct pre' as [|? [|? ?]]; discriminate].
    exists k, hs, efd. split_and!; [lia|done|done].
  - destruct Hro as (_ & Hlt & ->). cbn in Hem.
    destruct pre' as [|? pre']; [discriminate|]. injection Hem as -> Hem.
    destruct pre' as [|? pre'];
      [|injection Hem as _ Hem; destruct pre' as [|? [|? [|? ?]]]; discriminate].
    exists k, hs, efd. split_and!; [lia|done|done].
  - destruct Hro as (_ & Hlt & ->). rewrite app_nil_r in Hem. cbn in Hem.
    destruct pre' as [|? pre']; [discriminate|]. injection Hem as -> Hem.
    destruct pre' as [|? pre'].
    { exists k, hs, efd. split_and!; [lia|done|done]. }
    injection Hem as _ Hem. exfalso.
    rewrite list.Forall_forall in Hno. apply (Hno (Ev_fork pid)); [|exact I].
    rewrite <- Hem. apply elem_of_app. right. left.
Qed.

(** C1.  When [fork()] returns 0 in iteration [i] of the loop, the process
    becomes worker [i]: role and index are set; with affinity enabled it
    pins itself to [cpu_ids[i]] and a refused pin ends the call with
    [PROCESS_ERROR_INVALID_PARAM]; otherwise the call ends with
    [PROCESS_OK], slot [i] holds the worker's own channel descriptor, and
    every descriptor that was open in a slot below [i] has been closed and
    its slot marked -1.  In either case the call returns from inside the
    iteration: after the fork the process creates no channel and forks no
    process, whatever number [n] of iterations was left. *)
Theorem child_continuation (n i : nat) (m m' : worker_manager_t) (w w' : world)
    (r : option process_error_t) (efd : Z) :
  os_eventfd os (trace w) = efd → efd ≠ -1 →
  os_fork os (trace w ++ [Ev_eventfd efd]) = 0 →
  fork_loop os (S n) i m w = ((r, m'), w') →
  let pin := os_sched_setaffinity os (trace w ++ [Ev_eventfd efd; Ev_fork 0])
               (cpus_of m !!! i) in
  type m' = PROCESS_TYPE_WORKER ∧ current_worker_id m' = Z.of_nat i ∧
  ∃ tail,
    trace w' = trace w ++ [Ev_eventfd efd; Ev_fork 0] ++ tail ∧
    Forall (λ e, ¬ spawns e) tail ∧
    if enable_affinity (config m) && (pin =? -1)
    then r = Some PROCESS_ERROR_INVALID_PARAM ∧
         tail = [Ev_sched_setaffinity (cpus_of m !!! i) pin; Ev_close efd]
    else r = Some PROCESS_OK ∧
         (enable_affinity (config m) = true →
            head tail = Some (Ev_sched_setaffinity (cpus_of m !!! i) pin)) ∧
         ((i < length (default [] (workers m)))%nat →
            eventfd (slot m' i) = efd ∧ cpu_id (slot m' i) = cpus_of m !!! i) ∧
         (∀ j, (j < i)%nat → 0 < eventfd (slot m j) →
            Ev_close (eventfd (slot m j)) ∈ tail ∧ eventfd (slot m' j) = -1).
Proof.
  intros Hefd Hopen Hfork. cbn.
  unfold bind at 1, sys_eventfd, syscall. cbn. rewrite Hefd.
  destruct (Z.eqb_spec efd (-1)) as [|_]; [done|].
  unfold bind at 1, sys_fork, syscall. cbn. rewrite Hfork. cbn.
  unfold bind at 1.
  destruct (fork_child os i efd m _) as [[e m1] w1] eqn:Hchild.
  unfold ret. intros [= <- <- <-].
  apply fork_child_spec in Hchild
    as (_ & Ht & Hi & tail & Htr & Hno & Hcases). cbn in Htr, Hcases.
  rewrite <- app_assoc in Hcases. cbn in Hcases.
  split_and!; try done. exists tail. split_and!; try done.
  - rewrite Htr, <- !app_assoc. reflexivity.
  - unfold cpus_of. fold (cpu_of m i).
    destruct (enable_affinity (config m) && _).
    + destruct Hcases as [-> ->]. done.
    + destruct Hcases as (-> & ? & ? & ? & _). done.
Qed.

End Loop.

Lemma fork_failure_aborts_witness :
  (worker_manager_fork_workers os_second_fork_fails (Some parent_of_two)
     fresh_world).1.1 = PROCESS_ERROR_FORK.
Proof.
  destruct (worker_manager_fork_workers os_second_fork_fails (Some parent_of_two)
              fresh_world) as [[r mo] w'] eqn:Hrun.
  cbn.
  refine (proj1 (fork_failure_aborts os_second_fork_fails parent_of_two mo
                   fresh_world w' r (trace w') Hrun eq_refl _)).
  pose proof Hrun as Hval. vm_compute in Hval. injection Hval as _ _ <-.
  cbn. do 6 apply list_elem_of_further. apply list_elem_of_here.
Defined.

Lemma spawn_follows_previous_handshake_witness :
  ∃ (k : nat) (hs : list event) (efd : Z),
    Z.of_nat k < 2 ∧ handshakes [2; 3] 0 k hs ∧
    [Ev_eventfd 3; Ev_fork 101; Ev_eventfd_read 3 0; Ev_close 3;
     Ev_log_info (Msg_worker_running 0 2 101); Ev_eventfd 8]
    = hs ++ [Ev_eventfd efd].
Proof.
  destruct (worker_manager_fork_workers (os_fine 0) (Some parent_of_two) fresh_world)
    as [[r mo] w'] eqn:Hrun.
  eapply (spawn_follows_previous_handshake (os_fine 0) parent_of_two mo fresh_world
            w' r _ _ 106 Hrun).
  pose proof Hrun as Hval. vm_compute in Hval. injection Hval as _ _ <-.
  reflexivity.
Defined.

Lemma child_continuation_witness :
  ∃ m' w',
    fork_loop os_in_child 1 1 parent_with_stale_handle fresh_world
      = ((Some PROCESS_OK, m'), w') ∧
    type m' = PROCESS_TYPE_WORKER ∧ current_worker_id m' = 1 ∧
    eventfd (slot m' 1) = 5 ∧ eventfd (slot m' 0) = -1 ∧
    trace w' = [Ev_eventfd 5; Ev_fork 0; Ev_sched_setaffinity 3 0; Ev_close 9].
Proof.
  destruct (fork_loop os_in_child 1 1 parent_with_stale_handle fresh_world)
    as [[r m'] w'] eqn:Hrun.
  destruct (child_continuation os_in_child 0 1 parent_with_stale_handle m'
              fresh_world w' r 5 eq_refl ltac:(discriminate) eq_refl Hrun)
    as (Ht & Hi & tail & Htr & _ & Hcases).
  cbn in Hcases. destruct Hcases as (-> & _ & Hown & Hclosed).
  exists m', w'. split; [reflexivity|].
  destruct (Hown ltac:(cbn; lia)) as [Hfd _].
  destruct (Hclosed 0%nat ltac:(lia) ltac:(cbn; lia)) as [_ Hzero].
  split_and!; try done.
  pose proof Hrun as Hval. vm_compute in Hval. injection Hval as _ <-. reflexivity.
Defined.

(** *** Waiting for a worker to exit *)

(** The value handed back to the caller does not determine which child
    was reaped: two runs that reap different children return the same
    value. *)
Lemma wait_workers_returns_no_identity :
  ¬ ∃ identity : process_error_t → Z,
      ∀ (os : os_t) (m : worker_manager_t) (w : world),
        (worker_manager_wait_workers os (Some m) w).1 = PROCESS_OK →
        identity (worker_manager_wait_workers os (Some m) w).1
        = os_wait os (trace w).
Proof.
  intros [identity H].
  pose proof (H (os_fine 101) parent_of_two fresh_world eq_refl) as H1.
  pose proof (H (os_fine 102) parent_of_two fresh_world eq_refl) as H2.
  cbv in H1, H2. rewrite H1 in H2. discriminate H2.
Qed.

Section Wait.

Variable os : os_t.

(** C6 (as amended).  [worker_manager_wait_workers] goes on only for a
    manager in the parent role: a null manager or a worker gets
    [PROCESS_ERROR_INVALID_PARAM] and [wait] is not called.  The parent
    calls [wait] once; when [wait] returns -1 the result is
    [PROCESS_ERROR_WAIT], and otherwise the process id of the reaped child
    is written to the error log and the result is [PROCESS_OK], which
    carries no identity.  The result is [PROCESS_ERROR_WAIT] exactly when
    the caller is the parent and [wait] failed. *)
Theorem wait_workers_spec (manager : option worker_manager_t) (w : world) :
  let '(r, w') := worker_manager_wait_workers os manager w in
  let pid := os_wait os (trace w) in
  (worker_manager_get_type manager = PROCESS_TYPE_WORKER ∨ manager = None →
     r = PROCESS_ERROR_INVALID_PARAM ∧ w' = w) ∧
  (worker_manager_get_type manager = PROCESS_TYPE_PARENT → manager ≠ None →
     system_initialized w' = system_initialized w ∧
     if pid =? -1
     then r = PROCESS_ERROR_WAIT ∧ trace w' = trace w ++ [Ev_wait pid]
     else r = PROCESS_OK ∧
          trace w' = trace w ++ [Ev_wait pid; Ev_log_error (Msg_worker_exited pid)]) ∧
  (r = PROCESS_ERROR_WAIT ↔
     worker_manager_get_type manager = PROCESS_TYPE_PARENT ∧ manager ≠ None ∧
     pid = -1).
Proof.
  unfold worker_manager_wait_workers.
  destruct manager as [m|]; cbn; [|unfold ret; intuition congruence].
  case_bool_decide as Ht; cbn.
  - unfold bind, sys_wait, syscall, log_error, emit, ret; cbn.
    destruct (Z.eqb_spec (os_wait os (trace w)) (-1)) as [Hp|Hp]; cbn.
    + intuition congruence.
    + rewrite <- app_assoc; cbn. intuition congruence.
  - unfold ret. destruct (type m); intuition congruence.
Qed.

End Wait.

Lemma wait_workers_spec_witness :
  (worker_manager_wait_workers (os_fine 101) (Some parent_of_two) fresh_world).1
    = PROCESS_OK ∧
  (worker_manager_wait_workers (os_fine (-1)) (Some parent_of_two) fresh_world).1
    = PROCESS_ERROR_WAIT ∧
  (worker_manager_wait_workers (os_fine 101) (Some worker_one) fresh_world).1
    = PROCESS_ERROR_INVALID_PARAM.
Proof.
  pose proof (wait_workers_spec (os_fine 101) (Some parent_of_two) fresh_world) as H1.
  pose proof (wait_workers_spec (os_fine (-1)) (Some parent_of_two) fresh_world) as H2.
  pose proof (wait_workers_spec (os_fine 101) (Some worker_one) fresh_world) as H3.
  destruct (worker_manager_wait_workers (os_fine 101) (Some parent_of_two) fresh_world)
    as [r1 w1].
  destruct (worker_manager_wait_workers (os_fine (-1)) (Some parent_of_two) fresh_world)
    as [r2 w2].
  destruct (worker_manager_wait_workers (os_fine 101) (Some worker_one) fresh_world)
    as [r3 w3].
  cbn in *.
  destruct H1 as (_ & H1 & _), H2 as (_ & _ & H2), H3 as (H3 & _).
  split; [|split].
  - apply H1; [reflexivity|discriminate].
  - apply H2. split; [reflexivity|]. split; [discriminate|reflexivity].
  - apply H3. left; reflexivity.
Defined.

(** *** Cleanup *)

Lemma close_open_eventfds_spec (n : nat) :
  ∀ (i : nat) (m : worker_manager_t) (w : world),
    close_open_eventfds n i m w
    = (tt, mk_world (system_initialized w)
             (trace w ++ map Ev_close (open_descriptors m i n))).
Proof.
  induction n as [|n IH]; intros i m w; cbn.
  - unfold ret, open_descriptors. cbn. rewrite app_nil_r. now destruct w.
  - unfold bind, open_descriptors. cbn.
    destruct (0 <? eventfd (slot m i)); cbn.
    + rewrite IH. cbn. now rewrite <- app_assoc.
    + unfold ret. now rewrite IH.
Qed.

Lemma cleanup_zeroes (m : worker_manager_t) (w : world) :
  (worker_manager_cleanup (Some m) w).1 = Some zero_manager.
Proof.
  unfold worker_manager_cleanup, bind, system_free, emit, ret.
  destruct (is_null (cpu_ids (config m))), (is_null (workers m)); cbn;
    rewrite ?close_open_eventfds_spec; reflexivity.
Qed.

(** X1.  [worker_manager_cleanup] of a manager releases the CPU-id array
    if there is one and, if there is a slot array, closes every descriptor
    recorded as open (> 0) in the slots 0 .. worker_count-1, once each and
    in slot order, then releases the slot array; it does nothing else and
    leaves the manager zeroed.  On a null manager it does nothing. *)
Theorem cleanup_closes_recorded (manager : option worker_manager_t) (w : world) :
  match manager with
  | None => worker_manager_cleanup None w = (None, w)
  | Some m =>
    worker_manager_cleanup (Some m) w
    = (Some zero_manager,
       mk_world (system_initialized w)
         (trace w
          ++ (if is_null (cpu_ids (config m)) then [] else [Ev_free Blk_cpu_ids])
          ++ (if is_null (workers m) then []
              else map Ev_close
                     (open_descriptors m 0 (Z.to_nat (worker_count (config m))))
                   ++ [Ev_free Blk_workers])))
  end.
Proof.
  destruct manager as [m|]; [|reflexivity].
  unfold worker_manager_cleanup, bind, system_free, emit, ret.
  destruct (is_null (cpu_ids (config m))), (is_null (workers m)); cbn;
    rewrite ?close_open_eventfds_spec; cbn;
    rewrite ?app_nil_r, <- ?app_assoc; try reflexivity.
  all: now destruct w.
Qed.

(** X2.  Cleanup is idempotent: a second [worker_manager_cleanup] on the
    manager a first one left makes no call and changes nothing. *)
Theorem cleanup_idempotent (manager : option worker_manager_t) (w : world) :
  let '(manager1, w1) := worker_manager_cleanup manager w in
  worker_manager_cleanup manager1 w1 = (manager1, w1).
Proof.
  destruct manager as [m|]; [|reflexivity].
  unfold worker_manager_cleanup, bind, system_free, emit, ret.
  destruct (is_null (cpu_ids (config m))), (is_null (workers m)); cbn;
    rewrite ?close_open_eventfds_spec; cbn; reflexivity.
Qed.

(** *** Descriptors across the fork loop *)

Lemma opened_app t1 t2 : opened (t1 ++ t2) = opened t1 ++ opened t2.
Proof. apply omap_app. Qed.

Lemma closed_app t1 t2 : closed (t1 ++ t2) = closed t1 ++ closed t2.
Proof. apply omap_app. Qed.

Lemma opened_eventfd fd : fd ≠ -1 → opened [Ev_eventfd fd] = [fd].
Proof.
  intros Hfd. cbn. now destruct (Z.eqb_spec fd (-1)).
Qed.

Lemma slot_update_slot_outside (i : nat) f (m : worker_manager_t) :
  (length (default [] (workers m)) ≤ i)%nat →
  slot (update_slot i f m) i = zero_context.
Proof.
  intros Hle. apply slot_out_of_range. now rewrite update_slot_length.
Qed.

(** With no open descriptor in the lower slots the child's closing loop
    changes nothing. *)
Lemma free_parent_only_nothing (n : nat) :
  ∀ (j : nat) (m : worker_manager_t) (w : world),
    (∀ k, (j ≤ k < j + n)%nat → eventfd (slot m k) ≤ 0) →
    free_parent_only n j m w = (m, w).
Proof.
  induction n as [|n IH]; intros j m w Hlow; cbn; [reflexivity|].
  destruct (Z.ltb_spec 0 (eventfd (slot m j))) as [Hopen|_].
  - specialize (Hlow j ltac:(lia)). lia.
  - apply IH. intros k Hk. apply Hlow. lia.
Qed.

Lemma open_descriptors_none (m : worker_manager_t) (n : nat) :
  ∀ i, (∀ j, (i ≤ j < i + n)%nat → eventfd (slot m j) ≤ 0) →
       open_descriptors m i n = [].
Proof.
  unfold open_descriptors.
  induction n as [|n IH]; intros i Hlow; [reflexivity|]. cbn.
  destruct (Z.ltb_spec 0 (eventfd (slot m i))) as [Hopen|_].
  - specialize (Hlow i ltac:(lia)). lia.
  - apply IH. intros j Hj. apply Hlow. lia.
Qed.

Section Descriptors.

Variable os : os_t.

Lemma fork_parent_length (i : nat) (efd pid : Z) (m m' : worker_manager_t)
    (w w' : world) (r : option process_error_t) :
  fork_parent os i efd pid m w = ((r, m'), w') →
  length (default [] (workers m')) = length (default [] (workers m)).
Proof.
  unfold fork_parent, bind, sys_eventfd_read, sys_close, log_info, syscall, emit, ret.
  cbn. destruct (_ =? -1); intros [= <- <- <-]; now rewrite !update_slot_length.
Qed.

(** The child's continuation when no lower slot holds an open descriptor:
    it closes nothing but, on a refused pin, its own channel. *)
Lemma fork_child_own (i : nat) (efd : Z) (m m' : worker_manager_t)
    (w w' : world) (r : process_error_t) :
  (∀ j, (j < i)%nat → eventfd (slot m j) ≤ 0) →
  fork_child os i efd m w = ((r, m'), w') →
  length (default [] (workers m')) = length (default [] (workers m)) ∧
  (∀ j, (j < i)%nat → eventfd (slot m' j) ≤ 0) ∧
  ∃ tail,
    trace w' = trace w ++ tail ∧ opened tail = [] ∧
    ((r = PROCESS_ERROR_INVALID_PARAM ∧ closed tail = [efd]) ∨
     (r = PROCESS_OK ∧ closed tail = [])).
Proof.
  intros Hlow. unfold fork_child. cbn.
  set (m0 := set_current_worker_id (Z.of_nat i) (set_type PROCESS_TYPE_WORKER m)).
  set (m1 := update_slot i (set_cpu_id (cpu_of (update_slot i (set_eventfd efd) m0) i))
               (update_slot i (set_eventfd efd) m0)).
  assert (∀ j, (j < i)%nat → slot m1 j = slot m j) as Hsame.
  { intros j Hj. unfold m1. rewrite !slot_update_slot_ne by lia. reflexivity. }
  assert (∀ w1, free_parent_only i 0 m1 w1 = (m1, w1)) as Hfree.
  { intros w1. apply free_parent_only_nothing. intros k Hk.
    rewrite Hsame by lia. apply Hlow. lia. }
  assert (length (default [] (workers m1)) = length (default [] (workers m))) as Hlen.
  { unfold m1. now rewrite !update_slot_length. }
  destruct (enable_affinity (config m)) eqn:Haff; cbn.
  - unfold system_set_cpu_affinity, bind at 1 2, syscall; cbn.
    destruct (Z.eqb_spec (os_sched_setaffinity os (trace w) (cpu_of m0 i)) (-1))
      as [Hpin|Hpin]; cbn.
    + rewrite bool_decide_eq_false_2 by discriminate. cbn.
      unfold bind, sys_close, emit, ret; cbn. intros [= <- <- <-]. cbn.
      split_and!; [done|exact Hlow|].
      eexists. split; [now rewrite <- app_assoc|]. split; [reflexivity|].
      left. split; reflexivity.
    + rewrite bool_decide_eq_true_2 by reflexivity. cbn.
      unfold bind at 1. rewrite Hfree. unfold ret. intros [= <- <- <-].
      split_and!; [done| |].
      * intros j Hj. rewrite Hsame by lia. now apply Hlow.
      * eexists [_]. split; [reflexivity|]. split; [reflexivity|].
        right. split; reflexivity.
  - unfold bind at 1 2, ret at 1. cbn.
    rewrite bool_decide_eq_true_2 by reflexivity. cbn.
    rewrite Hfree. unfold ret. intros [= <- <- <-].
    split_and!; [done| |].
    + intros j Hj. rewrite Hsame by lia. now apply Hlow.
    + exists []. rewrite app_nil_r. split; [reflexivity|]. split; [reflexivity|].
      right. split; reflexivity.
Qed.

(** What a run of the loop from index [i] leaves behind, for the process
    that stays the parent and for the one that becomes a worker. *)
Lemma fork_loop_outcome (n : nat) :
  ∀ (i : nat) (m m' : worker_manager_t) (w w' : world)
    (r : option process_error_t),
    fork_loop os n i m w = ((r, m'), w') →
    (∀ j, (j < i)%nat → eventfd (slot m j) ≤ 0) →
    length (default [] (workers m')) = length (default [] (workers m)) ∧
    ∃ emitted,
      trace w' = trace w ++ emitted ∧
      ((type m' = type m ∧ r ≠ Some PROCESS_OK ∧
        opened emitted = closed emitted ∧
        (∀ j, (j < i)%nat → slot m' j = slot m j) ∧
        (r = None →
           (∀ j, (j < i + n)%nat → eventfd (slot m' j) ≤ 0) ∧
           (∀ j, (i ≤ j < i + n)%nat →
              (j < length (default [] (workers m)))%nat →
              worker_id (slot m' j) = Z.of_nat j ∧
              cpu_id (slot m' j) = cpus_of m !!! j ∧
              eventfd (slot m' j) = -1 ∧ 0 < pid (slot m' j)))) ∨
       (type m' = PROCESS_TYPE_WORKER ∧
        ∃ (k : nat) (efd : Z),
          current_worker_id m' = Z.of_nat k ∧ (i ≤ k < i + n)%nat ∧
          ((r = Some PROCESS_ERROR_INVALID_PARAM ∧
            opened emitted = closed emitted) ∨
           (r = Some PROCESS_OK ∧ efd ≠ -1 ∧
            opened emitted = closed emitted ++ [efd] ∧
            ((k < length (default [] (workers m)))%nat →
               eventfd (slot m' k) = efd ∧
               cpu_id (slot m' k) = cpus_of m !!! k) ∧
            (∀ j, (j < k)%nat → eventfd (slot m' j) ≤ 0))))).
Proof.
  induction n as [|n IH]; intros i m m' w w' r; cbn.
  - unfold ret. intros [= <- <- <-] Hlow. split; [reflexivity|].
    exists []. rewrite app_nil_r. split; [reflexivity|]. left.
    split_and!; try done. intros _. split; [|lia].
    intros j Hj. apply Hlow. lia.
  - intros Hrun Hlow. revert Hrun.
    unfold bind at 1, sys_eventfd, syscall. cbn.
    set (efd := os_eventfd os (trace w)).
    destruct (Z.eqb_spec efd (-1)) as [Hefd|Hefd].
    { unfold ret. intros [= <- <- <-]. split; [reflexivity|].
      exists [Ev_eventfd efd]. split; [reflexivity|]. left.
      split_and!; try done. cbn. now rewrite Hefd. }
    unfold bind at 1, sys_fork, syscall. cbn.
    set (pid := os_fork os (trace w ++ [Ev_eventfd efd])).
    destruct (Z.eqb_spec pid (-1)) as [Hpid|Hpid].
    { unfold bind, sys_close, emit, ret. cbn. intros [= <- <- <-].
      split; [reflexivity|].
      exists [Ev_eventfd efd; Ev_fork pid; Ev_close efd].
      split; [now rewrite <- !app_assoc|]. left.
      split_and!; try done.
      change (opened ([Ev_eventfd efd] ++ [Ev_fork pid; Ev_close efd])
              = closed [Ev_eventfd efd; Ev_fork pid; Ev_close efd]).
      rewrite opened_app, opened_eventfd by done. reflexivity. }
    destruct (Z.ltb_spec 0 pid) as [Hpos|Hnonpos].
    + unfold bind at 1.
      destruct (fork_parent os i efd pid m _) as [[r1 m1] w1] eqn:Hpar.
      pose proof (fork_parent_length _ _ _ _ _ _ _ _ Hpar) as Hlen1.
      apply fork_parent_spec in Hpar as (Hc1 & Ht1 & _ & Hother & Hpar).
      cbn in Hpar.
      destruct (Z.eqb_spec (os_eventfd_read os ((trace w ++ [Ev_eventfd efd]) ++
                              [Ev_fork pid]) efd) (-1)) as [Hrd|Hrd].
      * destruct Hpar as [-> Htr1]. unfold ret. intros [= <- <- <-].
        split; [assumption|].
        eexists ([Ev_eventfd efd] ++ [Ev_fork pid; _; Ev_close efd]).
        split; [rewrite Htr1, <- !app_assoc; reflexivity|]. left.
        split_and!; try done.
        -- rewrite opened_app, opened_eventfd by done. reflexivity.
        -- intros j Hj. apply Hother. lia.
      * destruct Hpar as (-> & Htr1 & Hslot). intros Hrun.
        assert (∀ j, (j < S i)%nat → eventfd (slot m1 j) ≤ 0) as Hlow1.
        { intros j Hj. destruct (decide (j = i)) as [->|Hne].
          - destruct (decide (i < length (default [] (workers m)))%nat) as [Hin|Hout].
            + rewrite (Hslot Hin). cbn. lia.
            + rewrite slot_out_of_range by lia. cbn. lia.
          - rewrite Hother by done. apply Hlow. lia. }
        apply IH in Hrun as (Hlen & emitted & Htr & Hcases); [|exact Hlow1].
        split; [congruence|].
        assert (cpus_of m1 = cpus_of m) as Hcpus by (unfold cpus_of; now rewrite Hc1).
        eexists ([Ev_eventfd efd] ++ [Ev_fork pid; _; Ev_close efd; _] ++ emitted).
        split; [rewrite Htr, Htr1, <- !app_assoc; reflexivity|].
        rewrite !opened_app, !closed_app, opened_eventfd by done. cbn [app].
        change (opened [Ev_fork pid; _; Ev_close efd; _]) with (@nil Z).
        change (closed [Ev_eventfd efd]) with (@nil Z).
        change (closed [Ev_fork pid; _; Ev_close efd; _]) with [efd].
        cbn [app].
        destruct Hcases
          as [(Ht & Hr & Hbal & Hkeep & Hdone)|(Ht & k & efd' & Hk & Hrange & Hchild)].
        -- left. split_and!; [congruence|done|now rewrite Hbal| |].
           { intros j Hj. rewrite Hkeep by lia. apply Hother. lia. }
           intros Hnone. destruct (Hdone Hnone) as [Hall Hslots]. split.
           ++ intros j Hj. apply Hall. lia.
           ++ intros j Hj Hin. destruct (decide (j = i)) as [->|Hne].
              ** rewrite Hkeep by lia. rewrite (Hslot Hin). cbn.
                 split_and!; (done || lia).
              ** rewrite <- Hcpus. apply Hslots; [lia|congruence].
        -- right. split; [done|]. exists k, efd'. split; [done|]. split; [lia|].
           destruct Hchild as [(Hr & Hbal)|(Hr & Hfd & Hbal & Hown & Hlowk)].
           ++ left. split; [done|]. now rewrite Hbal.
           ++ right. split_and!; try done.
              ** now rewrite Hbal.
              ** intros Hin. rewrite <- Hcpus. apply Hown. congruence.
    + unfold bind at 1.
      destruct (fork_child os i efd m _) as [[e m1] w1] eqn:Hchild.
      pose proof Hchild as Hspec.
      apply fork_child_spec in Hspec as (_ & Ht & Hi & _).
      pose proof Hchild as Hown.
      apply fork_child_spec in Hown as (_ & _ & _ & tail0 & _ & _ & Hcases0).
      apply fork_child_own in Hchild as (Hlen & Hlowk & tail & Htr & Hop & Hcl);
        [|exact Hlow].
      unfold ret. intros [= <- <- <-]. split; [assumption|].
      exists ([Ev_eventfd efd] ++ [Ev_fork pid] ++ tail).
      split; [cbn in Htr; rewrite Htr, <- !app_assoc; reflexivity|].
      right. split; [done|]. exists i, efd. split; [done|]. split; [lia|].
      rewrite !opened_app, !closed_app, opened_eventfd, Hop by done. cbn.
      destruct Hcl as [(-> & ->)|(-> & ->)].
      * left. split; reflexivity.
      * right. split_and!; try done.
        intros Hin. cbn in Hcases0.
        destruct (enable_affinity (config m) && _); [destruct Hcases0; discriminate|].
        destruct Hcases0 as (_ & _ & Hmine & _). apply Hmine. exact Hin.
Qed.

Lemma forks_app (t u : list event) : forks (t ++ u) = forks t ++ forks u.
Proof. apply omap_app. Qed.

(** When the loop runs to its end, the process id recorded in slot [j] is
    the result of the [fork()] made for worker [j]. *)
Lemma fork_loop_pids (n : nat) :
  ∀ (i : nat) (m m' : worker_manager_t) (w w' : world),
    fork_loop os n i m w = ((None, m'), w') →
    length (default [] (workers m')) = length (default [] (workers m)) ∧
    (∀ j, (j < i)%nat → slot m' j = slot m j) ∧
    ∃ emitted,
      trace w' = trace w ++ emitted ∧
      length (forks emitted) = n ∧
      ∀ j, (i ≤ j < i + n)%nat → (j < length (default [] (workers m)))%nat →
        forks emitted !! (j - i)%nat = Some (pid (slot m' j)).
Proof.
  induction n as [|n IH]; intros i m m' w w'; cbn [fork_loop].
  - unfold ret. intros [= <- <-]. split_and!; try done.
    exists []. rewrite app_nil_r. split_and!; try done. intros j Hj. lia.
  - unfold bind at 1, sys_eventfd, syscall. cbn [fst snd trace system_initialized].
    set (efd := os_eventfd os (trace w)).
    destruct (Z.eqb_spec efd (-1)) as [|Hefd]; [unfold ret; discriminate|].
    unfold bind at 1, sys_fork, syscall. cbn [fst snd trace system_initialized].
    set (pid0 := os_fork os (trace w ++ [Ev_eventfd efd])).
    destruct (Z.eqb_spec pid0 (-1)) as [|Hpid].
    { unfold bind, sys_close, emit, ret. cbn. discriminate. }
    destruct (Z.ltb_spec 0 pid0) as [Hpos|Hnonpos].
    + unfold bind at 1.
      destruct (fork_parent os i efd pid0 m _) as [[r1 m1] w1] eqn:Hpar.
      pose proof (fork_parent_length _ _ _ _ _ _ _ _ Hpar) as Hlen1.
      apply fork_parent_spec in Hpar as (_ & _ & _ & Hother & Hpar).
      cbn [trace] in Hpar.
      destruct (_ =? -1).
      { destruct Hpar as [-> _]. unfold ret. discriminate. }
      destruct Hpar as (-> & Htr1 & Hslot). intros Hrun.
      apply IH in Hrun as (Hlen & Hkeep & emitted & Htr & Hcount & Hpids).
      split_and!; [congruence| |].
      { intros j Hj. rewrite Hkeep by lia. apply Hother. lia. }
      eexists ([Ev_eventfd efd] ++ [Ev_fork pid0; _; Ev_close efd; _] ++ emitted).
      split; [rewrite Htr, Htr1, <- !app_assoc; reflexivity|].
      rewrite !forks_app. cbn [forks omap app option_bind mbind].
      split; [cbn; now rewrite Hcount|].
      intros j Hj Hin. destruct (decide (j = i)) as [->|Hne].
      * rewrite Nat.sub_diag, Hkeep by lia. rewrite (Hslot Hin). reflexivity.
      * replace (j - i)%nat with (S (j - S i)) by lia. cbn.
        apply Hpids; [lia|congruence].
    + unfold bind at 1.
      destruct (fork_child os i efd m _) as [[e m1] w1]. unfold ret. discriminate.
Qed.

Lemma update_slot_null (i : nat) f (m : worker_manager_t) :
  is_null (workers (update_slot i f m)) = is_null (workers m).
Proof. unfold update_slot. cbn. now destruct (workers m). Qed.

Lemma free_parent_only_null (n : nat) :
  ∀ (j : nat) (m m' : worker_manager_t) (w w' : world),
    free_parent_only n j m w = (m', w') →
    is_null (workers m') = is_null (workers m).
Proof.
  induction n as [|n IH]; intros j m m' w w'; cbn.
  - unfold ret. now intros [= <- <-].
  - destruct (0 <? eventfd (slot m j)).
    + unfold bind, sys_close, emit. intros Hrun. apply IH in Hrun.
      now rewrite Hrun, update_slot_null.
    + apply IH.
Qed.

Lemma fork_loop_null (n : nat) :
  ∀ (i : nat) (m m' : worker_manager_t) (w w' : world)
    (r : option process_error_t),
    fork_loop os n i m w = ((r, m'), w') →
    is_null (workers m') = is_null (workers m).
Proof.
  induction n as [|n IH]; intros i m m' w w' r; cbn.
  - unfold ret. now intros [= <- <- <-].
  - unfold bind at 1, sys_eventfd, syscall. cbn.
    destruct (_ =? -1); [unfold ret; now intros [= <- <- <-]|].
    unfold bind at 1, sys_fork, syscall. cbn.
    destruct (_ =? -1);
      [unfold bind, sys_close, emit, ret; cbn; now intros [= <- <- <-]|].
    destruct (0 <? _).
    + unfold fork_parent, bind at 1 2, sys_eventfd_read, syscall. cbn.
      destruct (_ =? -1).
      * unfold bind, sys_close, emit, ret. cbn. intros [= <- <- <-].
        now rewrite !update_slot_null.
      * unfold bind at 1 2, sys_close, log_info, emit, ret. cbn.
        intros Hrun. apply IH in Hrun. now rewrite Hrun, !update_slot_null.
    + unfold fork_child, bind at 1 2. cbn.
      destruct (enable_affinity (config m)); cbn.
      * unfold system_set_cpu_affinity, bind at 1, syscall. cbn.
        destruct (_ =? -1); cbn.
        -- rewrite bool_decide_eq_false_2 by discriminate. cbn.
           unfold bind, sys_close, emit, ret. cbn. now intros [= <- <- <-].
        -- rewrite bool_decide_eq_true_2 by reflexivity. cbn.
           unfold bind at 1.
           destruct (free_parent_only i 0 _ _) as [m2 w2] eqn:Hfree.
           unfold ret. intros [= <- <- <-].
           apply free_parent_only_null in Hfree.
           now rewrite Hfree, !update_slot_null.
      * unfold ret at 1. cbn.
        rewrite bool_decide_eq_true_2 by reflexivity. cbn.
        unfold bind at 1.
        destruct (free_parent_only i 0 _ _) as [m2 w2] eqn:Hfree.
        unfold ret. intros [= <- <- <-].
        apply free_parent_only_null in Hfree.
        now rewrite Hfree, !update_slot_null.
Qed.

Lemma fork_workers_outcome (m : worker_manager_t)
    (manager' : option worker_manager_t) (w w' : world) (r : process_error_t) :
  worker_manager_fork_workers os (Some m) w = ((r, manager'), w') →
  let N := Z.to_nat (worker_count (config m)) in
  ∃ m' ro emitted final k hs tail,
    manager' = Some m' ∧ config m' = config m ∧
    is_null (workers m') = is_null (workers m) ∧
    trace w' = trace w ++ emitted ++ final ∧
    emitted = hs ++ tail ∧ handshakes (cpus_of m) 0 k hs ∧ loop_end ro tail ∧
    match ro with
    | None => r = PROCESS_OK ∧ k = N ∧
              final = [Ev_log_info (Msg_running_with (worker_count (config m)))]
    | Some e => r = e ∧ final = []
    end ∧
    ((type m' = type m ∧ ro ≠ Some PROCESS_OK ∧
      opened emitted = closed emitted ∧
      (ro = None →
         (∀ j, (j < N)%nat → eventfd (slot m' j) ≤ 0) ∧
         (∀ j, (j < N)%nat → (j < length (default [] (workers m)))%nat →
            worker_id (slot m' j) = Z.of_nat j ∧
            cpu_id (slot m' j) = cpus_of m !!! j ∧
            eventfd (slot m' j) = -1 ∧ 0 < pid (slot m' j)))) ∨
     (type m' = PROCESS_TYPE_WORKER ∧
      ∃ (i : nat) (efd : Z),
        current_worker_id m' = Z.of_nat i ∧ (i < N)%nat ∧
        ((ro = Some PROCESS_ERROR_INVALID_PARAM ∧
          opened emitted = closed emitted) ∨
         (ro = Some PROCESS_OK ∧ efd ≠ -1 ∧
          opened emitted = closed emitted ++ [efd] ∧
          ((i < length (default [] (workers m)))%nat →
             eventfd (slot m' i) = efd ∧ cpu_id (slot m' i) = cpus_of m !!! i) ∧
          (∀ j, (j < i)%nat → eventfd (slot m' j) ≤ 0))))).
Proof.
  intros Hrun N. unfold worker_manager_fork_workers, bind at 1 in Hrun.
  destruct (fork_loop os _ 0 m w) as [[ro m1] w1] eqn:Hloop.
  pose proof Hloop as Htrace.
  pose proof (fork_loop_null _ _ _ _ _ _ _ Hloop) as Hnull.
  apply fork_loop_trace in Htrace
    as (Hc & k & hs & tail & Htr & Hhs & Hend & Hnone & _).
  apply fork_loop_outcome in Hloop as (Hlen & emitted & Htr' & Hcases); [|lia].
  assert (emitted = hs ++ tail) as Hem
    by (rewrite Htr in Htr'; now apply app_inv_head in Htr').
  assert (∃ final, manager' = Some m1 ∧ trace w' = trace w1 ++ final ∧
            match ro with
            | None => r = PROCESS_OK ∧
                final = [Ev_log_info (Msg_running_with (worker_count (config m)))]
            | Some e => r = e ∧ final = []
            end) as (final & -> & Hfin & Hro).
  { destruct ro as [e|].
    - unfold ret in Hrun. injection Hrun as <- <- <-.
      exists []. now rewrite app_nil_r.
    - unfold bind, log_info, emit, ret in Hrun. cbn in Hrun.
      injection Hrun as <- <- <-. eexists. rewrite Hc. done. }
  exists m1, ro, emitted, final, k, hs, tail.
  split_and!; try done.
  - now rewrite Hfin, Htr', <- app_assoc.
  - destruct ro; [done|]. destruct Hro. split_and!; try done.
    rewrite Hnone by done. reflexivity.
  - destruct Hcases as [(Ht & Hr & Hbal & _ & Hdone)|(Ht & i & efd & Hi & Hrange & Hchild)].
    + left. split_and!; try done.
      intros Hro0. destruct (Hdone Hro0) as [Hall Hslots]. split.
      * intros j Hj. apply Hall. lia.
      * intros j Hj Hin. apply Hslots; [lia|done].
    + right. split; [done|]. exists i, efd. split_and!; try done. lia.
Qed.

(** X3.  When [worker_manager_fork_workers] returns [PROCESS_OK] to the
    process that is still the parent, it has completed the handshake of
    every worker 0 .. worker_count-1, in order, and then logged the pool
    size; every slot of the array records its index, its CPU, a closed
    channel (-1) and, as process id, the positive result of the [fork()]
    made for that worker (the j-th [fork()] of the call for slot j). *)
Theorem parent_success_handshakes_all (m : worker_manager_t)
    (manager' : option worker_manager_t) (w w' : world) :
  type m = PROCESS_TYPE_PARENT →
  worker_manager_fork_workers os (Some m) w = ((PROCESS_OK, manager'), w') →
  worker_manager_get_type manager' = PROCESS_TYPE_PARENT →
  let N := Z.to_nat (worker_count (config m)) in
  ∃ m' hs,
    manager' = Some m' ∧ config m' = config m ∧
    trace w' = trace w ++ hs
               ++ [Ev_log_info (Msg_running_with (worker_count (config m)))] ∧
    handshakes (cpus_of m) 0 N hs ∧
    length (forks hs) = N ∧
    ∀ j, (j < N)%nat → (j < length (default [] (workers m)))%nat →
      worker_id (slot m' j) = Z.of_nat j ∧
      cpu_id (slot m' j) = cpus_of m !!! j ∧
      eventfd (slot m' j) = -1 ∧ 0 < pid (slot m' j) ∧
      forks hs !! j = Some (pid (slot m' j)).
Proof.
  intros Hparent Hrun Hrole N. pose proof Hrun as Hloop.
  apply fork_workers_outcome in Hrun
    as (m' & ro & emitted & final & k & hs & tail & -> & Hc & _ & Htr & -> & Hhs
        & Hend & Hro & Hcases).
  cbn in Hrole.
  destruct Hcases as [(_ & Hne & _ & Hdone)|(Ht & _)]; [|congruence].
  destruct ro as [e|]; [destruct Hro as [<- _]; done|].
  destruct Hro as (_ & -> & ->). inversion Hend; subst.
  destruct (Hdone eq_refl) as [_ Hslots].
  rewrite app_nil_r in Htr.
  unfold worker_manager_fork_workers, bind at 1 in Hloop.
  destruct (fork_loop os _ 0 m w) as [[ro1 m1] w1] eqn:Hfork.
  assert (ro1 = None ∧ m1 = m' ∧
          trace w' = trace w1
                     ++ [Ev_log_info (Msg_running_with (worker_count (config m)))])
    as (-> & -> & Hlast).
  { pose proof Hfork as Hkind.
    apply fork_loop_trace in Hkind as (Hc1 & _).
    apply fork_loop_outcome in Hfork as (_ & em & _ & Hcases); [|lia].
    destruct ro1 as [e|].
    - unfold ret in Hloop. injection Hloop as -> <- <-.
      destruct Hcases as [(_ & Hno & _)|(Ht & _)]; [done|congruence].
    - unfold bind, log_info, emit, ret in Hloop. cbn in Hloop.
      injection Hloop as <- <-. rewrite Hc1. done. }
  apply fork_loop_pids in Hfork as (_ & _ & emitted & Htr1 & Hcount & Hpids).
  assert (emitted = hs) as ->.
  { rewrite Htr1, <- app_assoc in Hlast. rewrite Htr in Hlast.
    apply app_inv_head in Hlast. now apply app_inv_tail in Hlast. }
  exists m', hs. split_and!; try done.
  intros j Hj Hin. destruct (Hslots j Hj Hin) as (? & ? & ? & ?).
  split_and!; try done.
  specialize (Hpids j ltac:(lia) Hin). now rewrite Nat.sub_0_r in Hpids.
Qed.

(** X4.  In the process that stays the parent, whatever
    [worker_manager_fork_workers] returns (success, a failed [eventfd],
    a failed [fork], a failed wait for readiness), every channel
    descriptor it created has been closed by it, in the order of
    creation: the parent leaves the call without an open channel. *)
Theorem parent_leaves_no_channel_open (m : worker_manager_t)
    (manager' : option worker_manager_t) (w w' : world) (r : process_error_t)
    (emitted : list event) :
  type m = PROCESS_TYPE_PARENT →
  worker_manager_fork_workers os (Some m) w = ((r, manager'), w') →
  worker_manager_get_type manager' = PROCESS_TYPE_PARENT →
  trace w' = trace w ++ emitted →
  opened emitted = closed emitted.
Proof.
  intros Hparent Hrun Hrole Hem.
  apply fork_workers_outcome in Hrun
    as (m' & ro & loop_emitted & final & k & hs & tail & -> & _ & _ & Htr & _ & _
        & _ & Hro & Hcases).
  cbn in Hrole. rewrite Htr in Hem. apply app_inv_head in Hem. subst emitted.
  destruct Hcases as [(_ & _ & Hbal & _)|(Ht & _)]; [|congruence].
  rewrite opened_app, closed_app, Hbal.
  destruct ro; [destruct Hro as [_ ->]|destruct Hro as (_ & _ & ->)]; reflexivity.
Qed.

(** X5.  In the process that became a worker, [worker_manager_fork_workers]
    returns either [PROCESS_ERROR_INVALID_PARAM], with every channel
    created so far closed, or [PROCESS_OK], with exactly one channel left
    open: its own, recorded in its own slot; no lower slot holds an open
    descriptor, its index is inside the pool and
    [worker_manager_get_cpu_id] is [cpu_ids] at that index. *)
Theorem worker_keeps_only_its_channel (m : worker_manager_t)
    (manager' : option worker_manager_t) (w w' : world) (r : process_error_t)
    (emitted : list event) :
  type m = PROCESS_TYPE_PARENT →
  worker_manager_fork_workers os (Some m) w = ((r, manager'), w') →
  worker_manager_get_type manager' = PROCESS_TYPE_WORKER →
  trace w' = trace w ++ emitted →
  ∃ (m' : worker_manager_t) (i : nat),
    manager' = Some m' ∧
    worker_manager_get_worker_id manager' = Z.of_nat i ∧
    Z.of_nat i < worker_count (config m) ∧
    ((r = PROCESS_ERROR_INVALID_PARAM ∧ opened emitted = closed emitted) ∨
     (r = PROCESS_OK ∧
      ∃ efd, efd ≠ -1 ∧ opened emitted = closed emitted ++ [efd] ∧
        (∀ j, (j < i)%nat → eventfd (slot m' j) ≤ 0) ∧
        ((i < length (default [] (workers m)))%nat →
           eventfd (slot m' i) = efd ∧
           worker_manager_get_cpu_id manager' = cpus_of m !!! i))).
Proof.
  intros Hparent Hrun Hrole Hem.
  apply fork_workers_outcome in Hrun
    as (m' & ro & loop_emitted & final & k & hs & tail & -> & Hc & _ & Htr & _ & _
        & _ & Hro & Hcases).
  cbn in Hrole. rewrite Htr in Hem. apply app_inv_head in Hem. subst emitted.
  destruct Hcases as [(Ht & _)|(_ & i & efd & Hi & Hrange & Hchild)]; [congruence|].
  exists m', i.
  assert (worker_manager_get_worker_id (Some m') = Z.of_nat i) as Hid.
  { cbn. rewrite Hrole. cbn. exact Hi. }
  split_and!; [done|done|lia|].
  destruct Hchild as [(-> & Hbal)|(-> & Hfd & Hbal & Hown & Hlow)];
    destruct Hro as [<- ->]; rewrite app_nil_r.
  - left. done.
  - right. split; [done|]. exists efd. split_and!; try done.
    intros Hin. destruct (Hown Hin) as [Hefd Hcpu]. split; [done|].
    cbn. rewrite Hrole, Hi, Hc. cbn.
    destruct (Z.ltb_spec (Z.of_nat i) 0); [lia|].
    destruct (Z.leb_spec (worker_count (config m)) (Z.of_nat i)); [lia|].
    cbn. now rewrite Nat2Z.id.
Qed.

(** X6.  After [worker_manager_fork_workers] has returned [PROCESS_OK] to
    the parent, [worker_manager_cleanup] finds no descriptor to close: it
    only releases the two arrays. *)
Theorem parent_cleanup_closes_nothing (m : worker_manager_t)
    (manager' : option worker_manager_t) (w w' : world) :
  type m = PROCESS_TYPE_PARENT →
  worker_manager_fork_workers os (Some m) w = ((PROCESS_OK, manager'), w') →
  worker_manager_get_type manager' = PROCESS_TYPE_PARENT →
  ∃ released,
    worker_manager_cleanup manager' w'
    = (Some zero_manager,
       mk_world (system_initialized w') (trace w' ++ released)) ∧
    closed released = [] ∧
    released = (if is_null (cpu_ids (config m)) then [] else [Ev_free Blk_cpu_ids])
               ++ (if is_null (workers m) then [] else [Ev_free Blk_workers]).
Proof.
  intros Hparent Hrun Hrole.
  apply fork_workers_outcome in Hrun
    as (m' & ro & emitted & final & k & hs & tail & -> & Hc & Hw & _ & _ & _
        & _ & Hro & Hcases).
  cbn in Hrole.
  destruct Hcases as [(_ & Hne & _ & Hdone)|(Ht & _)]; [|congruence].
  destruct ro as [e|]; [destruct Hro as [<- _]; done|].
  destruct (Hdone eq_refl) as [Hall _].
  assert (open_descriptors m' 0 (Z.to_nat (worker_count (config m))) = []) as Hnone.
  { apply open_descriptors_none. intros j Hj. apply Hall. lia. }
  exists ((if is_null (cpu_ids (config m)) then [] else [Ev_free Blk_cpu_ids])
          ++ (if is_null (workers m) then [] else [Ev_free Blk_workers])).
  split; [|split; [|reflexivity]].
  - unfold worker_manager_cleanup, bind, system_free, emit, ret.
    rewrite Hc, Hw. destruct w' as [init' trace'].
    destruct (is_null (cpu_ids (config m))), (is_null (workers m)); cbn;
      rewrite ?close_open_eventfds_spec, ?Hnone; cbn;
      rewrite ?app_nil_r, <- ?app_assoc; reflexivity.
  - destruct (is_null (cpu_ids (config m))), (is_null (workers m)); reflexivity.
Qed.

Lemma handshakes_no_failed_call cpus i k t :
  handshakes cpus i k t →
  (Ev_eventfd (-1) ∉ t) ∧ (∀ fd, Ev_eventfd_read fd (-1) ∉ t).
Proof.
  induction 1 as [|i k efd pid rd rest ? ? ? ? [IH1 IH2]].
  - split; [|intros fd]; apply not_elem_of_nil.
  - split; [|intros fd]; rewrite elem_of_app; intros [Hin|Hin];
      try (now apply IH1 in Hin); try (now apply IH2 in Hin);
      unfold handshake in Hin;
      repeat (apply elem_of_cons in Hin as [Hin|Hin]; [congruence|]);
      now apply elem_of_nil in Hin.
Qed.

(** X7.  If an [eventfd()] made by [worker_manager_fork_workers] fails,
    it is the one for some worker index k below [worker_count]: the
    handshakes of the workers 0 .. k-1 are complete, nothing happens
    after the failed call (no process is forked for k or any later
    index), and the result is [PROCESS_ERROR_EVENTFD]. *)
Theorem eventfd_failure_aborts (m : worker_manager_t)
    (manager' : option worker_manager_t) (w w' : world) (r : process_error_t)
    (emitted : list event) :
  worker_manager_fork_workers os (Some m) w = ((r, manager'), w') →
  trace w' = trace w ++ emitted →
  Ev_eventfd (-1) ∈ emitted →
  r = PROCESS_ERROR_EVENTFD ∧
  ∃ (k : nat) (hs : list event),
    Z.of_nat k < worker_count (config m) ∧
    handshakes (cpus_of m) 0 k hs ∧
    emitted = hs ++ [Ev_eventfd (-1)].
Proof.
  intros Hrun Hem Hin.
  apply fork_workers_trace in Hrun
    as (k & hs & tail & final & ro & Htr & Hhs & Hend & Hro).
  rewrite Htr in Hem. apply app_inv_head in Hem. subst emitted.
  apply elem_of_app in Hin as [Hin|Hin].
  { now apply (handshakes_no_failed_call _ _ _ _ Hhs) in Hin. }
  destruct Hend as [| |efd Hefd|efd pid Hefd Hpid|efd pid e tail Hefd Hpid Hle Hno].
  - destruct Hro as (_ & _ & ->). cbn in Hin.
    apply list_elem_of_singleton in Hin. discriminate.
  - destruct Hro as (-> & Hk & ->). split; [reflexivity|].
    exists k, hs. split_and!; [lia|done|reflexivity].
  - destruct Hro as (_ & _ & ->). cbn in Hin.
    repeat (apply elem_of_cons in Hin as [Hin|Hin]; [congruence|]).
    now apply elem_of_nil in Hin.
  - destruct Hro as (_ & _ & ->). cbn in Hin.
    repeat (apply elem_of_cons in Hin as [Hin|Hin]; [congruence|]).
    now apply elem_of_nil in Hin.
  - destruct Hro as (_ & _ & ->). rewrite app_nil_r in Hin. cbn in Hin.
    apply elem_of_cons in Hin as [Hin|Hin]; [congruence|].
    apply elem_of_cons in Hin as [Hin|Hin]; [discriminate|].
    rewrite list.Forall_forall in Hno. apply Hno in Hin. now cbn in Hin.
Qed.

(** After a failed wait for readiness the slot of that worker still
    records the channel descriptor. *)
Lemma fork_loop_await_stale (n : nat) :
  ∀ (i : nat) (m m' : worker_manager_t) (w w' : world)
    (r : option process_error_t) (emitted : list event) (efd : Z),
    type m = PROCESS_TYPE_PARENT → type m' = PROCESS_TYPE_PARENT →
    fork_loop os n i m w = ((r, m'), w') →
    trace w' = trace w ++ emitted →
    Ev_eventfd_read efd (-1) ∈ emitted →
    r = Some PROCESS_ERROR_EVENTFD ∧
    ∃ (k : nat) (hs : list event) (pid : Z),
      (i ≤ k < i + n)%nat ∧ 0 < pid ∧ handshakes (cpus_of m) i k hs ∧
      emitted = hs ++ [Ev_eventfd efd; Ev_fork pid; Ev_eventfd_read efd (-1);
                       Ev_close efd] ∧
      ((k < length (default [] (workers m)))%nat → eventfd (slot m' k) = efd).
Proof.
  induction n as [|n IH]; intros i m m' w w' r emitted fd Hp Hp'; cbn.
  - unfold ret. intros [= <- <- <-] Hem Hin.
    rewrite <- (app_nil_r (trace w)) in Hem at 1.
    apply app_inv_head in Hem. subst. now apply elem_of_nil in Hin.
  - unfold bind at 1, sys_eventfd, syscall. cbn.
    set (efd := os_eventfd os (trace w)).
    destruct (Z.eqb_spec efd (-1)) as [Hefd|Hefd].
    { unfold ret. intros [= <- <- <-] Hem Hin. cbn in Hem.
      apply app_inv_head in Hem. subst.
      apply list_elem_of_singleton in Hin. discriminate. }
    unfold bind at 1, sys_fork, syscall. cbn.
    set (pid := os_fork os (trace w ++ [Ev_eventfd efd])).
    destruct (Z.eqb_spec pid (-1)) as [Hpid|Hpid].
    { unfold bind, sys_close, emit, ret. cbn. intros [= <- <- <-] Hem Hin.
      cbn in Hem. rewrite <- !app_assoc in Hem. apply app_inv_head in Hem. subst.
      repeat (apply elem_of_cons in Hin as [Hin|Hin]; [discriminate|]).
      now apply elem_of_nil in Hin. }
    destruct (Z.ltb_spec 0 pid) as [Hpos|Hnonpos].
    + unfold bind at 1.
      destruct (fork_parent os i efd pid m _) as [[r1 m1] w1] eqn:Hpar.
      pose proof (fork_parent_length _ _ _ _ _ _ _ _ Hpar) as Hlen1.
      pose proof Hpar as Hspec.
      apply fork_parent_spec in Hspec as (Hc1 & Ht1 & _ & _ & Hspec). cbn in Hspec.
      set (rd := os_eventfd_read os ((trace w ++ [Ev_eventfd efd]) ++
                   [Ev_fork pid]) efd) in *.
      destruct (Z.eqb_spec rd (-1)) as [Hrd|Hrd].
      * destruct Hspec as [-> Htr1]. unfold ret. intros [= <- <- <-] Hem Hin.
        rewrite Htr1, <- !app_assoc in Hem. apply app_inv_head in Hem. subst emitted.
        cbn in Hin.
        do 2 (apply elem_of_cons in Hin as [Hin|Hin]; [discriminate|]).
        apply elem_of_cons in Hin as [Hin|Hin];
          [|apply elem_of_cons in Hin as [Hin|Hin];
            [discriminate|now apply elem_of_nil in Hin]].
        injection Hin as -> _. split; [reflexivity|].
        exists i, [], pid. split_and!; [lia|lia|done|constructor| |].
        { cbn. now rewrite Hrd. }
        intros Hin.
        revert Hpar. unfold fork_parent, bind at 1, sys_eventfd_read, syscall. cbn.
        fold rd. rewrite Hrd. cbn. unfold bind, sys_close, emit, ret. cbn.
        intros [= <- _].
        repeat (rewrite slot_update_slot_eq
                  by (rewrite ?update_slot_length; exact Hin)).
        reflexivity.
      * destruct Hspec as (-> & Htr1 & _). intros Hrun Hem Hin.
        pose proof Hrun as Hext.
        apply fork_loop_trace in Hext as (_ & k0 & hs0 & tail0 & Htr & _).
        rewrite Htr, Htr1, <- !app_assoc in Hem. apply app_inv_head in Hem.
        subst emitted. cbn in Hin.
        do 2 (apply elem_of_cons in Hin as [Hin|Hin]; [discriminate|]).
        apply elem_of_cons in Hin as [Hin|Hin]; [congruence|].
        do 2 (apply elem_of_cons in Hin as [Hin|Hin]; [discriminate|]).
        destruct (IH (S i) m1 m' w1 w' r (hs0 ++ tail0) fd)
          as (-> & k & hs & pid' & Hk & Hpid' & Hhs & Hshape & Hslot);
          [congruence|done|done|done|done|].
        split; [reflexivity|].
        exists k, (handshake (cpus_of m) i efd pid rd ++ hs), pid'.
        split_and!; [lia|lia|done| | |].
        -- constructor; try done.
           unfold cpus_of in *. now rewrite <- Hc1.
        -- cbn. rewrite Hshape. reflexivity.
        -- intros Hin'. apply Hslot. congruence.
    + unfold bind at 1.
      destruct (fork_child os i efd m _) as [[e m1] w1] eqn:Hchild.
      apply fork_child_spec in Hchild as (_ & Ht & _).
      unfold ret. intros [= <- <- <-]. congruence.
Qed.

Lemma open_descriptors_member (m : worker_manager_t) (n : nat) :
  ∀ i k, (i ≤ k < i + n)%nat → 0 < eventfd (slot m k) →
         eventfd (slot m k) ∈ open_descriptors m i n.
Proof.
  unfold open_descriptors.
  induction n as [|n IH]; intros i k Hk Hopen; [lia|]. cbn.
  destruct (decide (k = i)) as [->|Hne].
  - destruct (Z.ltb_spec 0 (eventfd (slot m i))); [left|lia].
  - assert (eventfd (slot m k)
            ∈ omap (λ j, if 0 <? eventfd (slot m j)
                         then Some (eventfd (slot m j)) else None) (seq (S i) n))
      as Hin by (apply IH; [lia|done]).
    destruct (0 <? eventfd (slot m i)); [now right|done].
Qed.

(** X8.  If the parent's blocking read on the channel of worker k fails,
    [worker_manager_fork_workers] closes the channel and returns
    [PROCESS_ERROR_EVENTFD] with worker k already forked; slot k still
    records the closed descriptor, so a following
    [worker_manager_cleanup] closes that descriptor number a second
    time. *)
Theorem await_failure_leaves_stale_descriptor (m : worker_manager_t)
    (manager' : option worker_manager_t) (w w' : world) (r : process_error_t)
    (emitted : list event) (efd : Z) :
  type m = PROCESS_TYPE_PARENT →
  length (default [] (workers m)) = Z.to_nat (worker_count (config m)) →
  worker_manager_fork_workers os (Some m) w = ((r, manager'), w') →
  worker_manager_get_type manager' = PROCESS_TYPE_PARENT →
  trace w' = trace w ++ emitted →
  Ev_eventfd_read efd (-1) ∈ emitted →
  0 < efd →
  r = PROCESS_ERROR_EVENTFD ∧
  (∃ (k : nat) (hs : list event) (pid : Z),
     Z.of_nat k < worker_count (config m) ∧ 0 < pid ∧
     handshakes (cpus_of m) 0 k hs ∧
     emitted = hs ++ [Ev_eventfd efd; Ev_fork pid; Ev_eventfd_read efd (-1);
                      Ev_close efd]) ∧
  ∃ released,
    worker_manager_cleanup manager' w'
    = (Some zero_manager, mk_world (system_initialized w') (trace w' ++ released)) ∧
    efd ∈ closed released.
Proof.
  intros Hparent Hwf Hrun Hrole Hem Hin Hpos.
  unfold worker_manager_fork_workers, bind at 1 in Hrun.
  destruct (fork_loop os _ 0 m w) as [[ro m1] w1] eqn:Hloop.
  pose proof (fork_loop_null _ _ _ _ _ _ _ Hloop) as Hnull.
  pose proof Hloop as Htrace.
  apply fork_loop_trace in Htrace as (Hc & _ & hs0 & tail0 & Htr & _).
  assert (manager' = Some m1 ∧ ∃ final, trace w' = trace w1 ++ final ∧
            (ro = None → final
               = [Ev_log_info (Msg_running_with (worker_count (config m1)))]) ∧
            (ro ≠ None → final = [] ∧ ro = Some r))
    as (-> & final & Hfin & Hfin_none & Hfin_some).
  { destruct ro as [e|].
    - unfold ret in Hrun. injection Hrun as <- <- <-. split; [done|].
      exists []. rewrite app_nil_r. done.
    - unfold bind, log_info, emit, ret in Hrun. cbn in Hrun.
      injection Hrun as <- <- <-. split; [done|]. eexists. done. }
  cbn in Hrole.
  assert (Ev_eventfd_read efd (-1) ∈ hs0 ++ tail0) as Hin0.
  { rewrite Hfin, Htr, <- app_assoc in Hem. apply app_inv_head in Hem.
    subst emitted. apply elem_of_app in Hin as [Hin|Hin]; [done|].
    destruct ro as [e|].
    - destruct (Hfin_some ltac:(done)) as [-> _]. now apply elem_of_nil in Hin.
    - rewrite (Hfin_none eq_refl) in Hin.
      apply list_elem_of_singleton in Hin. discriminate. }
  destruct (fork_loop_await_stale _ _ _ _ _ _ _ _ efd Hparent Hrole Hloop Htr Hin0)
    as (-> & k & hs & pid & Hk & Hpid & Hhs & Hshape & Hslot).
  destruct (Hfin_some ltac:(done)) as [-> [= <-]].
  rewrite app_nil_r in Hfin.
  assert (emitted = hs0 ++ tail0) as ->.
  { rewrite Hfin, Htr in Hem. now apply app_inv_head in Hem. }
  split; [reflexivity|]. split.
  { exists k, hs, pid. split_and!; try done. lia. }
  assert (efd ∈ open_descriptors m1 0 (Z.to_nat (worker_count (config m)))) as Hopen.
  { rewrite <- (Hslot ltac:(lia)).
    apply open_descriptors_member; [lia|]. rewrite (Hslot ltac:(lia)). done. }
  assert (is_null (workers m1) = false) as Hw.
  { rewrite Hnull. destruct (workers m) as [ws|]; [reflexivity|].
    cbn in Hwf. lia. }
  exists ((if is_null (cpu_ids (config m)) then [] else [Ev_free Blk_cpu_ids])
          ++ map Ev_close (open_descriptors m1 0 (Z.to_nat (worker_count (config m))))
          ++ [Ev_free Blk_workers]).
  split.
  - unfold worker_manager_cleanup, bind, system_free, emit, ret.
    rewrite Hc, Hw. destruct w' as [init' trace'].
    destruct (is_null (cpu_ids (config m))); cbn;
      rewrite ?close_open_eventfds_spec; cbn;
      rewrite ?app_nil_r, <- ?app_assoc; reflexivity.
  - rewrite !closed_app, !elem_of_app. right. left.
    clear -Hopen. induction (open_descriptors _ _ _) as [|fd l IHl];
      [now apply elem_of_nil in Hopen|].
    cbn. apply elem_of_cons in Hopen as [->|Hopen]; [left|right; auto].
Qed.

End Descriptors.

(** *** Allocation failure in initialisation *)

Section Init_failure.

Variable os : os_t.

Lemma init_rejects (m : worker_manager_t) (c : worker_config_t) (w : world) :
  worker_count c ≤ 0 ∨ cpu_ids c = None →
  worker_manager_init os (Some m) (Some c) w
  = ((PROCESS_ERROR_INVALID_PARAM, Some m), w).
Proof.
  intros Hbad. unfold worker_manager_init.
  destruct (Z.leb_spec (worker_count c) 0) as [|Hpos]; [reflexivity|].
  destruct Hbad as [Hle | ->]; [lia|]. reflexivity.
Qed.

(** The run of [worker_manager_init] in which the first allocation
    succeeds and the second one fails. *)
Lemma init_slot_failure_run (m : worker_manager_t) (c : worker_config_t)
    (w : world) :
  0 < worker_count c →
  cpu_ids c ≠ None →
  let w0 := (system_init w).2 in
  os_malloc os (trace w0) (worker_count c * sizeof_int) = true →
  os_malloc os (trace w0 ++ [Ev_malloc (worker_count c * sizeof_int) true])
    (worker_count c * sizeof_worker_context) = false →
  ∃ m1,
    worker_manager_init os (Some m) (Some c) w
    = ((PROCESS_ERROR_INVALID_PARAM, Some m1),
       mk_world true
         (trace w0 ++ [Ev_malloc (worker_count c * sizeof_int) true;
                       Ev_malloc (worker_count c * sizeof_worker_context) false;
                       Ev_free Blk_cpu_ids])) ∧
    is_null (cpu_ids (config m1)) = false ∧ workers m1 = None.
Proof.
  intros Hpos Hsrc w0 Hfirst Hsecond. unfold worker_manager_init.
  destruct (Z.leb_spec (worker_count c) 0) as [|_]; [lia|].
  destruct (cpu_ids c) as [src|] eqn:Hcpu; [|done]. cbn [orb is_null].
  unfold bind at 1.
  assert (system_init w = (SYSTEM_OK, w0) ∧ system_initialized w0 = true)
    as [-> Hinit].
  { unfold w0, system_init. destruct (system_initialized w) eqn:Hi; done. }
  rewrite bool_decide_eq_true_2 by reflexivity. cbn [negb]. unfold system_malloc.
  assert ((worker_count c * sizeof_int =? 0) = false) as ->
    by (apply Z.eqb_neq; unfold sizeof_int; lia).
  assert ((worker_count c * sizeof_worker_context =? 0) = false) as ->
    by (apply Z.eqb_neq; unfold sizeof_worker_context; lia).
  unfold bind, syscall, system_free, emit, ret. cbn [fst snd trace].
  rewrite Hfirst. cbn [negb fst snd trace system_initialized].
  rewrite Hsecond. cbn [negb fst snd trace system_initialized].
  eexists. split.
  { rewrite Hinit, <- !app_assoc. reflexivity. }
  split; reflexivity.
Qed.

(** X9.  If the allocation of the slot array fails,
    [worker_manager_init] releases the copy of the CPU ids it has just
    made and returns [PROCESS_ERROR_INVALID_PARAM], but the manager keeps
    the pointer to the released array and has no slot array; a following
    [worker_manager_cleanup] therefore releases the CPU-id array a second
    time. *)
Theorem init_slot_allocation_failure (m : worker_manager_t) (c : worker_config_t)
    (manager1 : option worker_manager_t) (w w1 : world) (r : process_error_t)
    (emitted : list event) :
  worker_manager_init os (Some m) (Some c) w = ((r, manager1), w1) →
  trace w1 = trace w ++ emitted →
  Ev_malloc (worker_count c * sizeof_worker_context) false ∈ emitted →
  r = PROCESS_ERROR_INVALID_PARAM ∧
  (∃ setup,
     (setup = [] ∨ setup = [Ev_signal_ignore_sigpipe]) ∧
     emitted = setup ++ [Ev_malloc (worker_count c * sizeof_int) true;
                         Ev_malloc (worker_count c * sizeof_worker_context) false;
                         Ev_free Blk_cpu_ids]) ∧
  (∃ m1, manager1 = Some m1 ∧ is_null (cpu_ids (config m1)) = false ∧
         workers m1 = None) ∧
  worker_manager_cleanup manager1 w1
  = (Some zero_manager,
     mk_world (system_initialized w1) (trace w1 ++ [Ev_free Blk_cpu_ids])).
Proof.
  unfold worker_manager_init.
  destruct (Z.leb_spec (worker_count c) 0) as [Hle|Hpos]; cbn.
  { unfold ret. intros [= <- <- <-] Hem Hin.
    rewrite <- (app_nil_r (trace w)) in Hem at 1. apply app_inv_head in Hem.
    subst. now apply elem_of_nil in Hin. }
  destruct (cpu_ids c) as [src|] eqn:Hsrc; cbn.
  2:{ unfold ret. intros [= <- <- <-] Hem Hin.
      rewrite <- (app_nil_r (trace w)) in Hem at 1. apply app_inv_head in Hem.
      subst. now apply elem_of_nil in Hin. }
  unfold bind at 1.
  assert (∃ setup w0, system_init w = (SYSTEM_OK, w0) ∧
            (setup = [] ∨ setup = [Ev_signal_ignore_sigpipe]) ∧
            trace w0 = trace w ++ setup) as (setup & w0 & -> & Hsetup & Htr0).
  { unfold system_init. destruct (system_initialized w).
    - exists [], w. rewrite app_nil_r. auto.
    - eexists [_], _. split; [reflexivity|]. cbn. auto. }
  cbn. rewrite bool_decide_eq_true_2 by reflexivity. cbn. unfold system_malloc.
  assert ((worker_count c * sizeof_int =? 0) = false) as ->
    by (apply Z.eqb_neq; unfold sizeof_int; lia).
  assert ((worker_count c * sizeof_worker_context =? 0) = false) as ->
    by (apply Z.eqb_neq; unfold sizeof_worker_context; lia).
  unfold bind, syscall, system_free, emit, ret; cbn.
  destruct (os_malloc os (trace w0) (worker_count c * sizeof_int)) eqn:Hp; cbn.
  2:{ intros [= <- <- <-] Hem Hin. cbn in Hem. rewrite Htr0, <- app_assoc in Hem.
      apply app_inv_head in Hem. subst emitted.
      apply elem_of_app in Hin as [Hin|Hin].
      - destruct Hsetup as [-> | ->]; [now apply elem_of_nil in Hin|].
        apply list_elem_of_singleton in Hin. discriminate.
      - apply list_elem_of_singleton in Hin. injection Hin as Hsize.
        unfold sizeof_int, sizeof_worker_context in Hsize. lia. }
  destruct (os_malloc os _ (worker_count c * sizeof_worker_context)) eqn:Hq; cbn.
  { intros [= <- <- <-] Hem Hin. cbn in Hem. rewrite Htr0, <- !app_assoc in Hem.
    apply app_inv_head in Hem. subst emitted.
    apply elem_of_app in Hin as [Hin|Hin].
    - destruct Hsetup as [-> | ->]; [now apply elem_of_nil in Hin|].
      apply list_elem_of_singleton in Hin. discriminate.
    - repeat (apply elem_of_cons in Hin as [Hin|Hin]; [discriminate|]).
      now apply elem_of_nil in Hin. }
  intros [= <- <- <-] Hem _. cbn in Hem. rewrite Htr0, <- !app_assoc in Hem.
  apply app_inv_head in Hem. subst emitted.
  split; [reflexivity|]. split; [exists setup; done|].
  split; [eexists; split_and!; reflexivity|]. reflexivity.
Qed.

End Init_failure.

(** *** The CPUs available to the process *)

Lemma collect_cpus_spec (set : nat → bool) (total : nat) (n : nat) :
  ∀ (abs rel : nat) (ids : list Z),
    length ids = total →
    (rel + length (filter (λ c, set c = true) (seq abs n)) = total)%nat →
    collect_cpus set total n abs rel ids
    = take rel ids ++ map Z.of_nat (filter (λ c, set c = true) (seq abs n)).
Proof.
  induction n as [|n IH]; intros abs rel ids Hlen Hcount.
  - cbn in *. rewrite app_nil_r. rewrite take_ge by lia. reflexivity.
  - cbn [seq] in *. rewrite filter_cons in *. cbn [collect_cpus].
    destruct (decide (set abs = true)) as [Hset|Hclear].
    + rewrite Hset. cbn in Hcount.
      assert (take rel (<[rel := Z.of_nat abs]> ids) = take rel ids) as Htake
        by (apply take_insert_ge; lia).
      destruct (Nat.eqb_spec (S rel) total) as [Hfull|Hmore].
      * assert (filter (λ c, set c = true) (seq (S abs) n) = []) as ->
          by (apply length_zero_iff_nil; lia).
        cbn. rewrite insert_take_drop by lia. rewrite drop_ge by lia. reflexivity.
      * rewrite IH; [|now rewrite length_insert|lia].
        cbn. rewrite (take_S_r _ _ (Z.of_nat abs)).
        -- rewrite Htake, <- app_assoc. reflexivity.
        -- apply list_lookup_insert_eq. lia.
    + destruct (set abs); [done|]. apply IH; [done|]. exact Hcount.
Qed.

Section Cpu_info.

Variable os : os_t.

Lemma system_get_cpu_info_spec (old : system_cpu_info_t)
    (online : option (nat → bool)) (garbage : nat → Z) (w : world) :
  let '((r, info), w') := system_get_cpu_info os (Some old) online garbage w in
  match online with
  | None => r = SYSTEM_ERROR_CPU_COUNT ∧ info = Some old ∧ w' = w
  | Some set =>
    let cpus := filter (λ c, set c = true) (seq 0 CPU_SETSIZE) in
    match cpus with
    | [] => r = SYSTEM_ERROR_CPU_COUNT ∧ info = Some old ∧ w' = w
    | _ :: _ =>
      let size := Z.of_nat (length cpus) * sizeof_int in
      trace w' = trace w ++ [Ev_malloc size (os_malloc os (trace w) size)] ∧
      if os_malloc os (trace w) size
      then r = SYSTEM_OK ∧
           info = Some (mk_system_cpu_info (Z.of_nat (length cpus))
                          (Some (map Z.of_nat cpus)))
      else r = SYSTEM_ERROR_MEMORY ∧ info = Some old
    end
  end.
Proof.
  unfold system_get_cpu_info. destruct online as [set|]; [|done].
  unfold CPU_COUNT.
  destruct (filter (λ c, set c = true) (seq 0 CPU_SETSIZE)) as [|c cpus] eqn:Hcpus;
    [done|].
  destruct (Z.leb_spec (Z.of_nat (length (c :: cpus))) 0) as [Hle|_];
    [cbn in Hle; lia|].
  unfold bind, system_malloc.
  assert ((Z.of_nat (length (c :: cpus)) * sizeof_int =? 0) = false) as ->
    by (apply Z.eqb_neq; unfold sizeof_int; cbn [length]; lia).
  unfold syscall, ret. cbn [negb fst snd trace].
  destruct (os_malloc os (trace w) _) eqn:Hp; cbn [negb]; split; try done.
  split; [reflexivity|]. do 2 f_equal. f_equal.
  rewrite collect_cpus_spec.
  - rewrite Hcpus. reflexivity.
  - now rewrite length_map, length_seq.
  - rewrite Hcpus. reflexivity.
Qed.

(** X10.  [system_get_cpu_info] succeeds exactly when the affinity query
    succeeds, the set it returns has a CPU in it and the array can be
    allocated.  It then reports as [count] the number of CPUs in the set
    and as [cpu_ids] those CPUs in ascending order, each once; nothing of
    what the allocated array contained before is left in it.  On every
    failure the caller's structure is left as it was. *)
Theorem cpu_info_lists_online_cpus (old : system_cpu_info_t)
    (online : option (nat → bool)) (garbage : nat → Z) (w : world) :
  let '((r, info), w') := system_get_cpu_info os (Some old) online garbage w in
  match online with
  | None => r = SYSTEM_ERROR_CPU_COUNT ∧ info = Some old ∧ w' = w
  | Some set =>
    let cpus := filter (λ c, set c = true) (seq 0 CPU_SETSIZE) in
    match cpus with
    | [] => r = SYSTEM_ERROR_CPU_COUNT ∧ info = Some old ∧ w' = w
    | _ :: _ =>
      let size := Z.of_nat (length cpus) * sizeof_int in
      trace w' = trace w ++ [Ev_malloc size (os_malloc os (trace w) size)] ∧
      if os_malloc os (trace w) size
      then r = SYSTEM_OK ∧
           info = Some (mk_system_cpu_info (Z.of_nat (length cpus))
                          (Some (map Z.of_nat cpus)))
      else r = SYSTEM_ERROR_MEMORY ∧ info = Some old
    end
  end.
Proof. apply system_get_cpu_info_spec. Qed.

End Cpu_info.

Lemma parent_success_handshakes_all_witness :
  let run := worker_manager_fork_workers (os_fine 0) (Some parent_of_two)
               fresh_world in
  ∃ m' hs,
    run.1.2 = Some m' ∧ config m' = config parent_of_two ∧
    trace run.2 = trace fresh_world ++ hs ++ [Ev_log_info (Msg_running_with 2)] ∧
    handshakes [2; 3] 0 2 hs ∧
    length (forks hs) = 2%nat ∧
    ∀ j, (j < 2)%nat → (j < 2)%nat →
      worker_id (slot m' j) = Z.of_nat j ∧
      cpu_id (slot m' j) = [2; 3] !!! j ∧
      eventfd (slot m' j) = -1 ∧ 0 < pid (slot m' j) ∧
      forks hs !! j = Some (pid (slot m' j)).
Proof.
  cbv zeta.
  destruct (worker_manager_fork_workers (os_fine 0) (Some parent_of_two) fresh_world)
    as [[r mo] w'] eqn:Hrun.
  pose proof Hrun as Hval. vm_compute in Hval. injection Hval as <- <- <-.
  exact (parent_success_handshakes_all (os_fine 0) parent_of_two _ fresh_world _
           eq_refl Hrun eq_refl).
Defined.

Lemma parent_leaves_no_channel_open_witness :
  let run := worker_manager_fork_workers os_second_fork_fails (Some parent_of_two)
               fresh_world in
  opened (trace run.2) = closed (trace run.2).
Proof.
  cbv zeta.
  destruct (worker_manager_fork_workers os_second_fork_fails (Some parent_of_two)
              fresh_world) as [[r mo] w'] eqn:Hrun.
  pose proof Hrun as Hval. vm_compute in Hval. injection Hval as <- <- <-.
  exact (parent_leaves_no_channel_open os_second_fork_fails parent_of_two _
           fresh_world _ _ _ eq_refl Hrun eq_refl eq_refl).
Defined.

Lemma worker_keeps_only_its_channel_witness :
  let run := worker_manager_fork_workers os_in_child (Some parent_of_two)
               fresh_world in
  ∃ (m' : worker_manager_t) (i : nat),
    run.1.2 = Some m' ∧
    worker_manager_get_worker_id run.1.2 = Z.of_nat i ∧
    Z.of_nat i < 2 ∧
    ((run.1.1 = PROCESS_ERROR_INVALID_PARAM ∧
      opened (trace run.2) = closed (trace run.2)) ∨
     (run.1.1 = PROCESS_OK ∧
      ∃ efd, efd ≠ -1 ∧ opened (trace run.2) = closed (trace run.2) ++ [efd] ∧
        (∀ j, (j < i)%nat → eventfd (slot m' j) ≤ 0) ∧
        ((i < 2)%nat →
           eventfd (slot m' i) = efd ∧
           worker_manager_get_cpu_id run.1.2 = [2; 3] !!! i))).
Proof.
  cbv zeta.
  destruct (worker_manager_fork_workers os_in_child (Some parent_of_two)
              fresh_world) as [[r mo] w'] eqn:Hrun.
  pose proof Hrun as Hval. vm_compute in Hval. injection Hval as <- <- <-.
  exact (worker_keeps_only_its_channel os_in_child parent_of_two _
           fresh_world _ _ _ eq_refl Hrun eq_refl eq_refl).
Defined.

Lemma parent_cleanup_closes_nothing_witness :
  let run := worker_manager_fork_workers (os_fine 0) (Some parent_of_two)
               fresh_world in
  ∃ released,
    worker_manager_cleanup run.1.2 run.2
    = (Some zero_manager,
       mk_world (system_initialized run.2) (trace run.2 ++ released)) ∧
    closed released = [] ∧
    released = [Ev_free Blk_cpu_ids] ++ [Ev_free Blk_workers].
Proof.
  cbv zeta.
  destruct (worker_manager_fork_workers (os_fine 0) (Some parent_of_two) fresh_world)
    as [[r mo] w'] eqn:Hrun.
  pose proof Hrun as Hval. vm_compute in Hval. injection Hval as <- <- <-.
  exact (parent_cleanup_closes_nothing (os_fine 0) parent_of_two _ fresh_world _
           eq_refl Hrun eq_refl).
Defined.

Lemma eventfd_failure_aborts_witness :
  let run := worker_manager_fork_workers os_second_eventfd_fails
               (Some parent_of_two) fresh_world in
  run.1.1 = PROCESS_ERROR_EVENTFD ∧
  ∃ (k : nat) (hs : list event),
    Z.of_nat k < 2 ∧ handshakes [2; 3] 0 k hs ∧
    trace run.2 = hs ++ [Ev_eventfd (-1)].
Proof.
  cbv zeta.
  destruct (worker_manager_fork_workers os_second_eventfd_fails
              (Some parent_of_two) fresh_world) as [[r mo] w'] eqn:Hrun.
  pose proof Hrun as Hval. vm_compute in Hval. injection Hval as <- <- <-.
  refine (eventfd_failure_aborts os_second_eventfd_fails parent_of_two _
            fresh_world _ _ _ Hrun eq_refl _).
  cbn. do 5 apply list_elem_of_further. apply list_elem_of_here.
Defined.

Lemma await_failure_leaves_stale_descriptor_witness :
  let run := worker_manager_fork_workers os_read_fails (Some parent_of_two)
               fresh_world in
  run.1.1 = PROCESS_ERROR_EVENTFD ∧
  (∃ (k : nat) (hs : list event) (pid : Z),
     Z.of_nat k < 2 ∧ 0 < pid ∧
     handshakes [2; 3] 0 k hs ∧
     trace run.2 = hs ++ [Ev_eventfd 3; Ev_fork pid; Ev_eventfd_read 3 (-1);
                          Ev_close 3]) ∧
  ∃ released,
    worker_manager_cleanup run.1.2 run.2
    = (Some zero_manager,
       mk_world (system_initialized run.2) (trace run.2 ++ released)) ∧
    3 ∈ closed released.
Proof.
  cbv zeta.
  destruct (worker_manager_fork_workers os_read_fails (Some parent_of_two)
              fresh_world) as [[r mo] w'] eqn:Hrun.
  pose proof Hrun as Hval. vm_compute in Hval. injection Hval as <- <- <-.
  refine (await_failure_leaves_stale_descriptor os_read_fails parent_of_two _
            fresh_world _ _ _ 3 eq_refl eq_refl Hrun eq_refl eq_refl _ _);
    [|reflexivity].
  cbn. do 2 apply list_elem_of_further. apply list_elem_of_here.
Defined.

Lemma init_slot_allocation_failure_witness :
  let run := worker_manager_init os_small_allocations (Some zero_manager)
               (Some config_of_two) fresh_world in
  run.1.1 = PROCESS_ERROR_INVALID_PARAM ∧
  (∃ setup,
     (setup = [] ∨ setup = [Ev_signal_ignore_sigpipe]) ∧
     trace run.2 = setup ++ [Ev_malloc 8 true; Ev_malloc 32 false;
                             Ev_free Blk_cpu_ids]) ∧
  (∃ m1, run.1.2 = Some m1 ∧ is_null (cpu_ids (config m1)) = false ∧
         workers m1 = None) ∧
  worker_manager_cleanup run.1.2 run.2
  = (Some zero_manager,
     mk_world (system_initialized run.2) (trace run.2 ++ [Ev_free Blk_cpu_ids])).
Proof.
  cbv zeta.
  destruct (worker_manager_init os_small_allocations (Some zero_manager)
              (Some config_of_two) fresh_world) as [[r mo] w'] eqn:Hrun.
  pose proof Hrun as Hval. vm_compute in Hval. injection Hval as <- <- <-.
  refine (init_slot_allocation_failure os_small_allocations zero_manager
            config_of_two _ fresh_world _ _ _ Hrun eq_refl _).
  cbn. do 2 apply list_elem_of_further. apply list_elem_of_here.
Defined.

(** *** Module state and the empty pool *)

(** X11.  [system_init] always succeeds and ignores SIGPIPE only when the
    module is not initialised yet: a second call does nothing at all, and
    after [system_cleanup] the next call ignores SIGPIPE again. *)
Theorem system_init_once (w : world) :
  let '(r, w1) := system_init w in
  r = SYSTEM_OK ∧
  system_initialized w1 = true ∧
  trace w1 = trace w ++ (if system_initialized w then []
                         else [Ev_signal_ignore_sigpipe]) ∧
  system_init w1 = (SYSTEM_OK, w1) ∧
  system_init (system_cleanup w1).2
  = (SYSTEM_OK, mk_world true (trace w1 ++ [Ev_signal_ignore_sigpipe])).
Proof.
  unfold system_init, system_cleanup. destruct w as [[] t]; cbn.
  - rewrite app_nil_r. done.
  - done.
Qed.

(** X12.  On a manager whose pool size is zero or negative (a manager
    that is still all zero because [worker_manager_init] rejected its
    configuration is one) [worker_manager_fork_workers] makes no system
    call at all, logs the pool size and returns [PROCESS_OK] with the
    manager unchanged: the caller is told that it is the parent of a
    running pool although no worker exists. *)
Theorem fork_workers_empty_pool (os : os_t) (m : worker_manager_t) (w : world) :
  worker_count (config m) ≤ 0 →
  worker_manager_fork_workers os (Some m) w
  = ((PROCESS_OK, Some m),
     mk_world (system_initialized w)
       (trace w ++ [Ev_log_info (Msg_running_with (worker_count (config m)))])).
Proof.
  intros Hcount. unfold worker_manager_fork_workers.
  assert (Z.to_nat (worker_count (config m)) = 0%nat) as -> by lia.
  reflexivity.
Qed.

Lemma fork_workers_empty_pool_witness :
  worker_manager_fork_workers (os_fine 0) (Some zero_manager) fresh_world
  = ((PROCESS_OK, Some zero_manager),
     mk_world false [Ev_log_info (Msg_running_with 0)]).
Proof.
  exact (fork_workers_empty_pool (os_fine 0) zero_manager fresh_world
           ltac:(cbn; lia)).
Defined.

End Process_facts.

(** ** Properties of signals.c *)

Module Signals_facts.

Import Signals.

(** *** Memory and flags *)

Section Properties.

Context {numbers : signal_numbers}.

Lemma distinct_numbers :
  SIGTERM ≠ SIGINT ∧ SIGTERM ≠ SIGHUP ∧ SIGTERM ≠ SIGUSR1 ∧ SIGTERM ≠ SIGUSR2 ∧
  SIGTERM ≠ SIGPIPE ∧ SIGINT ≠ SIGHUP ∧ SIGINT ≠ SIGUSR1 ∧ SIGINT ≠ SIGUSR2 ∧
  SIGINT ≠ SIGPIPE ∧ SIGHUP ≠ SIGUSR1 ∧ SIGHUP ≠ SIGUSR2 ∧ SIGHUP ≠ SIGPIPE ∧
  SIGUSR1 ≠ SIGUSR2 ∧ SIGUSR1 ≠ SIGPIPE ∧ SIGUSR2 ≠ SIGPIPE.
Proof.
  pose proof signals_distinct as H.
  rewrite !list.NoDup_cons, !not_elem_of_cons in H. intuition.
Qed.

Lemma memory_store_eq p m s : memory (store p m s) p = m.
Proof. unfold store; cbn. apply fn_lookup_insert. Qed.

Lemma memory_store_ne p q m s : p ≠ q → memory (store p m s) q = memory s q.
Proof. intros Hne. unfold store; cbn. now apply fn_lookup_insert_ne. Qed.

(** Storing a manager with the same shutdown flag at any address keeps
    the flag of every manager. *)
Lemma flag_store p q m s :
  shutdown_requested m = shutdown_requested (memory s p) →
  shutdown_requested (memory (store p m s) q) = shutdown_requested (memory s q).
Proof.
  intros Hm. destruct (decide (p = q)) as [->|Hne].
  - now rewrite memory_store_eq.
  - now rewrite memory_store_ne.
Qed.

Lemma flag_record e s q :
  shutdown_requested (memory (record e s) q) = shutdown_requested (memory s q).
Proof. reflexivity. Qed.

Section Flags.

Variable run_callback : nat → Z → process → process.

(** The flags belong to the coordinator: user callbacks do not write
    them. *)
Hypothesis callbacks_keep_flags :
  ∀ cb signum s q,
    shutdown_requested (memory (run_callback cb signum s) q)
    = shutdown_requested (memory s q) ∧
    reload_requested (memory (run_callback cb signum s) q)
    = reload_requested (memory s q).

Lemma flag_call cb signum s q :
  shutdown_requested (memory (call run_callback cb signum s) q)
  = shutdown_requested (memory s q).
Proof. unfold call. now rewrite (proj1 (callbacks_keep_flags _ _ _ _)). Qed.

Lemma reload_call cb signum s q :
  reload_requested (memory (call run_callback cb signum s) q)
  = reload_requested (memory s q).
Proof. unfold call. now rewrite (proj2 (callbacks_keep_flags _ _ _ _)). Qed.

(** The handler never lowers the shutdown flag of any manager. *)
Lemma signal_handler_keeps_flag signum s q :
  shutdown_requested (memory s q) ≠ 0 →
  shutdown_requested (memory (signal_handler run_callback signum s) q) ≠ 0.
Proof.
  intros Hq. unfold signal_handler.
  destruct (global_signal_manager s) as [g|]; [|assumption].
  assert (shutdown_requested
            (memory (store g (set_shutdown_requested 1 (memory s g)) s) q) ≠ 0) as Hset.
  { destruct (decide (g = q)) as [->|Hne].
    - rewrite memory_store_eq. cbn. lia.
    - now rewrite memory_store_ne. }
  repeat case_match; rewrite ?flag_call, ?flag_record; try assumption;
    rewrite flag_store; done.
Qed.

Lemma perform_keeps_flag op s q :
  op ≠ Op_reset_shutdown (Some q) →
  shutdown_requested (memory s q) ≠ 0 →
  shutdown_requested (memory (perform run_callback op s) q) ≠ 0.
Proof.
  intros Hop Hq.
  destruct op as [signum|?|?|manager signum cb|manager|manager]; unfold perform.
  - now apply signal_handler_keeps_flag.
  - assumption.
  - assumption.
  - unfold signal_manager_set_handler. destruct manager as [p|]; [|assumption].
    repeat case_match; cbn [snd]; try assumption; rewrite flag_store; done.
  - destruct manager as [p|]; cbn [signal_manager_reset_reload]; [|assumption].
    rewrite flag_store; done.
  - destruct manager as [p|]; cbn [signal_manager_reset_shutdown]; [|assumption].
    rewrite memory_store_ne; [assumption|]. congruence.
Qed.

Lemma perform_all_keep_flag (ops : list operation) (q : loc) :
  ∀ s : process,
    Forall (λ op, op ≠ Op_reset_shutdown (Some q)) ops →
    shutdown_requested (memory s q) ≠ 0 →
    shutdown_requested
      (memory (foldl (λ s op, perform run_callback op s) s ops) q) ≠ 0.
Proof.
  induction ops as [|op ops IH]; intros s Hops Hq; [assumption|].
  apply list.Forall_cons in Hops as [Hop Hops]. cbn.
  apply IH; [assumption|]. now apply perform_keeps_flag.
Qed.

(** C7.  Let [g] be the active coordinator.  After [signal_handler] has
    run for SIGTERM or SIGINT, [signal_manager_shutdown_requested] is true.
    Once true it stays true through any sequence of handler runs (for any
    signal number), reads of either flag, [signal_manager_set_handler] and
    [signal_manager_reset_reload] calls, and [signal_manager_reset_shutdown]
    calls on other managers; an operation after which it is false is
    [signal_manager_reset_shutdown] on [g], which does clear it.  The
    handler run for SIGHUP sets the reload flag and leaves the shutdown
    flag as it was.  (The operations are those on a coordinator in use;
    [signal_manager_init] and [signal_manager_cleanup] begin and end its
    life by zeroing the whole structure.) *)
Theorem shutdown_flag_sticky (g : loc) (s : process) :
  global_signal_manager s = Some g →
  (∀ signum, signum = SIGTERM ∨ signum = SIGINT →
     signal_manager_shutdown_requested (Some g)
       (signal_handler run_callback signum s) = true) ∧
  (∀ ops : list operation,
     signal_manager_shutdown_requested (Some g) s = true →
     Forall (λ op, op ≠ Op_reset_shutdown (Some g)) ops →
     signal_manager_shutdown_requested (Some g)
       (foldl (λ s op, perform run_callback op s) s ops) = true) ∧
  (∀ op : operation,
     signal_manager_shutdown_requested (Some g) s = true →
     signal_manager_shutdown_requested (Some g) (perform run_callback op s) = false →
     op = Op_reset_shutdown (Some g)) ∧
  signal_manager_shutdown_requested (Some g)
    (signal_manager_reset_shutdown (Some g) s) = false ∧
  signal_manager_reload_requested (Some g)
    (signal_handler run_callback SIGHUP s) = true ∧
  signal_manager_shutdown_requested (Some g) (signal_handler run_callback SIGHUP s)
  = signal_manager_shutdown_requested (Some g) s.
Proof.
  intros Hg.
  destruct distinct_numbers as (? & ? & ? & ? & ? & ? & _).
  assert (∀ s', signal_manager_shutdown_requested (Some g) s' = true ↔
                shutdown_requested (memory s' g) ≠ 0) as Hread.
  { intros s'. cbn. rewrite negb_true_iff. apply Z.eqb_neq. }
  split_and!.
  - intros signum Hsig. apply Hread. unfold signal_handler. rewrite Hg.
    destruct Hsig as [-> | ->].
    + rewrite Z.eqb_refl.
      case_match; rewrite ?flag_call, ?flag_record, memory_store_eq; cbn; lia.
    + destruct (Z.eqb_spec SIGINT SIGTERM) as [|_]; [congruence|].
      rewrite Z.eqb_refl.
      case_match; rewrite ?flag_call, ?flag_record, memory_store_eq; cbn; lia.
  - intros ops Hset Hops. apply Hread. apply Hread in Hset.
    now apply perform_all_keep_flag.
  - intros op Hset Hclear.
    destruct (decide (op = Op_reset_shutdown (Some g))) as [|Hop]; [assumption|].
    apply Hread in Hset. apply (perform_keeps_flag op s g Hop) in Hset.
    apply Hread in Hset. congruence.
  - unfold signal_manager_shutdown_requested, signal_manager_reset_shutdown.
    now rewrite memory_store_eq.
  - unfold signal_handler, signal_manager_reload_requested. rewrite Hg.
    destruct (Z.eqb_spec SIGHUP SIGTERM) as [|_]; [congruence|].
    destruct (Z.eqb_spec SIGHUP SIGINT) as [|_]; [congruence|].
    rewrite Z.eqb_refl.
    case_match; rewrite ?reload_call; cbn; rewrite fn_lookup_insert; reflexivity.
  - unfold signal_handler, signal_manager_shutdown_requested. rewrite Hg.
    destruct (Z.eqb_spec SIGHUP SIGTERM) as [|_]; [congruence|].
    destruct (Z.eqb_spec SIGHUP SIGINT) as [|_]; [congruence|].
    rewrite Z.eqb_refl.
    case_match; rewrite ?flag_call, ?flag_record; rewrite flag_store; done.
Qed.

End Flags.

(** C10.  [signal_manager_set_handler] on a manager [p] stores the
    callback in the field of the signal concerned and returns [SIGNAL_OK]
    for SIGTERM, SIGINT, SIGHUP, SIGUSR1 and SIGUSR2, replacing whatever
    was registered and touching nothing else; for every other signal
    number, SIGPIPE among them, it returns [SIGNAL_ERROR_INVALID_PARAM]
    and leaves the process as it was. *)
Theorem set_handler_accepts_five (p : loc) (signum : Z)
    (callback : signal_callback_t) (s : process) :
  let '(r, s') := signal_manager_set_handler (Some p) signum callback s in
  (signum = SIGTERM →
     r = SIGNAL_OK ∧ sigterm_handler (memory s' p) = callback ∧
     s' = store p (set_sigterm_handler callback (memory s p)) s) ∧
  (signum = SIGINT →
     r = SIGNAL_OK ∧ sigint_handler (memory s' p) = callback ∧
     s' = store p (set_sigint_handler callback (memory s p)) s) ∧
  (signum = SIGHUP →
     r = SIGNAL_OK ∧ sighup_handler (memory s' p) = callback ∧
     s' = store p (set_sighup_handler callback (memory s p)) s) ∧
  (signum = SIGUSR1 →
     r = SIGNAL_OK ∧ sigusr1_handler (memory s' p) = callback ∧
     s' = store p (set_sigusr1_handler callback (memory s p)) s) ∧
  (signum = SIGUSR2 →
     r = SIGNAL_OK ∧ sigusr2_handler (memory s' p) = callback ∧
     s' = store p (set_sigusr2_handler callback (memory s p)) s) ∧
  (signum ∉ [SIGTERM; SIGINT; SIGHUP; SIGUSR1; SIGUSR2] →
     r = SIGNAL_ERROR_INVALID_PARAM ∧ s' = s) ∧
  (signum = SIGPIPE → r = SIGNAL_ERROR_INVALID_PARAM ∧ s' = s).
Proof.
  destruct distinct_numbers
    as (? & ? & ? & ? & ? & ? & ? & ? & ? & ? & ? & ? & ? & ? & ?).
  unfold signal_manager_set_handler.
  destruct (Z.eqb_spec signum SIGTERM) as [Ht|Ht];
    [|destruct (Z.eqb_spec signum SIGINT) as [Hi|Hi];
      [|destruct (Z.eqb_spec signum SIGHUP) as [Hh|Hh];
        [|destruct (Z.eqb_spec signum SIGUSR1) as [Hu1|Hu1];
          [|destruct (Z.eqb_spec signum SIGUSR2) as [Hu2|Hu2]]]]].
  all: rewrite ?memory_store_eq, !not_elem_of_cons.
  all: split_and!; intros; try congruence; try tauto; split_and!; try done.
Qed.

Section Dispositions.

Variable sigaction_result : list event → Z → disposition → Z.

(** The kernel accepts every change of disposition for the three signals
    of the default configuration (they are valid and catchable). *)
Hypothesis sigaction_succeeds :
  ∀ h signum d, signum ∈ [SIGTERM; SIGINT; SIGPIPE] →
    sigaction_result h signum d ≠ -1.

Lemma setup_succeeds signum enable s :
  signum ∈ [SIGTERM; SIGINT; SIGPIPE] →
  ∃ e, setup_signal_handler sigaction_result signum enable s
       = (SIGNAL_OK,
          install signum (if enable then Sa_signal_handler else SIG_DFL)
            (record e s)).
Proof.
  intros Hin. unfold setup_signal_handler. destruct enable.
  - destruct (Z.eqb_spec (sigaction_result (history s) signum Sa_signal_handler) (-1))
      as [Hf|_]; [now apply sigaction_succeeds in Hf|]. eauto.
  - destruct (Z.eqb_spec (sigaction_result (history s) signum SIG_DFL) (-1))
      as [Hf|_]; [now apply sigaction_succeeds in Hf|]. eauto.
Qed.

(** C8.  The default configuration enables SIGTERM, SIGINT and SIGPIPE and
    disables SIGHUP, SIGUSR1 and SIGUSR2.  Initialising a coordinator with
    it (given explicitly, or by passing no configuration) succeeds and
    routes these three signals to [signal_handler]; a following cleanup
    sets the disposition of each of the three back to [SIG_DFL], leaves
    every other disposition as it was before the initialisation, clears
    the global reference and zeroes the manager. *)
Theorem default_config_round_trip (p : loc) (cfg : option signal_config_t)
    (s : process) :
  cfg = None ∨ cfg = Some signal_manager_default_config →
  signal_manager_default_config
    = mk_signal_config true true false false false true ∧
  let '(r, s1) := signal_manager_init sigaction_result (Some p) cfg s in
  let s2 := signal_manager_cleanup sigaction_result (Some p) s1 in
  r = SIGNAL_OK ∧
  config (memory s1 p) = signal_manager_default_config ∧
  global_signal_manager s1 = Some p ∧
  (∀ signum, signum ∈ [SIGTERM; SIGINT; SIGPIPE] →
     dispositions s1 signum = Sa_signal_handler ∧
     dispositions s2 signum = SIG_DFL) ∧
  (∀ signum, signum ∉ [SIGTERM; SIGINT; SIGPIPE] →
     dispositions s1 signum = dispositions s signum ∧
     dispositions s2 signum = dispositions s signum) ∧
  global_signal_manager s2 = None ∧
  memory s2 p = zero_manager.
Proof.
  intros Hcfg. split; [reflexivity|].
  destruct distinct_numbers
    as (? & ? & ? & ? & ? & ? & ? & ? & ? & ? & ? & ? & ? & ? & ?).
  assert (SIGTERM ∈ [SIGTERM; SIGINT; SIGPIPE]) as Hterm by (left).
  assert (SIGINT ∈ [SIGTERM; SIGINT; SIGPIPE]) as Hint by (right; left).
  assert (SIGPIPE ∈ [SIGTERM; SIGINT; SIGPIPE]) as Hpipe by (right; right; left).
  unfold signal_manager_init.
  assert (match cfg with Some c => c | None => signal_manager_default_config end
          = signal_manager_default_config) as -> by (destruct Hcfg; subst; reflexivity).
  set (s0 := set_global (Some p) _).
  assert (config (memory s0 p) = signal_manager_default_config) as Hc0.
  { unfold s0. change (memory (set_global ?g ?t) p) with (memory t p).
    now rewrite memory_store_eq. }
  rewrite Hc0. unfold setup_if.
  cbn [signal_manager_default_config
    handle_sigterm handle_sigint handle_sighup handle_sigusr1 handle_sigusr2
    handle_sigpipe].
  match goal with |- context [setup_signal_handler _ SIGTERM true ?s0] =>
    destruct (setup_succeeds SIGTERM true s0 Hterm) as [e1 ->] end.
  match goal with |- context [setup_signal_handler _ SIGINT true ?s0] =>
    destruct (setup_succeeds SIGINT true s0 Hint) as [e2 ->] end.
  match goal with |- context [setup_signal_handler _ SIGPIPE true ?s0] =>
    destruct (setup_succeeds SIGPIPE true s0 Hpipe) as [e3 ->] end.
  unfold signal_manager_cleanup.
  cbn [global_signal_manager memory record install set_global store].
  rewrite bool_decide_eq_true_2 by reflexivity.
  cbn [global_signal_manager memory record install set_global store].
  rewrite !Hc0. unfold restore_if.
  cbn [signal_manager_default_config
    handle_sigterm handle_sigint handle_sighup handle_sigusr1 handle_sigusr2
    handle_sigpipe].
  match goal with |- context [setup_signal_handler _ SIGTERM false ?s0] =>
    destruct (setup_succeeds SIGTERM false s0 Hterm) as [e4 ->] end.
  cbn [snd].
  match goal with |- context [setup_signal_handler _ SIGINT false ?s0] =>
    destruct (setup_succeeds SIGINT false s0 Hint) as [e5 ->] end.
  cbn [snd].
  match goal with |- context [setup_signal_handler _ SIGPIPE false ?s0] =>
    destruct (setup_succeeds SIGPIPE false s0 Hpipe) as [e6 ->] end.
  cbn [snd global_signal_manager memory dispositions record install set_global store].
  split_and!; try reflexivity.
  - intros signum Hin. rewrite !elem_of_cons, elem_of_nil in Hin.
    destruct Hin as [->|[->|[->|[]]]];
      repeat (rewrite ?fn_lookup_insert; rewrite ?fn_lookup_insert_ne by congruence);
      done.
  - intros signum Hout. rewrite !not_elem_of_cons in Hout.
    destruct Hout as (? & ? & ? & _).
    rewrite !fn_lookup_insert_ne by congruence. done.
  - apply fn_lookup_insert.
Qed.

End Dispositions.

End Properties.

Lemma shutdown_flag_sticky_witness :
  signal_manager_shutdown_requested (Some 0%nat)
    (foldl (λ s op, perform quiet_callback op s)
       (signal_handler quiet_callback SIGTERM active_process)
       [Op_signal SIGHUP; Op_reload_requested (Some 0%nat);
        Op_reset_reload (Some 0%nat);
        Op_set_handler (Some 0%nat) SIGUSR1 (Some 7%nat);
        Op_signal SIGUSR1; Op_shutdown_requested (Some 0%nat)]) = true.
Proof.
  assert (∀ cb signum s q,
            shutdown_requested (memory (quiet_callback cb signum s) q)
            = shutdown_requested (memory s q) ∧
            reload_requested (memory (quiet_callback cb signum s) q)
            = reload_requested (memory s q)) as Hquiet by (intros; split; reflexivity).
  destruct (shutdown_flag_sticky quiet_callback Hquiet 0%nat active_process eq_refl)
    as (Hset & _).
  assert (global_signal_manager (signal_handler quiet_callback SIGTERM active_process)
          = Some 0%nat) as Hg by reflexivity.
  destruct (shutdown_flag_sticky quiet_callback Hquiet 0%nat _ Hg) as (_ & Hkeep & _).
  apply Hkeep.
  - apply Hset. left. reflexivity.
  - repeat constructor; discriminate.
Defined.

Lemma set_handler_accepts_five_witness :
  (signal_manager_set_handler (Some 0%nat) SIGUSR1 (Some 7%nat) active_process).1
    = SIGNAL_OK ∧
  (signal_manager_set_handler (Some 0%nat) SIGPIPE (Some 7%nat) active_process)
    = (SIGNAL_ERROR_INVALID_PARAM, active_process) ∧
  (signal_manager_set_handler (Some 0%nat) 99 (Some 7%nat) active_process)
    = (SIGNAL_ERROR_INVALID_PARAM, active_process).
Proof.
  pose proof (set_handler_accepts_five 0%nat SIGUSR1 (Some 7%nat) active_process) as H1.
  pose proof (set_handler_accepts_five 0%nat SIGPIPE (Some 7%nat) active_process) as H2.
  pose proof (set_handler_accepts_five 0%nat 99 (Some 7%nat) active_process) as H3.
  cbn in H1, H2, H3.
  destruct H1 as (_ & _ & _ & H1 & _).
  destruct H2 as (_ & _ & _ & _ & _ & _ & H2).
  destruct H3 as (_ & _ & _ & _ & _ & H3 & _).
  split_and!.
  - exact (proj1 (H1 eq_refl)).
  - destruct (H2 eq_refl) as [_ _]. reflexivity.
  - assert (99 ∉ [SIGTERM; SIGINT; SIGHUP; SIGUSR1; SIGUSR2]) as Hout.
    { rewrite !not_elem_of_cons. split_and!; try discriminate. apply not_elem_of_nil. }
    destruct (H3 Hout) as [_ _]. reflexivity.
Defined.

Lemma default_config_round_trip_witness :
  let s1 := (signal_manager_init sigaction_fine (Some 0%nat) None initial_process).2 in
  dispositions s1 SIGTERM = Sa_signal_handler ∧
  dispositions (signal_manager_cleanup sigaction_fine (Some 0%nat) s1) SIGTERM
    = SIG_DFL.
Proof.
  pose proof (default_config_round_trip sigaction_fine
                ltac:(intros; discriminate) 0%nat None initial_process
                ltac:(left; reflexivity)) as [_ H].
  destruct H as (_ & _ & _ & H & _).
  exact (H SIGTERM ltac:(left)).
Defined.

(** *** Installation and restoration for any configuration *)

Section Any_configuration.

Context {numbers : signal_numbers}.

Variable sigaction_result : list event → Z → disposition → Z.

Variable run_callback : nat → Z → process → process.

Lemma restore_all_spec (sigs : list Z) :
  ∀ s : process,
    let s' := restore_all sigaction_result sigs s in
    memory s' = memory s ∧
    global_signal_manager s' = global_signal_manager s ∧
    ∃ emitted,
      history s' = history s ++ emitted ∧
      map fst (sigactions emitted) = map (λ signum, (signum, SIG_DFL)) sigs ∧
      ∀ signum,
        ((∃ r, r ≠ -1 ∧ Ev_sigaction signum SIG_DFL r ∈ emitted) ∧
         dispositions s' signum = SIG_DFL) ∨
        ((∀ r, Ev_sigaction signum SIG_DFL r ∈ emitted → r = -1) ∧
         dispositions s' signum = dispositions s signum).
Proof.
  induction sigs as [|sig0 sigs IH]; intros s; cbv zeta.
  - cbn. split_and!; try reflexivity. exists []. rewrite app_nil_r.
    split_and!; try reflexivity. intros signum. right. split; [|reflexivity].
    intros r Hin. now apply elem_of_nil in Hin.
  - change (restore_all sigaction_result (sig0 :: sigs) s)
      with (restore_all sigaction_result sigs
              (setup_signal_handler sigaction_result sig0 false s).2).
    set (r0 := sigaction_result (history s) sig0 SIG_DFL).
    assert (∃ logged s1,
              (setup_signal_handler sigaction_result sig0 false s).2 = s1 ∧
              memory s1 = memory s ∧
              global_signal_manager s1 = global_signal_manager s ∧
              history s1 = history s ++ Ev_sigaction sig0 SIG_DFL r0 :: logged ∧
              sigactions logged = [] ∧
              (∀ signum r, Ev_sigaction signum SIG_DFL r ∉ logged) ∧
              dispositions s1
              = if r0 =? -1 then dispositions s
                else <[sig0 := SIG_DFL]> (dispositions s))
      as (logged & s1 & -> & Hmem & Hglob & Hhist & Hlogged & Hnone & Hdisp).
    { unfold setup_signal_handler. fold r0. destruct (r0 =? -1).
      - eexists [_], _. split; [reflexivity|]. cbn. rewrite <- app_assoc.
        split_and!; try reflexivity. intros signum r Hin.
        apply list_elem_of_singleton in Hin. discriminate.
      - eexists [], _. split; [reflexivity|]. cbn.
        split_and!; try reflexivity. intros signum r Hin.
        now apply elem_of_nil in Hin. }
    destruct (IH s1) as (Hmem' & Hglob' & emitted & Hhist' & Hcalls & Hdisp').
    split_and!; [congruence|congruence|].
    exists (Ev_sigaction sig0 SIG_DFL r0 :: logged ++ emitted). split_and!.
    + rewrite Hhist', Hhist, <- app_assoc. reflexivity.
    + cbn. f_equal. unfold sigactions in *. rewrite omap_app, Hlogged. exact Hcalls.
    + intros signum. destruct (Hdisp' signum) as [[[r [Hr Hin]] Hd]|[Hfail Hd]].
      * left. split; [|exact Hd]. exists r. split; [exact Hr|].
        right. apply elem_of_app. now right.
      * rewrite Hdisp in Hd.
        destruct (Z.eqb_spec r0 (-1)) as [Hr0|Hr0].
        -- right. split; [|exact Hd]. intros r Hin.
           apply elem_of_cons in Hin as [Heq|Hin]; [congruence|].
           apply elem_of_app in Hin as [Hin|Hin]; [|auto].
           now apply Hnone in Hin.
        -- destruct (decide (signum = sig0)) as [->|Hne].
           ++ left. rewrite fn_lookup_insert in Hd. split; [|exact Hd].
              exists r0. split; [exact Hr0|left].
           ++ right. rewrite fn_lookup_insert_ne in Hd by congruence.
              split; [|exact Hd]. intros r Hin.
              apply elem_of_cons in Hin as [Heq|Hin]; [congruence|].
              apply elem_of_app in Hin as [Hin|Hin]; [|auto].
              now apply Hnone in Hin.
Qed.

Lemma cleanup_unfold (p : loc) (s : process) :
  signal_manager_cleanup sigaction_result (Some p) s
  = record (Ev_log_debug Msg_cleaned_up)
      (store p zero_manager
         (restore_all sigaction_result (enabled_signals (config (memory s p)))
            (if bool_decide (global_signal_manager s = Some p)
             then set_global None s else s))).
Proof.
  unfold signal_manager_cleanup, restore_if, enabled_signals, restore_all.
  case_bool_decide; cbn [memory set_global];
    destruct (config (memory s p)) as [[] [] [] [] [] []]; reflexivity.
Qed.

(** X13.  [signal_manager_cleanup] asks the kernel for the default
    disposition of exactly the signals enabled in the configuration the
    manager holds, once each and in the order SIGTERM, SIGINT, SIGHUP,
    SIGUSR1, SIGUSR2, SIGPIPE, going on after a refusal.  A signal ends
    with [SIG_DFL] if one of its calls succeeded and with the disposition
    it had otherwise.  The manager is zeroed, no other manager is touched,
    and the global reference is cleared only if it pointed to this
    manager: cleaning up a coordinator that has been replaced leaves the
    replacement registered but takes its handlers away. *)
Theorem cleanup_restores_enabled (p : loc) (s : process) :
  let s' := signal_manager_cleanup sigaction_result (Some p) s in
  memory s' p = zero_manager ∧
  (∀ q, q ≠ p → memory s' q = memory s q) ∧
  global_signal_manager s'
  = (if bool_decide (global_signal_manager s = Some p) then None
     else global_signal_manager s) ∧
  ∃ emitted,
    history s' = history s ++ emitted ++ [Ev_log_debug Msg_cleaned_up] ∧
    map fst (sigactions emitted)
    = map (λ signum, (signum, SIG_DFL)) (enabled_signals (config (memory s p))) ∧
    ∀ signum,
      ((∃ r, r ≠ -1 ∧ Ev_sigaction signum SIG_DFL r ∈ emitted) ∧
       dispositions s' signum = SIG_DFL) ∨
      ((∀ r, Ev_sigaction signum SIG_DFL r ∈ emitted → r = -1) ∧
       dispositions s' signum = dispositions s signum).
Proof.
  cbv zeta. rewrite cleanup_unfold.
  set (s0 := if bool_decide (global_signal_manager s = Some p)
             then set_global None s else s).
  destruct (restore_all_spec (enabled_signals (config (memory s p))) s0)
    as (Hmem & Hglob & emitted & Hhist & Hcalls & Hdisp).
  assert (memory s0 = memory s) as Hmem0
    by (unfold s0; case_bool_decide; reflexivity).
  assert (history s0 = history s) as Hhist0
    by (unfold s0; case_bool_decide; reflexivity).
  assert (dispositions s0 = dispositions s) as Hdisp0
    by (unfold s0; case_bool_decide; reflexivity).
  split_and!.
  - apply fn_lookup_insert.
  - intros q Hq. cbn. rewrite fn_lookup_insert_ne by congruence.
    now rewrite Hmem, Hmem0.
  - cbn. rewrite Hglob. unfold s0. case_bool_decide; reflexivity.
  - exists emitted. split_and!.
    + cbn. rewrite Hhist, Hhist0, <- app_assoc. reflexivity.
    + exact Hcalls.
    + intros signum. cbn. rewrite <- Hdisp0. apply Hdisp.
Qed.

(** X14.  A second [signal_manager_cleanup] of the same manager makes no
    [sigaction] call and changes nothing but the log; and once the active
    coordinator has been cleaned up, a run of [signal_handler] (for a
    signal whose disposition could not be restored, say) leaves the
    process exactly as it is. *)
Theorem cleanup_twice_only_logs (p : loc) (s : process) :
  let s1 := signal_manager_cleanup sigaction_result (Some p) s in
  let s2 := signal_manager_cleanup sigaction_result (Some p) s1 in
  history s2 = history s1 ++ [Ev_log_debug Msg_cleaned_up] ∧
  dispositions s2 = dispositions s1 ∧
  global_signal_manager s2 = global_signal_manager s1 ∧
  (∀ q, memory s2 q = memory s1 q) ∧
  (global_signal_manager s = Some p →
   ∀ signum, signal_handler run_callback signum s1 = s1).
Proof.
  cbv zeta.
  set (s1 := signal_manager_cleanup sigaction_result (Some p) s).
  assert (memory s1 p = zero_manager) as Hzero.
  { unfold s1. rewrite cleanup_unfold. apply fn_lookup_insert. }
  assert (global_signal_manager s1
          = if bool_decide (global_signal_manager s = Some p) then None
            else global_signal_manager s) as Hglob.
  { unfold s1. rewrite cleanup_unfold.
    match goal with |- context [restore_all _ ?sigs ?s0] =>
      destruct (restore_all_spec sigs s0) as (_ & Hg & _) end.
    cbn. rewrite Hg. case_bool_decide; reflexivity. }
  assert (global_signal_manager s1 ≠ Some p) as Hother.
  { rewrite Hglob. case_bool_decide; congruence. }
  clearbody s1. rewrite cleanup_unfold, Hzero.
  rewrite bool_decide_eq_false_2 by exact Hother. cbn.
  split_and!; try reflexivity.
  - intros q. destruct (decide (p = q)) as [<-|Hne].
    + now rewrite fn_lookup_insert.
    + now rewrite fn_lookup_insert_ne.
  - intros Hactive signum. unfold signal_handler.
    rewrite Hglob, bool_decide_eq_true_2 by exact Hactive. reflexivity.
Qed.

Lemma init_unfold (p : loc) (cfg : option signal_config_t) (s : process) :
  let c := default signal_manager_default_config cfg in
  signal_manager_init sigaction_result (Some p) cfg s
  = setup_all sigaction_result (enabled_signals c)
      (set_global (Some p)
         (store p (set_config c zero_manager) (store p zero_manager s))).
Proof.
  cbv zeta. unfold signal_manager_init.
  assert (match cfg with Some c => c | None => signal_manager_default_config end
          = default signal_manager_default_config cfg) as ->
    by (destruct cfg; reflexivity).
  rewrite memory_store_eq.
  change (memory (set_global (Some p) ?t) p) with (memory t p).
  rewrite memory_store_eq.
  change (config (set_config ?c zero_manager)) with c.
  unfold setup_if, enabled_signals.
  destruct (default signal_manager_default_config cfg) as [[] [] [] [] [] []];
    reflexivity.
Qed.

Lemma setup_all_spec (sigs : list Z) :
  ∀ (s s' : process) (r : signal_error_t),
    setup_all sigaction_result sigs s = (r, s') →
    memory s' = memory s ∧
    global_signal_manager s' = global_signal_manager s ∧
    ∃ (installed rest : list Z) (results : list Z),
      sigs = installed ++ rest ∧
      length results = length installed ∧
      (∀ x, x ∈ results → x ≠ -1) ∧
      (∀ signum, signum ∈ installed → dispositions s' signum = Sa_signal_handler) ∧
      (∀ signum, signum ∉ installed → dispositions s' signum = dispositions s signum) ∧
      history s'
      = history s
        ++ zip_with (λ signum x, Ev_sigaction signum Sa_signal_handler x)
             installed results
        ++ match rest with
           | [] => [Ev_log_debug Msg_initialized]
           | signum :: _ => [Ev_sigaction signum Sa_signal_handler (-1);
                             Ev_log_error (Msg_setup_failed signum)]
           end ∧
      (r = match rest with [] => SIGNAL_OK | _ :: _ => SIGNAL_ERROR_SETUP end).
Proof.
  induction sigs as [|sig0 sigs IH]; intros s s' r Hrun.
  - cbn in Hrun. injection Hrun as <- <-. split_and!; try reflexivity.
    exists [], [], []. split_and!; try reflexivity.
    + intros x Hx. now apply elem_of_nil in Hx.
    + intros x Hx. now apply elem_of_nil in Hx.
  - cbn [setup_all] in Hrun. unfold setup_signal_handler in Hrun.
    set (r0 := sigaction_result (history s) sig0 Sa_signal_handler) in *.
    destruct (Z.eqb_spec r0 (-1)) as [Hr0|Hr0].
    + injection Hrun as <- <-. split_and!; try reflexivity.
      exists [], (sig0 :: sigs), []. rewrite Hr0. cbn. rewrite <- app_assoc.
      split_and!; try reflexivity.
      * intros x Hx. now apply elem_of_nil in Hx.
      * intros x Hx. now apply elem_of_nil in Hx.
    + apply IH in Hrun
        as (Hmem & Hglob & installed & rest & results & -> & Hlen & Hok & Hin
            & Hout & Hhist & Hr).
      split_and!; [exact Hmem|exact Hglob|].
      exists (sig0 :: installed), rest, (r0 :: results). split_and!.
      * reflexivity.
      * cbn. now rewrite Hlen.
      * intros x Hx. apply elem_of_cons in Hx as [->|Hx]; auto.
      * intros signum Hsig. destruct (decide (signum ∈ installed)) as [Hi|Hi];
          [now apply Hin|].
        rewrite Hout by exact Hi. cbn.
        apply elem_of_cons in Hsig as [->|Hsig]; [|done].
        apply fn_lookup_insert.
      * intros signum Hsig. apply not_elem_of_cons in Hsig as [Hne Hsig].
        rewrite Hout by exact Hsig. cbn. now rewrite fn_lookup_insert_ne.
      * rewrite Hhist. cbn. rewrite <- app_assoc. reflexivity.
      * exact Hr.
Qed.

Lemma setup_all_succeeds (sigs : list Z) :
  (∀ h signum d, sigaction_result h signum d ≠ -1) →
  ∀ s, (setup_all sigaction_result sigs s).1 = SIGNAL_OK.
Proof.
  intros Hfine. induction sigs as [|sig0 sigs IH]; intros s; [reflexivity|].
  cbn [setup_all]. unfold setup_signal_handler.
  destruct (Z.eqb_spec (sigaction_result (history s) sig0 Sa_signal_handler) (-1))
    as [Hfail|_]; [now apply Hfine in Hfail|]. apply IH.
Qed.

(** X15.  [signal_manager_init] zeroes the manager, stores the
    configuration (the default one if none is given) and makes the manager
    the active coordinator before it touches any disposition.  It then
    installs [signal_handler] for the enabled signals in the order
    SIGTERM, SIGINT, SIGHUP, SIGUSR1, SIGUSR2, SIGPIPE and stops at the
    first refusal with [SIGNAL_ERROR_SETUP]: the signals installed before
    it stay routed to the handler and the manager stays registered,
    nothing is undone.  The result is [SIGNAL_OK] exactly when every
    enabled signal was installed. *)
Theorem init_stops_at_first_failure (p : loc) (cfg : option signal_config_t)
    (s : process) :
  let c := default signal_manager_default_config cfg in
  let '(r, s') := signal_manager_init sigaction_result (Some p) cfg s in
  global_signal_manager s' = Some p ∧
  memory s' p = set_config c zero_manager ∧
  (∀ q, q ≠ p → memory s' q = memory s q) ∧
  ∃ (installed rest : list Z) (results : list Z),
    enabled_signals c = installed ++ rest ∧
    length results = length installed ∧
    (∀ x, x ∈ results → x ≠ -1) ∧
    (∀ signum, signum ∈ installed → dispositions s' signum = Sa_signal_handler) ∧
    (∀ signum, signum ∉ installed → dispositions s' signum = dispositions s signum) ∧
    history s'
    = history s
      ++ zip_with (λ signum x, Ev_sigaction signum Sa_signal_handler x)
           installed results
      ++ match rest with
         | [] => [Ev_log_debug Msg_initialized]
         | signum :: _ => [Ev_sigaction signum Sa_signal_handler (-1);
                           Ev_log_error (Msg_setup_failed signum)]
         end ∧
    (r = match rest with [] => SIGNAL_OK | _ :: _ => SIGNAL_ERROR_SETUP end).
Proof.
  cbv zeta. rewrite init_unfold.
  destruct (setup_all _ _ _) as [r s'] eqn:Hrun.
  apply setup_all_spec in Hrun as (Hmem & Hglob & Hrest).
  split_and!.
  - rewrite Hglob. reflexivity.
  - rewrite Hmem. cbn. apply fn_lookup_insert.
  - intros q Hq. rewrite Hmem. cbn. now rewrite !fn_lookup_insert_ne.
  - exact Hrest.
Qed.

(** X16.  A callback registered with [signal_manager_set_handler] on the
    active coordinator is what [signal_handler] runs for that signal: it
    is called once, with the signal number, in place of the log line,
    after the shutdown flag (SIGTERM, SIGINT) or the reload flag (SIGHUP)
    has been set; nothing else of the process has changed when it
    starts. *)
Theorem registered_callback_is_called (g : loc) (signum : Z) (cb : nat)
    (s s1 : process) :
  global_signal_manager s = Some g →
  signal_manager_set_handler (Some g) signum (Some cb) s = (SIGNAL_OK, s1) →
  ∃ s2,
    signal_handler run_callback signum s1 = run_callback cb signum s2 ∧
    history s2 = history s ++ [Ev_callback cb signum] ∧
    dispositions s2 = dispositions s ∧
    global_signal_manager s2 = Some g ∧
    (∀ q, q ≠ g → memory s2 q = memory s q) ∧
    config (memory s2 g) = config (memory s g) ∧
    shutdown_requested (memory s2 g)
    = (if bool_decide (signum = SIGTERM ∨ signum = SIGINT) then 1
       else shutdown_requested (memory s g)) ∧
    reload_requested (memory s2 g)
    = (if bool_decide (signum = SIGHUP) then 1
       else reload_requested (memory s g)).
Proof.
  intros Hg Hset.
  destruct distinct_numbers
    as (? & ? & ? & ? & ? & ? & ? & ? & ? & ? & ? & ? & ? & ? & ?).
  unfold signal_manager_set_handler in Hset. unfold signal_handler.
  destruct (Z.eqb_spec signum SIGTERM) as [Ht|Ht];
    [|destruct (Z.eqb_spec signum SIGINT) as [Hi|Hi];
      [|destruct (Z.eqb_spec signum SIGHUP) as [Hh|Hh];
        [|destruct (Z.eqb_spec signum SIGUSR1) as [Hu1|Hu1];
          [|destruct (Z.eqb_spec signum SIGUSR2) as [Hu2|Hu2];
            [|discriminate]]]]].
  all: injection Hset as <-.
  all: cbn [global_signal_manager store memory]; rewrite Hg.
  all: rewrite ?fn_lookup_insert; cbn [sigterm_handler sigint_handler
         sighup_handler sigusr1_handler sigusr2_handler set_sigterm_handler
         set_sigint_handler set_sighup_handler set_sigusr1_handler
         set_sigusr2_handler set_shutdown_requested set_reload_requested
         store memory global_signal_manager].
  all: rewrite ?fn_lookup_insert; cbn [sigterm_handler sigint_handler
         sighup_handler sigusr1_handler sigusr2_handler].
  all: unfold call; eexists; split; [reflexivity|].
  all: cbn [history dispositions global_signal_manager memory record store].
  all: rewrite ?fn_lookup_insert;
       cbn [config shutdown_requested reload_requested].
  all: split_and!; try reflexivity; try exact Hg.
  all: try (intros q Hq; now rewrite !fn_lookup_insert_ne by congruence).
  all: try (rewrite bool_decide_eq_true_2 by tauto; reflexivity).
  all: try (rewrite bool_decide_eq_false_2 by (intros [?|?]; congruence);
            reflexivity).
  all: try (rewrite bool_decide_eq_false_2 by congruence; reflexivity).
Qed.

End Any_configuration.

Lemma registered_callback_is_called_witness :
  ∃ s2,
    signal_handler quiet_callback SIGTERM
      (signal_manager_set_handler (Some 0%nat) SIGTERM (Some 7%nat)
         active_process).2
    = quiet_callback 7%nat SIGTERM s2 ∧
    history s2 = [Ev_callback 7%nat SIGTERM] ∧
    shutdown_requested (memory s2 0%nat) = 1.
Proof.
  assert (signal_manager_set_handler (Some 0%nat) SIGTERM (Some 7%nat)
            active_process
          = (SIGNAL_OK,
             (signal_manager_set_handler (Some 0%nat) SIGTERM (Some 7%nat)
                active_process).2)) as Hset by reflexivity.
  destruct (registered_callback_is_called quiet_callback 0%nat SIGTERM 7%nat
              active_process _ eq_refl Hset)
    as (s2 & Hrun & Hhist & _ & _ & _ & _ & Hflag & _).
  exists s2. split_and!; [exact Hrun|exact Hhist|exact Hflag].
Defined.

End Signals_facts.

(** ** Properties of socket.c *)

Module Socket_facts.

Import Socket.

Lemma has_option_testbit (c : socket_config_t) (k : Z) :
  0 ≤ k → has_option c (Z.shiftl 1 k) = Z.testbit (options c) k.
Proof.
  intros Hk. unfold has_option. rewrite Z.shiftl_1_l.
  destruct (Z.testbit (options c) k) eqn:Hbit.
  - apply negb_true_iff, Z.eqb_neq. intros Hzero.
    apply (f_equal (λ x, Z.testbit x k)) in Hzero.
    rewrite Z.land_spec, Hbit, Z.pow2_bits_true, Z.bits_0 in Hzero by done.
    discriminate.
  - apply negb_false_iff, Z.eqb_eq, Z.bits_inj'. intros n Hn.
    rewrite Z.land_spec, Z.bits_0, Z.pow2_bits_eqb by done.
    destruct (Z.eqb_spec k n) as [->|_]; [now rewrite Hbit|apply andb_false_r].
Qed.

Lemma outcome_app (result : socket_error_t) (t u : list event) :
  outcome result (t ++ u) = outcome (outcome result t) u.
Proof. apply foldl_app. Qed.

Lemma outcome_no_failure (t : list event) :
  ∀ result, (∀ e, e ∈ t → ev_ret e ≠ -1) → outcome result t = result.
Proof.
  induction t as [|e t IH]; intros result Hall; [reflexivity|].
  cbn. destruct (Z.eqb_spec (ev_ret e) (-1)) as [Hfail|_].
  - exfalso. apply (Hall e); [left|done].
  - apply IH. intros e' He'. apply Hall. now right.
Qed.

Lemma outcome_ok (t : list event) :
  ∀ result,
    outcome result t = SOCKET_OK ↔
    result = SOCKET_OK ∧ ∀ e, e ∈ t → ev_ret e ≠ -1.
Proof.
  induction t as [|e t IH]; intros result.
  - cbn. split; [|tauto]. intros ->. split; [done|].
    intros e He. now apply elem_of_nil in He.
  - cbn. rewrite IH. destruct (Z.eqb_spec (ev_ret e) (-1)) as [Hfail|Hfine].
    + split.
      * intros [Hno _]. destruct (ev_opt e); discriminate.
      * intros [_ Hall]. exfalso. apply (Hall e); [left|done].
    + split.
      * intros [-> Hall]. split; [done|]. intros e' He'.
        apply elem_of_cons in He' as [->|He']; auto.
      * intros [-> Hall]. split; [done|]. intros e' He'. apply Hall. now right.
Qed.

Section Calls.

Variable setsockopt_result : list event → Z → sockopt → Z.

Lemma apply_if_spec (requested : bool)
    (set : list event → socket_error_t * list event)
    (result : socket_error_t) (h : list event) (e : event) :
  set h = (outcome SOCKET_OK [e], h ++ [e]) →
  apply_if requested set result h
  = (outcome result (if requested then [e] else []),
     h ++ (if requested then [e] else [])).
Proof.
  intros Hset. unfold apply_if. destruct requested.
  - rewrite Hset. cbn. destruct (ev_ret e =? -1).
    + destruct (ev_opt e); reflexivity.
    + reflexivity.
  - cbn. now rewrite app_nil_r.
Qed.

Lemma set_busy_poll_spec (fd v : Z) (h : list event) :
  0 ≤ fd →
  socket_set_busy_poll setsockopt_result fd v h
  = (outcome SOCKET_OK [attempt setsockopt_result h fd (SO_BUSY_POLL v)],
     h ++ [attempt setsockopt_result h fd (SO_BUSY_POLL v)]).
Proof.
  intros Hfd. unfold socket_set_busy_poll, setsockopt, attempt.
  destruct (Z.ltb_spec fd 0); [lia|]. cbn.
  destruct (_ =? -1); reflexivity.
Qed.

Lemma set_tcp_nodelay_spec (fd : Z) (enabled : bool) (h : list event) :
  0 ≤ fd →
  socket_set_tcp_nodelay setsockopt_result fd enabled h
  = (outcome SOCKET_OK [attempt setsockopt_result h fd (TCP_NODELAY (bool_flag enabled))],
     h ++ [attempt setsockopt_result h fd (TCP_NODELAY (bool_flag enabled))]).
Proof.
  intros Hfd. unfold socket_set_tcp_nodelay, setsockopt, attempt.
  destruct (Z.ltb_spec fd 0); [lia|]. cbn.
  destruct (_ =? -1); reflexivity.
Qed.

Lemma set_keepalive_spec (fd : Z) (enabled : bool) (h : list event) :
  0 ≤ fd →
  socket_set_keepalive setsockopt_result fd enabled h
  = (outcome SOCKET_OK [attempt setsockopt_result h fd (SO_KEEPALIVE (bool_flag enabled))],
     h ++ [attempt setsockopt_result h fd (SO_KEEPALIVE (bool_flag enabled))]).
Proof.
  intros Hfd. unfold socket_set_keepalive, setsockopt, attempt.
  destruct (Z.ltb_spec fd 0); [lia|]. cbn.
  destruct (_ =? -1); reflexivity.
Qed.

Lemma enable_reuseport_cbpf_spec (fd : Z) (h : list event) :
  0 ≤ fd →
  socket_enable_reuseport_cbpf setsockopt_result fd h
  = (outcome SOCKET_OK [attempt setsockopt_result h fd SO_ATTACH_REUSEPORT_CBPF],
     h ++ [attempt setsockopt_result h fd SO_ATTACH_REUSEPORT_CBPF]).
Proof.
  intros Hfd. unfold socket_enable_reuseport_cbpf, setsockopt, attempt.
  destruct (Z.ltb_spec fd 0); [lia|]. cbn.
  destruct (_ =? -1); reflexivity.
Qed.

Lemma apply_optimizations_run (fd : Z) (c : socket_config_t) (h : list event) :
  0 ≤ fd →
  ∃ emitted,
    socket_apply_optimizations setsockopt_result fd (Some c) h
    = (outcome SOCKET_OK emitted, h ++ emitted) ∧
    map ev_opt emitted = requested c ∧
    ∀ e, e ∈ emitted → ev_fd e = fd.
Proof.
  intros Hfd. unfold socket_apply_optimizations.
  destruct (Z.ltb_spec fd 0); [lia|].
  rewrite (apply_if_spec _ _ _ _ _ (set_busy_poll_spec fd _ h Hfd)).
  rewrite (apply_if_spec _ _ _ _ _ (set_tcp_nodelay_spec fd _ _ Hfd)).
  rewrite (apply_if_spec _ _ _ _ _ (set_keepalive_spec fd _ _ Hfd)).
  rewrite (apply_if_spec _ _ _ _ _ (enable_reuseport_cbpf_spec fd _ Hfd)).
  rewrite <- !outcome_app, <- !app_assoc.
  eexists. split; [reflexivity|].
  unfold SOCKET_OPT_BUSY_POLL, SOCKET_OPT_NODELAY, SOCKET_OPT_KEEPALIVE,
    SOCKET_OPT_REUSEPORT_CBPF.
  rewrite !has_option_testbit by lia. unfold requested, bool_flag. split.
  - rewrite !map_app.
    destruct (Z.testbit (options c) 0), (Z.testbit (options c) 1),
      (Z.testbit (options c) 2), (Z.testbit (options c) 3); reflexivity.
  - intros e He. rewrite !elem_of_app in He.
    destruct He as [He|[He|[He|He]]];
      match type of He with
      | _ ∈ (if ?b then _ else _) => destruct b
      end;
      try (now apply elem_of_nil in He);
      apply list_elem_of_singleton in He; subst e; reflexivity.
Qed.

(** X17.  [socket_apply_optimizations] rejects a NULL configuration or a
    negative descriptor with [SOCKET_ERROR_INVALID_PARAM] without calling
    [setsockopt].  Otherwise it calls [setsockopt] on the descriptor once
    for each option whose bit is set in [options], in the order busy poll,
    TCP_NODELAY (always 1), keepalive (the configured flag), CPU filter,
    whatever the earlier calls returned: a failure does not stop the later
    options from being applied. *)
Theorem apply_optimizations_attempts_all (fd : Z)
    (config : option socket_config_t) (h : list event) :
  let '(r, h') := socket_apply_optimizations setsockopt_result fd config h in
  match config with
  | None => r = SOCKET_ERROR_INVALID_PARAM ∧ h' = h
  | Some c =>
    if fd <? 0 then r = SOCKET_ERROR_INVALID_PARAM ∧ h' = h
    else ∃ emitted,
           h' = h ++ emitted ∧
           map ev_opt emitted = requested c ∧
           ∀ e, e ∈ emitted → ev_fd e = fd
  end.
Proof.
  destruct config as [c|]; [|done].
  destruct (Z.ltb_spec fd 0) as [Hneg|Hfd].
  - unfold socket_apply_optimizations.
    destruct (Z.ltb_spec fd 0); [done|lia].
  - destruct (apply_optimizations_run fd c h Hfd) as (emitted & -> & Hopts & Hfds).
    exists emitted. done.
Qed.

(** X18.  The result of [socket_apply_optimizations] on a valid descriptor
    is [SOCKET_OK] exactly when none of its [setsockopt] calls failed;
    otherwise it is the error of the last call that failed
    ([SOCKET_ERROR_BPF] for the CPU filter, [SOCKET_ERROR_SETSOCKOPT] for
    the others), so a later failure hides an earlier one. *)
Theorem apply_optimizations_reports_last_failure (fd : Z) (c : socket_config_t)
    (h h' emitted : list event) (r : socket_error_t) :
  0 ≤ fd →
  socket_apply_optimizations setsockopt_result fd (Some c) h = (r, h') →
  h' = h ++ emitted →
  (r = SOCKET_OK ↔ ∀ e, e ∈ emitted → ev_ret e ≠ -1) ∧
  ∀ before after o,
    emitted = before ++ Ev_setsockopt fd o (-1) :: after →
    (∀ e, e ∈ after → ev_ret e ≠ -1) →
    r = error_of o.
Proof.
  intros Hfd Hrun Hh'.
  destruct (apply_optimizations_run fd c h Hfd) as (emitted' & Hrun' & _ & _).
  rewrite Hrun in Hrun'. injection Hrun' as -> Heq. subst h'.
  apply app_inv_head in Heq. subst emitted'. split.
  - rewrite outcome_ok. tauto.
  - intros before after o -> Hafter.
    rewrite outcome_app. cbn. apply outcome_no_failure, Hafter.
Qed.

End Calls.

Lemma apply_optimizations_reports_last_failure_witness :
  let run := socket_apply_optimizations busy_poll_refused 7
               (Some (mk_socket_config 15 50 false)) [] in
  (run.1 = SOCKET_OK ↔ ∀ e, e ∈ run.2 → ev_ret e ≠ -1) ∧
  ∀ before after o,
    run.2 = before ++ Ev_setsockopt 7 o (-1) :: after →
    (∀ e, e ∈ after → ev_ret e ≠ -1) →
    run.1 = error_of o.
Proof.
  cbv zeta.
  destruct (socket_apply_optimizations busy_poll_refused 7
              (Some (mk_socket_config 15 50 false)) []) as [r h'] eqn:Hrun.
  pose proof Hrun as Hval. vm_compute in Hval. injection Hval as <- <-.
  exact (apply_optimizations_reports_last_failure busy_poll_refused 7
           (mk_socket_config 15 50 false) [] _ _ _ ltac:(lia) Hrun eq_refl).
Defined.

End Socket_facts.

(** ** Properties of the affinity string *)

Module Affinity_facts.

Import Process Affinity String.

Lemma length_append (s t : string) :
  length (s ++ t) = (length s + length t)%nat.
Proof. induction s as [|a s IH]; cbn; [reflexivity|now rewrite IH]. Qed.

Lemma append_assoc (s t u : string) : ((s ++ t) ++ u = s ++ (t ++ u))%string.
Proof. induction s as [|a s IH]; cbn; [reflexivity|now rewrite IH]. Qed.

Lemma append_empty_r (s : string) : (s ++ "")%string = s.
Proof. induction s as [|a s IH]; cbn; [reflexivity|now rewrite IH]. Qed.

Lemma length_substring_le (s : string) :
  ∀ n, (length (substring 0 n s) ≤ n)%nat.
Proof.
  induction s as [|a s IH]; intros [|n]; cbn; try lia.
  specialize (IH n). lia.
Qed.

Lemma substring_all (s : string) :
  ∀ n, (length s ≤ n)%nat → substring 0 n s = s.
Proof.
  induction s as [|a s IH]; intros [|n] Hn; cbn in *; try reflexivity; try lia.
  rewrite IH by lia. reflexivity.
Qed.

Lemma substring_none (s : string) : substring 0 0 s = ""%string.
Proof. destruct s; reflexivity. Qed.

Lemma format_d_nonempty (i : nat) : (0 < length (format_d i))%nat.
Proof.
  unfold format_d, DecimalString.NilZero.string_of_uint.
  destruct (Nat.to_uint i); cbn; lia.
Qed.

Lemma listed_concat (cpus : list nat) :
  listed true cpus = concat "," (map format_d cpus).
Proof.
  assert (∀ l, listed false l
               = match l with
                 | [] => ""
                 | _ :: _ => ("," ++ concat "," (map format_d l))
                 end%string) as Hrest.
  { induction l as [|c l IH]; [reflexivity|].
    cbn [listed]. rewrite IH. destruct l as [|c' l].
    - cbn. now rewrite append_empty_r.
    - cbn [map concat]. rewrite append_assoc. reflexivity. }
  destruct cpus as [|c cpus]; [reflexivity|].
  cbn [listed]. rewrite Hrest. destruct cpus as [|c' cpus].
  - cbn. now rewrite append_empty_r.
  - reflexivity.
Qed.

(** Whatever the loop does, it ends with fewer characters counted than
    the buffer has room for, and with a buffer that is either the one it
    started from or a string that fits. *)
Lemma affinity_loop_bounds (cpu_set : nat → bool) (size : Z) (n : nat) :
  ∀ (i : nat) (written : Z) (first : bool) (buffer : string),
    0 ≤ written < size →
    let '(written', buffer') := affinity_loop cpu_set size n i written first buffer in
    0 ≤ written' < size ∧
    (buffer' = buffer ∨ Z.of_nat (length buffer') < size).
Proof.
  induction n as [|n IH]; intros i written first buffer Hw; cbn [affinity_loop].
  - split; [exact Hw|now left].
  - destruct (Z.ltb_spec written (size - 1)) as [Hroom|_];
      [|split; [exact Hw|now left]].
    destruct (cpu_set i); [|apply IH; exact Hw].
    unfold snprintf.
    set (text := (if first then format_d i else "," ++ format_d i)%string).
    set (buffer1 := (substring 0 (Z.to_nat written) buffer
                     ++ substring 0 (Z.to_nat (size - written - 1)) text)%string).
    assert (Z.of_nat (length buffer1) < size) as Hfits.
    { unfold buffer1. rewrite length_append.
      pose proof (length_substring_le buffer (Z.to_nat written)).
      pose proof (length_substring_le text (Z.to_nat (size - written - 1))).
      lia. }
    destruct (Z.ltb_spec (Z.of_nat (length text)) 0) as [|_]; [lia|].
    cbn [orb].
    destruct (Z.leb_spec (size - written) (Z.of_nat (length text))) as [_|Hlen].
    + split; [exact Hw|now right].
    + specialize (IH (S i) (written + Z.of_nat (length text)) false buffer1
                    ltac:(lia)).
      destruct (affinity_loop _ _ _ _ _ _ _) as [written' buffer'].
      destruct IH as [Hw' [->|Hb]]; split; auto.
Qed.

(** If everything fits, the loop prints every entry. *)
Lemma affinity_loop_complete (cpu_set : nat → bool) (size : Z) (n : nat) :
  ∀ (i : nat) (first : bool) (buffer printed : string),
    let cpus := filter (λ c, cpu_set c = true) (seq i n) in
    (if first then printed = ""%string else buffer = printed) →
    Z.of_nat (length printed) + Z.of_nat (length (listed first cpus)) < size →
    affinity_loop cpu_set size n i (Z.of_nat (length printed)) first buffer
    = (Z.of_nat (length printed) + Z.of_nat (length (listed first cpus)),
       match cpus with
       | [] => buffer
       | _ :: _ => (printed ++ listed first cpus)%string
       end).
Proof.
  induction n as [|n IH]; intros i first buffer printed cpus Hinv Hfits.
  - cbn. f_equal. lia.
  - subst cpus. cbn [seq affinity_loop] in *. rewrite filter_cons in *.
    destruct (decide (cpu_set i = true)) as [Hset|Hclear].
    + rewrite Hset. cbn [listed] in *.
      set (text := (if first then format_d i else "," ++ format_d i)%string) in *.
      set (cpus := filter (λ c, cpu_set c = true) (seq (S i) n)) in *.
      rewrite length_append in Hfits.
      assert (0 < length text)%nat as Htext.
      { unfold text. destruct first; [apply format_d_nonempty|cbn; lia]. }
      destruct (Z.ltb_spec (Z.of_nat (length printed)) (size - 1)) as [_|]; [|lia].
      unfold snprintf.
      assert (substring 0 (Z.to_nat (Z.of_nat (length printed))) buffer = printed)
        as ->.
      { rewrite Nat2Z.id. destruct first.
        - subst printed. apply substring_none.
        - subst buffer. apply substring_all. lia. }
      rewrite (substring_all text) by lia.
      destruct (Z.ltb_spec (Z.of_nat (length text)) 0) as [|_]; [lia|].
      cbn [orb].
      destruct (Z.leb_spec (size - Z.of_nat (length printed))
                  (Z.of_nat (length text))) as [|_]; [lia|].
      replace (Z.of_nat (length printed) + Z.of_nat (length text))
        with (Z.of_nat (length (printed ++ text))) by (rewrite length_append; lia).
      rewrite (IH (S i) false (printed ++ text)%string (printed ++ text)%string
                 eq_refl); fold cpus.
      * rewrite !length_append. f_equal; [lia|].
        destruct cpus; [cbn; now rewrite append_empty_r|].
        now rewrite append_assoc.
      * rewrite length_append. lia.
    + assert (cpu_set i = false) as -> by (destruct (cpu_set i); congruence).
      destruct (Z.ltb_spec (Z.of_nat (length printed)) (size - 1)) as [_|Hfull].
      * apply IH; assumption.
      * set (cpus := filter (λ c, cpu_set c = true) (seq (S i) n)) in *.
        destruct cpus as [|c cpus]; [cbn; f_equal; lia|].
        exfalso. cbn [listed] in Hfits. rewrite length_append in Hfits.
        assert (0 < length (if first then format_d c else "," ++ format_d c)%string)%nat.
        { destruct first; [apply format_d_nonempty|cbn; lia]. }
        lia.
Qed.

(** X20.  [system_get_cpu_affinity_string] returns
    [SYSTEM_ERROR_INVALID_PARAM] for a NULL buffer or a size of zero,
    [SYSTEM_ERROR_AFFINITY] if the affinity query fails, and [SYSTEM_OK]
    in every other case: its "buffer too small" result,
    [SYSTEM_ERROR_MEMORY], cannot occur, since a list that does not fit is
    cut short without notice.  What it leaves in the buffer always fits;
    with a size of 1 or an empty set it does not write to the buffer at
    all. *)
Theorem affinity_string_never_too_small (buffer : option string) (size : Z)
    (affinity : option (nat → bool)) :
  0 ≤ size →
  let '(r, out) := system_get_cpu_affinity_string buffer size affinity in
  r = match buffer, affinity with
      | None, _ => SYSTEM_ERROR_INVALID_PARAM
      | Some _, None =>
        if size =? 0 then SYSTEM_ERROR_INVALID_PARAM else SYSTEM_ERROR_AFFINITY
      | Some _, Some _ =>
        if size =? 0 then SYSTEM_ERROR_INVALID_PARAM else SYSTEM_OK
      end ∧
  match buffer, out with
  | None, None => True
  | Some b, Some text =>
    (text = b ∨ Z.of_nat (length text) < size) ∧
    (size ≤ 1 ∨ r ≠ SYSTEM_OK → text = b)
  | _, _ => False
  end.
Proof.
  intros Hsize. unfold system_get_cpu_affinity_string.
  destruct buffer as [b|]; [|done].
  destruct (Z.eqb_spec size 0) as [->|Hnz]; [split; [now destruct affinity|auto]|].
  destruct affinity as [cpu_set|]; [|split; [done|auto]].
  pose proof (affinity_loop_bounds cpu_set size CPU_SETSIZE 0 0 true b ltac:(lia))
    as Hloop.
  assert (size ≤ 1 → affinity_loop cpu_set size CPU_SETSIZE 0 0 true b = (0, b))
    as Hone.
  { intros H1. generalize CPU_SETSIZE. intros [|n]; [reflexivity|].
    cbn [affinity_loop]. destruct (Z.ltb_spec 0 (size - 1)); [lia|reflexivity]. }
  destruct (affinity_loop cpu_set size CPU_SETSIZE 0 0 true b) as [written text].
  destruct Hloop as [Hw Hb].
  destruct (Z.leb_spec size written) as [|_]; [lia|].
  split; [reflexivity|]. split; [exact Hb|].
  intros [H1|Hr]; [|done]. specialize (Hone H1). congruence.
Qed.

(** X21.  If the affinity set is not empty and the comma-separated list
    of its CPU numbers, in ascending order, is shorter than the buffer,
    [system_get_cpu_affinity_string] leaves exactly that list in the
    buffer, whatever the buffer held before. *)
Theorem affinity_string_complete (b : string) (size : Z) (cpu_set : nat → bool) :
  let cpus := filter (λ c, cpu_set c = true) (seq 0 CPU_SETSIZE) in
  cpus ≠ [] →
  Z.of_nat (length (concat "," (map format_d cpus))) < size →
  system_get_cpu_affinity_string (Some b) size (Some cpu_set)
  = (SYSTEM_OK, Some (concat "," (map format_d cpus))).
Proof.
  intros cpus Hcpus Hfits. unfold system_get_cpu_affinity_string.
  destruct (Z.eqb_spec size 0) as [->|_]; [lia|].
  rewrite <- listed_concat in *.
  pose proof (affinity_loop_complete cpu_set size CPU_SETSIZE 0 true b ""
                eq_refl) as Hloop.
  cbv zeta in Hloop. fold cpus in Hloop.
  change (Z.of_nat (length "")) with 0 in Hloop.
  rewrite Hloop by lia.
  destruct (Z.leb_spec size (0 + Z.of_nat (length (listed true cpus)))); [lia|].
  destruct cpus; [done|]. reflexivity.
Qed.

Lemma affinity_string_never_too_small_witness :
  (system_get_cpu_affinity_string (Some "junk"%string) 4
     (Some three_cpus)).1 = SYSTEM_OK.
Proof.
  pose proof (affinity_string_never_too_small
                (Some "junk"%string) 4 (Some three_cpus)
                ltac:(lia)) as H.
  destruct (system_get_cpu_affinity_string _ _ _) as [r out].
  exact (proj1 H).
Defined.

Lemma affinity_string_complete_witness :
  system_get_cpu_affinity_string (Some "junk"%string) 16
    (Some three_cpus)
  = (SYSTEM_OK, Some "1,3,12"%string).
Proof.
  refine (affinity_string_complete "junk"%string 16
            three_cpus _ _).
  - vm_compute. discriminate.
  - vm_compute. reflexivity.
Defined.

End Affinity_facts.

(** ** Properties of http_server.c and http_response.c *)

Module Http_facts.

Import Http String.

Local Open Scope string_scope.
Local Open Scope Z_scope.

Lemma strlen_append (s t : string) : strlen (s ++ t) = strlen s + strlen t.
Proof. unfold strlen. rewrite Affinity_facts.length_append. lia. Qed.

Lemma strlen_nonneg (s : string) : 0 ≤ strlen s.
Proof. unfold strlen. lia. Qed.

Lemma strlen_substring_le (s : string) (n : Z) :
  0 ≤ n → strlen (substring 0 (Z.to_nat n) s) ≤ n.
Proof.
  intros Hn. unfold strlen.
  pose proof (Affinity_facts.length_substring_le s (Z.to_nat n)). lia.
Qed.

Lemma strlen_substring_exact (s : string) (n : Z) :
  0 ≤ n ≤ strlen s → strlen (substring 0 (Z.to_nat n) s) = n.
Proof.
  unfold strlen. intros Hn.
  assert (∀ (t : string) (k : nat),
            (k ≤ length t)%nat → length (substring 0 k t) = k) as Hexact.
  { induction t as [|a t IH]; intros [|k] Hk; cbn in *; try reflexivity; try lia.
    rewrite IH by lia. reflexivity. }
  rewrite Hexact by lia. lia.
Qed.

(** X22.  [http_server_create] stores the configuration and, if a JSON
    message is configured, the text [{"message":"] + message + ["}] with
    the message inserted as it is (nothing is escaped).  It succeeds
    exactly when that text is shorter than the 4096-byte buffer, that is
    for messages of at most 4081 characters, and then records the length
    of the text; otherwise it returns [HTTP_SERVER_ERROR_MEMORY] and
    leaves the first 4095 characters in the buffer with a recorded length
    of 0. *)
Theorem create_formats_message (s0 : http_server_t) (c : http_server_config_t) :
  let '(r, out) := http_server_create (Some s0) (Some c) in
  match json_message c with
  | None => r = HTTP_SERVER_OK ∧ out = Some (mk_http_server c "" 0)
  | Some message =>
    let text := "{" ++ dquote ++ "message" ++ dquote ++ ":"
                ++ dquote ++ message ++ dquote ++ "}" in
    strlen text = strlen message + 14 ∧
    if strlen message <=? 4081
    then r = HTTP_SERVER_OK ∧ out = Some (mk_http_server c text (strlen text))
    else r = HTTP_SERVER_ERROR_MEMORY ∧
         ∃ s, out = Some s ∧ json_buffer_size s = 0 ∧
              strlen (json_buffer s) = 4095 ∧
              json_buffer s = substring 0 4095 text
  end.
Proof.
  unfold http_server_create. destruct (json_message c) as [message|]; [|done].
  cbv zeta.
  set (text := "{" ++ dquote ++ "message" ++ dquote ++ ":"
               ++ dquote ++ message ++ dquote ++ "}").
  assert (strlen text = strlen message + 14) as Hlen.
  { unfold text. rewrite !strlen_append. unfold dquote, strlen. cbn. lia. }
  destruct (Z.ltb_spec (strlen text) 0) as [Hneg|_];
    [pose proof (strlen_nonneg text); lia|].
  cbn [orb]. unfold sizeof_json_buffer.
  destruct (Z.leb_spec (strlen message) 4081) as [Hfits|Hlong].
  - destruct (Z.leb_spec 4096 (strlen text)) as [|_]; [lia|].
    split; [exact Hlen|]. split; [reflexivity|]. cbn [json_buffer]. do 2 f_equal.
    apply Affinity_facts.substring_all. unfold strlen in *. lia.
  - destruct (Z.leb_spec 4096 (strlen text)) as [_|]; [|lia].
    split; [exact Hlen|]. split; [reflexivity|]. eexists. split; [reflexivity|].
    cbn [json_buffer json_buffer_size zero_server].
    change (Z.to_nat (4096 - 1)) with 4095%nat.
    split; [reflexivity|]. split; [|reflexivity].
    change 4095%nat with (Z.to_nat 4095).
    apply strlen_substring_exact. lia.
Qed.

(** X23.  On a server that [http_server_create] has set up successfully,
    [http_server_generate_response] succeeds for every route and describes
    a response that [http_response_build] accepts: a known status (404 for
    an unknown route, 200 otherwise), a known content type
    (application/json for the JSON route, text/plain otherwise), and a
    body length that is exactly the length of the body (0 for a missing
    body); the Date header is included as the configuration says. *)
Theorem generated_response_is_consistent (s0 s : http_server_t)
    (c : http_server_config_t) (route : http_route_t)
    (r0 : http_response_config_t) :
  http_server_create (Some s0) (Some c) = (HTTP_SERVER_OK, Some s) →
  ∃ r,
    http_server_generate_response (Some s) route (Some r0)
    = (HTTP_SERVER_OK, Some r) ∧
    status_code r = (if route is ROUTE_UNKNOWN then HTTP_STATUS_NOT_FOUND
                     else HTTP_STATUS_OK) ∧
    content_type r = (if route is ROUTE_JSON then CONTENT_TYPE_APPLICATION_JSON
                      else CONTENT_TYPE_TEXT_PLAIN) ∧
    http_response_status_string (status_code r) ≠ None ∧
    http_response_content_type_string (content_type r) ≠ None ∧
    body_length r = match body r with Some text => strlen text | None => 0 end ∧
    include_date_header r = enable_date_headers c.
Proof.
  intros Hcreate.
  assert (config s = c ∧ json_buffer_size s = strlen (json_buffer s))
    as [Hconfig Hsize].
  { unfold http_server_create in Hcreate.
    destruct (json_message c) as [message|]; cbv zeta in Hcreate.
    - set (text := "{" ++ dquote ++ "message" ++ dquote ++ ":"
                   ++ dquote ++ message ++ dquote ++ "}") in *.
      clearbody text.
      destruct (Z.ltb_spec (strlen text) 0) as [|_]; [discriminate|].
      destruct (Z.leb_spec sizeof_json_buffer (strlen text)) as [|Hfits];
        [discriminate|].
      injection Hcreate as <-. cbn [config json_buffer json_buffer_size].
      split; [reflexivity|].
      rewrite (Affinity_facts.substring_all text); [reflexivity|].
      unfold sizeof_json_buffer, strlen in *. lia.
    - injection Hcreate as <-. done. }
  unfold http_server_generate_response.
  destruct route; eexists; (split; [reflexivity|]); cbn; rewrite ?Hconfig;
    split_and!; done.
Qed.

(** What [http_response_build] does with a valid configuration and a
    reset buffer: the response is written if it is shorter than the
    buffer, and nothing is recorded as used otherwise. *)
Lemma build_run (b : http_response_buffer_t) (c : http_response_config_t)
    (date status_line content_type_name : string) :
  used b = 0 →
  http_response_status_string (status_code c) = Some status_line →
  http_response_content_type_string (content_type c) = Some content_type_name →
  (include_date_header c = true → strlen date ≤ 29) →
  strlen (format_zu (body_length c)) < 16 →
  match body c with Some text => body_length c ≤ strlen text | None => True end →
  let text := rendered status_line content_type_name date c in
  ∃ b',
    http_response_build (Some b) (Some c) date
    = Some (if strlen text <? size b then HTTP_RESPONSE_OK
            else HTTP_RESPONSE_ERROR_BUFFER_OVERFLOW, Some b') ∧
    size b' = size b ∧
    if strlen text <? size b
    then buffer b' = overlay text (buffer b) ∧ used b' = strlen text
    else used b' = 0.
Proof.
  intros Hused Hstatus Htype Hdate Hdigits Hbody text.
  assert (strlen text
          = strlen status_line + 11
            + (if include_date_header c then 8 + strlen date else 0)
            + 14 + strlen content_type_name + 2
            + 16 + strlen (format_zu (body_length c)) + 2 + 2
            + strlen (body_bytes c)) as Htext.
  { unfold text, rendered. rewrite !strlen_append.
    destruct (include_date_header c); rewrite ?strlen_append;
      unfold CRLF, strlen; cbn [length]; lia. }
  assert (strlen (body_bytes c)
          = match body c with
            | Some _ => if 0 <? body_length c then body_length c else 0
            | None => 0
            end) as Hbytes.
  { unfold body_bytes. destruct (body c) as [content|]; [|reflexivity].
    destruct (Z.ltb_spec 0 (body_length c)); [|reflexivity].
    apply strlen_substring_exact. lia. }
  pose proof (strlen_nonneg status_line).
  pose proof (strlen_nonneg content_type_name).
  pose proof (strlen_nonneg date).
  pose proof (strlen_nonneg (format_zu (body_length c))).
  pose proof (strlen_nonneg (body_bytes c)).
  assert (strlen ("Server: L" ++ CRLF) = 11) as Hserver by reflexivity.
  assert (strlen "Content-Type: " = 14) as Hprefix by reflexivity.
  assert (strlen "Content-Length: " = 16) as Hlength by reflexivity.
  assert (strlen CRLF = 2) as Hcrlf by reflexivity.
  unfold http_response_build. rewrite Hused, Hstatus, Htype.
  change (0 <? 0) with false. cbv beta iota zeta.
  unfold copy, sizeof_date_header. cbn [fst snd].
  rewrite ?Hserver, ?Hprefix, ?Hlength, ?Hcrlf.
  destruct (Z.leb_spec (size b) (strlen status_line)) as [|R1].
  { destruct (Z.ltb_spec (strlen text) (size b));
      [destruct (include_date_header c); lia|]. eexists; done. }
  destruct (Z.leb_spec (size b - strlen status_line) 11) as [|R2].
  { destruct (Z.ltb_spec (strlen text) (size b));
      [destruct (include_date_header c); lia|]. eexists; done. }
  destruct (include_date_header c) eqn:Hinclude.
  - specialize (Hdate eq_refl).
    destruct (Z.ltb_spec 38 (6 + strlen date + 3)) as [|_]; [lia|].
    assert (strlen ("Date: " ++ date ++ CRLF) = 8 + strlen date) as Hheader.
    { rewrite !strlen_append. unfold CRLF, strlen. cbn [length]. lia. }
    rewrite Hheader.
    destruct (Z.leb_spec (size b - strlen status_line - 11) (8 + strlen date))
      as [|R3].
    { destruct (Z.ltb_spec (strlen text) (size b)); [lia|]. eexists; done. }
    cbn [fst snd]. rewrite ?Hheader.
    destruct (Z.leb_spec (size b - strlen status_line - 11 - (8 + strlen date))
                (14 + strlen content_type_name + 2)) as [|R4].
    { destruct (Z.ltb_spec (strlen text) (size b)); [lia|]. eexists; done. }
    destruct (Z.leb_spec 16 (strlen (format_zu (body_length c)))) as [|_]; [lia|].
    destruct (Z.leb_spec
                (size b - strlen status_line - 11 - (8 + strlen date) - 14
                 - strlen content_type_name - 2)
                (16 + strlen (format_zu (body_length c)) + 2)) as [|R5].
    { destruct (Z.ltb_spec (strlen text) (size b)); [lia|]. eexists; done. }
    destruct (Z.leb_spec
                (size b - strlen status_line - 11 - (8 + strlen date) - 14
                 - strlen content_type_name - 2 - 16
                 - strlen (format_zu (body_length c)) - 2) 2) as [|R6].
    { destruct (Z.ltb_spec (strlen text) (size b)); [lia|]. eexists; done. }
    destruct (body c) as [content|] eqn:Hcontent.
    + destruct (Z.ltb_spec 0 (body_length c)) as [Hpos|Hzero].
      * match goal with |- context [?room <=? body_length c] =>
          destruct (Z.leb_spec room (body_length c)) as [|R7] end.
        { destruct (Z.ltb_spec (strlen text) (size b)); [lia|]. eexists; done. }
        destruct (Z.ltb_spec (strlen content) (body_length c)) as [|_]; [lia|].
        destruct (Z.ltb_spec (strlen text) (size b)); [|lia].
        eexists. split; [reflexivity|]. split; [reflexivity|].
        cbn [buffer used]. split.
        -- f_equal. unfold text, rendered, body_bytes.
           rewrite Hinclude, Hcontent.
           destruct (Z.ltb_spec 0 (body_length c)); [|lia].
           rewrite !Affinity_facts.append_assoc. reflexivity.
        -- rewrite (strlen_substring_exact content) by lia. lia.
      * destruct (Z.ltb_spec (strlen text) (size b)); [|lia].
        eexists. split; [reflexivity|]. split; [reflexivity|].
        cbn [buffer used]. split.
        -- f_equal. unfold text, rendered, body_bytes.
           rewrite Hinclude, Hcontent.
           destruct (Z.ltb_spec 0 (body_length c)); [lia|].
           rewrite !Affinity_facts.append_assoc.
           rewrite ?Affinity_facts.append_empty_r. reflexivity.
        -- lia.
    + destruct (Z.ltb_spec (strlen text) (size b)); [|lia].
      eexists. split; [reflexivity|]. split; [reflexivity|].
      cbn [buffer used]. split.
      * f_equal. unfold text, rendered, body_bytes. rewrite Hinclude, Hcontent.
        rewrite !Affinity_facts.append_assoc.
        rewrite ?Affinity_facts.append_empty_r. reflexivity.
      * lia.
  - cbn [fst snd].
    destruct (Z.leb_spec (size b - strlen status_line - 11)
                (14 + strlen content_type_name + 2)) as [|R4].
    { destruct (Z.ltb_spec (strlen text) (size b)); [lia|]. eexists; done. }
    destruct (Z.leb_spec 16 (strlen (format_zu (body_length c)))) as [|_]; [lia|].
    destruct (Z.leb_spec
                (size b - strlen status_line - 11 - 14
                 - strlen content_type_name - 2)
                (16 + strlen (format_zu (body_length c)) + 2)) as [|R5].
    { destruct (Z.ltb_spec (strlen text) (size b)); [lia|]. eexists; done. }
    destruct (Z.leb_spec
                (size b - strlen status_line - 11 - 14
                 - strlen content_type_name - 2 - 16
                 - strlen (format_zu (body_length c)) - 2) 2) as [|R6].
    { destruct (Z.ltb_spec (strlen text) (size b)); [lia|]. eexists; done. }
    destruct (body c) as [content|] eqn:Hcontent.
    + destruct (Z.ltb_spec 0 (body_length c)) as [Hpos|Hzero].
      * match goal with |- context [?room <=? body_length c] =>
          destruct (Z.leb_spec room (body_length c)) as [|R7] end.
        { destruct (Z.ltb_spec (strlen text) (size b)); [lia|]. eexists; done. }
        destruct (Z.ltb_spec (strlen content) (body_length c)) as [|_]; [lia|].
        destruct (Z.ltb_spec (strlen text) (size b)); [|lia].
        eexists. split; [reflexivity|]. split; [reflexivity|].
        cbn [buffer used]. split.
        -- f_equal. unfold text, rendered, body_bytes.
           rewrite Hinclude, Hcontent.
           destruct (Z.ltb_spec 0 (body_length c)); [|lia].
           rewrite !Affinity_facts.append_assoc. reflexivity.
        -- rewrite (strlen_substring_exact content) by lia. lia.
      * destruct (Z.ltb_spec (strlen text) (size b)); [|lia].
        eexists. split; [reflexivity|]. split; [reflexivity|].
        cbn [buffer used]. split.
        -- f_equal. unfold text, rendered, body_bytes.
           rewrite Hinclude, Hcontent.
           destruct (Z.ltb_spec 0 (body_length c)); [lia|].
           rewrite !Affinity_facts.append_assoc.
           rewrite ?Affinity_facts.append_empty_r. reflexivity.
        -- lia.
    + destruct (Z.ltb_spec (strlen text) (size b)); [|lia].
      eexists. split; [reflexivity|]. split; [reflexivity|].
      cbn [buffer used]. split.
      * f_equal. unfold text, rendered, body_bytes. rewrite Hinclude, Hcontent.
        rewrite !Affinity_facts.append_assoc.
        rewrite ?Affinity_facts.append_empty_r. reflexivity.
      * lia.
Qed.

(** X24.  For a configuration with a known status and content type,
    [http_response_build] on a reset buffer writes the status line, the
    Server header, the Date header if asked for, the Content-Type and
    Content-Length headers, an empty line and [body_length] bytes of the
    body, in this order and with nothing else, and records the length of
    this text as used.  It does so exactly when the text is strictly
    shorter than the buffer; otherwise it returns
    [HTTP_RESPONSE_ERROR_BUFFER_OVERFLOW] and records nothing as used. *)
Theorem build_writes_response (b : http_response_buffer_t)
    (c : http_response_config_t) (date status_line content_type_name : string) :
  used b = 0 →
  http_response_status_string (status_code c) = Some status_line →
  http_response_content_type_string (content_type c) = Some content_type_name →
  (include_date_header c = true → strlen date ≤ 29) →
  strlen (format_zu (body_length c)) < 16 →
  match body c with Some text => body_length c ≤ strlen text | None => True end →
  let text := rendered status_line content_type_name date c in
  (strlen text < size b →
   http_response_build (Some b) (Some c) date
   = Some (HTTP_RESPONSE_OK,
           Some (mk_http_response_buffer (overlay text (buffer b)) (size b)
                   (strlen text)))) ∧
  (size b ≤ strlen text →
   ∃ b', http_response_build (Some b) (Some c) date
         = Some (HTTP_RESPONSE_ERROR_BUFFER_OVERFLOW, Some b') ∧
         size b' = size b ∧ used b' = 0).
Proof.
  intros Hused Hstatus Htype Hdate Hdigits Hbody text.
  destruct (build_run b c date status_line content_type_name Hused Hstatus Htype
              Hdate Hdigits Hbody) as (b' & Hrun & Hsize & Hrest).
  fold text in Hrun, Hrest. split.
  - intros Hfits. destruct (Z.ltb_spec (strlen text) (size b)); [|lia].
    rewrite Hrun. destruct b' as [content size' used']. cbn in *.
    destruct Hrest as [-> ->]. now rewrite Hsize.
  - intros Hlong. destruct (Z.ltb_spec (strlen text) (size b)); [lia|].
    exists b'. done.
Qed.

(** X25.  [http_response_calculate_size] is 0 for an unknown status or
    content type and otherwise an upper bound of what
    [http_response_build] writes, as long as the body length has at most
    ten digits: a reset buffer larger than the calculated size always
    receives the whole response. *)
Theorem calculated_size_suffices (b : http_response_buffer_t)
    (c : http_response_config_t) (date : string) :
  used b = 0 →
  0 ≤ body_length c →
  strlen date ≤ 29 →
  strlen (format_zu (body_length c)) ≤ 10 →
  match body c with Some text => body_length c ≤ strlen text | None => True end →
  http_response_calculate_size (Some c) ≠ 0 →
  http_response_calculate_size (Some c) < size b →
  ∃ b', http_response_build (Some b) (Some c) date
        = Some (HTTP_RESPONSE_OK, Some b') ∧
        0 < used b' ≤ http_response_calculate_size (Some c).
Proof.
  intros Hused Hlength Hdate Hdigits Hbody Hknown Hroom.
  unfold http_response_calculate_size in Hknown, Hroom |- *.
  destruct (http_response_status_string (status_code c)) as [status_line|]
    eqn:Hstatus; [|done].
  destruct (http_response_content_type_string (content_type c))
    as [content_type_name|] eqn:Htype; [|done].
  destruct (build_run b c date status_line content_type_name Hused Hstatus Htype
              ltac:(auto) ltac:(lia) Hbody) as (b' & Hrun & _ & Hrest).
  cbv zeta in Hrun, Hrest, Hroom |- *.
  set (text := rendered status_line content_type_name date c) in *.
  assert (strlen ("Server: L" ++ CRLF) = 11) as Hserver by reflexivity.
  assert (strlen "Content-Type: " = 14) as Hprefix by reflexivity.
  assert (strlen "Content-Length: " = 16) as Hcl by reflexivity.
  assert (strlen CRLF = 2) as Hcrlf by reflexivity.
  rewrite Hserver, Hprefix, Hcl, Hcrlf in *. unfold sizeof_date_header in *.
  assert (strlen (body_bytes c) ≤ body_length c) as Hbytes.
  { unfold body_bytes. destruct (body c); [|exact Hlength].
    destruct (0 <? body_length c); [|exact Hlength].
    now apply strlen_substring_le. }
  assert (0 < strlen text ∧
          strlen text
          ≤ 0 + strlen status_line + 11
            + (if include_date_header c then 37 else 0)
            + 14 + strlen content_type_name + 2 + 16 + 10 + 2 + 2
            + body_length c) as [Hpos Hbound].
  { unfold text, rendered. clear Hrun Hrest Hknown Hroom.
    destruct (include_date_header c); rewrite !strlen_append;
      unfold strlen, CRLF in *; cbn [length]; lia. }
  assert (strlen text < size b) as Hfits.
  { destruct (include_date_header c); lia. }
  destruct (Z.ltb_spec (strlen text) (size b)); [|lia].
  exists b'. split; [exact Hrun|]. destruct Hrest as [_ ->].
  destruct (include_date_header c); lia.
Qed.

Lemma generated_response_is_consistent_witness :
  ∃ r,
    http_server_generate_response
      (http_server_create (Some zero_server) (Some hello_config)).2
      ROUTE_JSON (Some hello_response)
    = (HTTP_SERVER_OK, Some r) ∧
    body_length r = match body r with Some text => strlen text | None => 0 end.
Proof.
  destruct (http_server_create (Some zero_server) (Some hello_config))
    as [e out] eqn:Hcreate.
  pose proof Hcreate as Hval. vm_compute in Hval. injection Hval as <- <-.
  destruct (generated_response_is_consistent zero_server _ hello_config ROUTE_JSON
              hello_response Hcreate) as (r & Hrun & _ & _ & _ & _ & Hlen & _).
  exists r. split; [exact Hrun|exact Hlen].
Defined.

Lemma build_writes_response_witness :
  (http_response_build (Some fresh_buffer) (Some hello_response) epoch_date
   = Some (HTTP_RESPONSE_OK,
           Some (mk_http_response_buffer
                   (overlay
                      (rendered ("HTTP/1.1 200 OK" ++ CRLF) "text/plain"
                         epoch_date hello_response) "")
                   256 126))) ∧
  ∃ b', http_response_build (Some (mk_http_response_buffer "" 126 0))
          (Some hello_response) epoch_date
        = Some (HTTP_RESPONSE_ERROR_BUFFER_OVERFLOW, Some b') ∧
        size b' = 126 ∧ used b' = 0.
Proof.
  split.
  - refine (proj1 (build_writes_response fresh_buffer hello_response epoch_date
                     ("HTTP/1.1 200 OK" ++ CRLF) "text/plain"
                     eq_refl eq_refl eq_refl _ _ _) _);
      vm_compute; congruence.
  - refine (proj2 (build_writes_response (mk_http_response_buffer "" 126 0)
                     hello_response epoch_date
                     ("HTTP/1.1 200 OK" ++ CRLF) "text/plain"
                     eq_refl eq_refl eq_refl _ _ _) _);
      vm_compute; congruence.
Defined.

Lemma calculated_size_suffices_witness :
  ∃ b', http_response_build (Some fresh_buffer) (Some hello_response) epoch_date
        = Some (HTTP_RESPONSE_OK, Some b') ∧
        0 < used b' ≤ 134.
Proof.
  refine (calculated_size_suffices fresh_buffer hello_response epoch_date
            eq_refl _ _ _ _ _ _); vm_compute; congruence.
Defined.

End Http_facts.

(** ** Properties of server_infrastructure.c *)

Module Server_facts.

Import Process Server.

(** The branch in which [system_get_cpu_info] has failed. *)
Local Ltac fallback :=
  cbv beta iota zeta;
  rewrite bool_decide_eq_false_2 by discriminate;
  cbv beta iota zeta delta [andb ret worker_config enable_affinity cpu_ids
    worker_count fst snd];
  split_and!; try reflexivity; try discriminate; intros; reflexivity.

(** X19.  The worker part of [server_infrastructure_default_config]: CPU
    pinning is always enabled, and the only calls made are those of
    [system_get_cpu_info].  If the affinity query succeeds with a set
    that is not empty and the array for it can be allocated (so that
    [system_get_cpu_info] returns [SYSTEM_OK]), there is one worker per
    CPU of the set and [cpu_ids] lists those CPUs in ascending order, a
    configuration [worker_manager_init] reads in full.  In every other
    case [system_get_cpu_info] has failed and the fallback is one worker
    with a NULL [cpu_ids], a configuration that [worker_manager_init]
    rejects with [PROCESS_ERROR_INVALID_PARAM], leaving the manager
    untouched. *)
Theorem default_config_workers (os : os_t) (online : option (nat → bool))
    (garbage : nat → Z) (cpu_info : system_cpu_info_t) (w : world) :
  let '(c, w1) :=
    server_infrastructure_default_config os online garbage cpu_info w in
  let workers := worker_config c in
  let query := system_get_cpu_info os (Some cpu_info) online garbage w in
  let fallback :=
    query.1.1 ≠ SYSTEM_OK ∧
    worker_count workers = 1 ∧ cpu_ids workers = None ∧
    ∀ m w2,
      worker_manager_init os (Some m) (Some workers) w2
      = ((PROCESS_ERROR_INVALID_PARAM, Some m), w2) in
  w1 = query.2 ∧
  enable_affinity workers = true ∧
  match online with
  | None => fallback
  | Some set =>
    let cpus := filter (λ c, set c = true) (seq 0 CPU_SETSIZE) in
    match cpus with
    | [] => fallback
    | _ :: _ =>
      if os_malloc os (trace w) (Z.of_nat (length cpus) * sizeof_int)
      then query.1.1 = SYSTEM_OK ∧
           worker_count workers = Z.of_nat (length cpus) ∧
           cpu_ids workers = Some (map Z.of_nat cpus) ∧
           memcpy_ints (Z.to_nat (worker_count workers)) (map Z.of_nat cpus)
           = map Z.of_nat cpus
      else fallback
    end
  end.
Proof.
  unfold server_infrastructure_default_config, bind.
  pose proof (Process_facts.system_get_cpu_info_spec os cpu_info online garbage w)
    as Hinfo.
  destruct (system_get_cpu_info os (Some cpu_info) online garbage w)
    as [[r info] w1].
  destruct online as [set|].
  2:{ destruct Hinfo as (-> & _ & _). fallback. }
  cbv zeta in Hinfo.
  destruct (filter (λ c, set c = true) (seq 0 CPU_SETSIZE)) as [|c0 cpus] eqn:Hcpus.
  { destruct Hinfo as (-> & _ & _). fallback. }
  destruct Hinfo as [_ Hinfo].
  destruct (os_malloc os (trace w) _).
  2:{ destruct Hinfo as [-> _]. fallback. }
  destruct Hinfo as [-> ->].
  cbv beta iota zeta. rewrite bool_decide_eq_true_2 by reflexivity.
  assert ((0 <? count (default cpu_info
                         (Some (mk_system_cpu_info
                                  (Z.of_nat (length (c0 :: cpus)))
                                  (Some (map Z.of_nat (c0 :: cpus))))))) = true) as ->.
  { apply Z.ltb_lt. cbn [default from_option id count length]. lia. }
  cbv beta iota zeta delta [andb ret worker_config enable_affinity cpu_ids
    worker_count default from_option id count info_cpu_ids fst snd].
  split_and!; try reflexivity.
  unfold memcpy_ints. rewrite Nat2Z.id. apply take_ge.
  rewrite length_map. lia.
Qed.

(** *** Creation and destruction of the infrastructure *)

Section Infrastructure.

Context {numbers : Signals.signal_numbers}.

Variable os : os_t.

Variable sigaction_result : list Signals.event → Z → Signals.disposition → Z.

Lemma http_create_fits (c : server_config_t) :
  json_fits c →
  ∃ server,
    Http.http_server_create (Some Http.zero_server)
      (Some (Http.mk_http_server_config (plaintext_response c) (json_message c)
               (enable_date_headers c)))
    = (Http.HTTP_SERVER_OK, Some server).
Proof.
  unfold json_fits, Http.http_server_create. cbn [Http.json_message].
  destruct (json_message c) as [message|]; [|eauto]. intros Hfits.
  cbv zeta.
  match goal with |- context [Http.strlen ?t <? 0] => set (text := t) end.
  assert (Http.strlen text = Http.strlen message + 14) as Hlen.
  { unfold text. rewrite !Http_facts.strlen_append.
    unfold Http.dquote, Http.strlen. cbn [String.length]. lia. }
  destruct (Z.ltb_spec (Http.strlen text) 0); [unfold Http.strlen in *; lia|].
  destruct (Z.leb_spec Http.sizeof_json_buffer (Http.strlen text));
    [unfold Http.sizeof_json_buffer in *; lia|].
  cbn [orb]. eauto.
Qed.

(** X26.  [server_infrastructure_create] does not look at the result of
    [worker_manager_init].  With a worker configuration that
    [worker_manager_init] rejects (a pool size of zero or less, or no CPU
    list: the fallback of [server_infrastructure_default_config] is one),
    a JSON message that fits and a kernel that accepts the signal
    handlers, it returns [SERVER_INFRA_OK] and marks the infrastructure as
    initialised although its worker manager is still all zero; no system
    call of process.c has been made, and [worker_manager_fork_workers] on
    this manager then forks nothing and reports success. *)
Theorem create_succeeds_without_workers (infra0 : server_infrastructure_t)
    (p : Signals.loc) (c : server_config_t) (st : machine) :
  json_fits c →
  (∀ h signum d, sigaction_result h signum d ≠ -1) →
  worker_count (worker_config c) ≤ 0 ∨ cpu_ids (worker_config c) = None →
  ∃ infra1 st1,
    server_infrastructure_create os sigaction_result (Some infra0) p (Some c) st
    = ((SERVER_INFRA_OK, Some infra1), st1) ∧
    initialized infra1 = true ∧
    worker_manager infra1 = zero_manager ∧
    platform st1 = platform st ∧
    worker_manager_fork_workers os (Some (worker_manager infra1)) (platform st1)
    = ((PROCESS_OK, Some zero_manager),
       mk_world (system_initialized (platform st))
         (trace (platform st) ++ [Ev_log_info (Msg_running_with 0)])).
Proof.
  intros Hjson Hfine Hbad. unfold server_infrastructure_create.
  cbn [http_server worker_manager platform signal_state logged].
  destruct (http_create_fits c Hjson) as [server ->]. cbn [default from_option id].
  rewrite (Process_facts.init_rejects os zero_manager (worker_config c) _ Hbad).
  cbn [default from_option id platform signal_state logged].
  rewrite Signals_facts.init_unfold.
  match goal with |- context [Signals.setup_all _ ?sigs ?s0] =>
    pose proof (Signals_facts.setup_all_succeeds sigaction_result sigs Hfine s0)
      as Hok;
    destruct (Signals.setup_all sigaction_result sigs s0) as [e s1] end.
  cbn [fst] in Hok. subst e.
  eexists _, _. split; [reflexivity|]. cbn [initialized worker_manager platform].
  split_and!; try reflexivity.
Qed.

(** X27.  Because the result of [worker_manager_init] is ignored, the
    allocation failure of its slot array goes unnoticed:
    [server_infrastructure_create] still returns [SERVER_INFRA_OK], and
    [server_infrastructure_destroy] then releases the CPU-id array, which
    [worker_manager_init] has already released, a second time. *)
Theorem destroy_releases_twice (infra0 : server_infrastructure_t)
    (p : Signals.loc) (c : server_config_t) (st : machine) :
  json_fits c →
  (∀ h signum d, sigaction_result h signum d ≠ -1) →
  0 < worker_count (worker_config c) →
  cpu_ids (worker_config c) ≠ None →
  let w0 := (system_init (platform st)).2 in
  let first := worker_count (worker_config c) * sizeof_int in
  let second := worker_count (worker_config c) * sizeof_worker_context in
  os_malloc os (trace w0) first = true →
  os_malloc os (trace w0 ++ [Ev_malloc first true]) second = false →
  ∃ infra1 st1 st2,
    server_infrastructure_create os sigaction_result (Some infra0) p (Some c) st
    = ((SERVER_INFRA_OK, Some infra1), st1) ∧
    initialized infra1 = true ∧
    server_infrastructure_destroy sigaction_result (Some infra1) p st1
    = (Some zero_infrastructure, st2) ∧
    trace (platform st2)
    = trace w0 ++ [Ev_malloc first true; Ev_malloc second false;
                   Ev_free Blk_cpu_ids; Ev_free Blk_cpu_ids].
Proof.
  intros Hjson Hfine Hpos Hsrc w0 first second Hfirst Hsecond.
  unfold server_infrastructure_create.
  cbn [http_server worker_manager platform signal_state logged].
  destruct (http_create_fits c Hjson) as [server ->]. cbn [default from_option id].
  destruct (Process_facts.init_slot_failure_run os zero_manager (worker_config c)
              (platform st) Hpos Hsrc Hfirst Hsecond) as (m1 & -> & Hcpu & Hworkers).
  cbn [default from_option id platform signal_state logged].
  rewrite Signals_facts.init_unfold.
  match goal with |- context [Signals.setup_all _ ?sigs ?s0] =>
    pose proof (Signals_facts.setup_all_succeeds sigaction_result sigs Hfine s0)
      as Hok;
    destruct (Signals.setup_all sigaction_result sigs s0) as [e s1] end.
  cbn [fst] in Hok. subst e.
  eexists _, _, _. split; [reflexivity|]. split; [reflexivity|].
  unfold server_infrastructure_destroy.
  cbn [initialized worker_manager platform signal_state logged].
  unfold worker_manager_cleanup. rewrite Hworkers.
  destruct (cpu_ids (Process.config m1)); [|discriminate].
  cbn. split; [reflexivity|]. fold w0 first second.
  rewrite <- app_assoc. reflexivity.
Qed.

(** X28.  When [server_infrastructure_create] fails after the HTTP server
    has been set up, it has failed in [signal_manager_init]: the result is
    [SERVER_INFRA_ERROR_INIT], the worker manager and the HTTP server are
    zeroed again and the infrastructure is not marked initialised, but the
    signal side is not undone: the manager inside the infrastructure is
    still the registered coordinator, and every signal installed before
    the refused one is still routed to [signal_handler]; the other
    dispositions are as before, SIGPIPE apart, which [system_init] may
    have set to ignored. *)
Theorem failed_create_keeps_handlers (infra0 infra1 : server_infrastructure_t)
    (p : Signals.loc) (c : server_config_t) (st st1 : machine)
    (r : server_infra_error_t) :
  json_fits c →
  server_infrastructure_create os sigaction_result (Some infra0) p (Some c) st
  = ((r, Some infra1), st1) →
  r ≠ SERVER_INFRA_OK →
  r = SERVER_INFRA_ERROR_INIT ∧
  initialized infra1 = false ∧
  worker_manager infra1 = zero_manager ∧
  http_server infra1 = Http.zero_server ∧
  Signals.global_signal_manager (signal_state st1) = Some p ∧
  ∃ (installed rest : list Z) (refused : Z),
    Signals.enabled_signals (signal_config c) = installed ++ refused :: rest ∧
    (∀ signum, signum ∈ installed →
       Signals.dispositions (signal_state st1) signum = Signals.Sa_signal_handler) ∧
    (∀ signum, signum ∉ installed → signum ≠ Signals.SIGPIPE →
       Signals.dispositions (signal_state st1) signum
       = Signals.dispositions (signal_state st) signum).
Proof.
  intros Hjson Hrun Hr. unfold server_infrastructure_create in Hrun.
  cbn [http_server worker_manager platform signal_state logged] in Hrun.
  destruct (http_create_fits c Hjson) as [server Hhttp]. rewrite Hhttp in Hrun.
  cbn [default from_option id] in Hrun.
  destruct (worker_manager_init os (Some zero_manager) (Some (worker_config c))
              (platform st)) as [[e manager] w].
  cbn [default from_option id platform signal_state logged] in Hrun.
  rewrite Signals_facts.init_unfold in Hrun.
  cbn [default from_option id] in Hrun.
  destruct (Signals.setup_all _ _ _) as [e' s1] eqn:Hsetup.
  apply Signals_facts.setup_all_spec in Hsetup
    as (_ & Hglob & installed & rest & results & Henabled & _ & _ & Hin & Hout
        & _ & He').
  destruct rest as [|refused rest]; subst e'.
  { injection Hrun as <- _ _. done. }
  pose proof (Process_facts.cleanup_zeroes (default zero_manager manager) w)
    as Hzero.
  destruct (worker_manager_cleanup (Some (default zero_manager manager)) w)
    as [cleaned w'].
  cbn [fst] in Hzero. subst cleaned.
  injection Hrun as <- <- <-.
  cbn [initialized worker_manager http_server signal_state default from_option id].
  split_and!; try reflexivity.
  - exact Hglob.
  - exists installed, rest, refused. split_and!; [exact Henabled|exact Hin|].
    intros signum Hsig Hpipe. rewrite Hout by exact Hsig.
    destruct (negb _ && _); [|reflexivity].
    cbn. now rewrite fn_lookup_insert_ne.
Qed.

End Infrastructure.

Lemma failed_create_keeps_handlers_witness :
  let run := server_infrastructure_create (os_fine 0)
               (λ _ signum _, if signum =? Signals.SIGINT then -1 else 0)
               (Some zero_infrastructure) 0%nat (Some config_for_two)
               fresh_machine in
  run.1.1 = SERVER_INFRA_ERROR_INIT ∧
  Signals.global_signal_manager (signal_state run.2) = Some 0%nat.
Proof.
  cbv zeta.
  destruct (server_infrastructure_create (os_fine 0)
              (λ _ signum _, if signum =? Signals.SIGINT then -1 else 0)
              (Some zero_infrastructure) 0%nat (Some config_for_two)
              fresh_machine) as [[r infra] st1] eqn:Hrun.
  assert (r = SERVER_INFRA_ERROR_INIT ∧ ∃ infra1, infra = Some infra1)
    as [-> [infra1 ->]].
  { pose proof Hrun as Hval. vm_compute in Hval. injection Hval as <- <- _.
    eauto. }
  destruct (failed_create_keeps_handlers (os_fine 0) _ zero_infrastructure infra1
              0%nat config_for_two fresh_machine st1 _
              ltac:(vm_compute; congruence) Hrun ltac:(discriminate))
    as (_ & _ & _ & _ & Hglob & _).
  split; [reflexivity|exact Hglob].
Defined.

Lemma create_succeeds_without_workers_witness :
  ∃ infra1 st1,
    server_infrastructure_create (os_fine 0) Signals.sigaction_fine
      (Some zero_infrastructure) 0%nat (Some fallback_config) fresh_machine
    = ((SERVER_INFRA_OK, Some infra1), st1) ∧
    initialized infra1 = true ∧
    worker_manager infra1 = zero_manager ∧
    platform st1 = platform fresh_machine ∧
    worker_manager_fork_workers (os_fine 0) (Some (worker_manager infra1))
      (platform st1)
    = ((PROCESS_OK, Some zero_manager),
       mk_world false [Ev_log_info (Msg_running_with 0)]).
Proof.
  refine (create_succeeds_without_workers (os_fine 0) Signals.sigaction_fine
            zero_infrastructure 0%nat fallback_config fresh_machine _ _ _).
  - vm_compute. congruence.
  - intros. discriminate.
  - right. reflexivity.
Defined.

Lemma destroy_releases_twice_witness :
  ∃ infra1 st1 st2,
    server_infrastructure_create os_small_allocations Signals.sigaction_fine
      (Some zero_infrastructure) 0%nat (Some config_for_two) fresh_machine
    = ((SERVER_INFRA_OK, Some infra1), st1) ∧
    initialized infra1 = true ∧
    server_infrastructure_destroy Signals.sigaction_fine (Some infra1) 0%nat st1
    = (Some zero_infrastructure, st2) ∧
    trace (platform st2)
    = [Ev_signal_ignore_sigpipe; Ev_malloc 8 true; Ev_malloc 32 false;
       Ev_free Blk_cpu_ids; Ev_free Blk_cpu_ids].
Proof.
  refine (destroy_releases_twice os_small_allocations Signals.sigaction_fine
            zero_infrastructure 0%nat config_for_two fresh_machine _ _ _ _ _ _).
  - vm_compute. congruence.
  - intros. discriminate.
  - reflexivity.
  - discriminate.
  - reflexivity.
  - reflexivity.
Defined.

End Server_facts.
